(** * oci-cli: name resolution, compartment walk and instance launch

    A shallow embedding of the command-line client in [main.go]: the three
    resolvers ([resolveCompartmentID], [resolveImageNameToID],
    [resolveShapeNameToID]), the recursive compartment listing
    ([listCompartmentsRecursive]) and the [instances create] handler
    ([createCmd]).

    The repository also keeps two earlier revisions of the file, in which
    compartment resolution tests the prefix [ocid1.] alone and [create] is a
    stub; the embedding follows the current revision.

    The cloud SDK is an external collaborator.  A client is a record of
    functions from requests to results, every call the program makes to a
    client with a request and every line it prints is recorded in a trace,
    and the program's functions compute a trace together with an outcome.
    The SDK sends the request of a call unless it cannot build it (an
    identifier of the path that is nil or empty, a number that JSON cannot
    carry); the result of the call is then an error of the SDK's own. *)

From Stdlib Require Import String Ascii List Bool Arith Lia.
From Stdlib Require Import SpecFloat.
Import ListNotations.

Open Scope list_scope.
Open Scope string_scope.

(** ** The parts of Go's [strings] package the program uses *)

Module strings.

(** [strings.HasPrefix(s, prefix)]. *)
Definition HasPrefix (s prefix : string) : bool := String.prefix prefix s.

(** [strings.Repeat(s, count)] for a count that is not negative. *)
Fixpoint Repeat (s : string) (count : nat) : string :=
  match count with
  | O => EmptyString
  | S n => s ++ Repeat s n
  end.

(** [strings.Split(s, sep)] for a separator that is not empty: the pieces of
    [s] between the occurrences of [sep], found from the left and not
    overlapping.  [cur] holds the bytes of the piece being read, last byte
    first; [skip] counts the bytes of an occurrence of [sep] still to be
    passed over. *)
Fixpoint splitFrom (sep s : string) (skip : nat) (cur : list ascii) : list string :=
  match s with
  | EmptyString => [string_of_list_ascii (rev cur)]
  | String c s' =>
      match skip with
      | S k => splitFrom sep s' k cur
      | O =>
          if String.prefix sep s
          then string_of_list_ascii (rev cur) :: splitFrom sep s' (String.length sep - 1) []
          else splitFrom sep s' 0 (c :: cur)
      end
  end.

Definition Split (s sep : string) : list string := splitFrom sep s 0 [].

(** The UTF-8 encodings of the runes for which [unicode.IsSpace] holds:
    tab, line feed, vertical tab, form feed, carriage return, space, U+0085,
    U+00A0, U+1680, U+2000 to U+200A, U+2028, U+2029, U+202F, U+205F and
    U+3000. *)
Definition spaceEncodings : list (list nat) :=
  [ [9]; [10]; [11]; [12]; [13]; [32];
    [194; 133]; [194; 160];
    [225; 154; 128];
    [226; 128; 128]; [226; 128; 129]; [226; 128; 130]; [226; 128; 131];
    [226; 128; 132]; [226; 128; 133]; [226; 128; 134]; [226; 128; 135];
    [226; 128; 136]; [226; 128; 137]; [226; 128; 138];
    [226; 128; 168]; [226; 128; 169]; [226; 128; 175];
    [226; 129; 159];
    [227; 128; 128] ].

Definition spaces : list (list ascii) := map (map ascii_of_nat) spaceEncodings.

Fixpoint startsWith (p l : list ascii) : bool :=
  match p, l with
  | [], _ => true
  | a :: p', b :: l' => Ascii.eqb a b && startsWith p' l'
  | _ :: _, [] => false
  end.

(** The width in bytes of the white-space rune [l] starts with; 0 when [l]
    starts with no such rune. *)
Definition spaceWidth (table : list (list ascii)) (l : list ascii) : nat :=
  match find (fun p => startsWith p l) table with
  | Some p => List.length p
  | None => 0
  end.

Fixpoint trimFront (table : list (list ascii)) (fuel : nat) (l : list ascii) : list ascii :=
  match fuel with
  | O => l
  | S n =>
      match spaceWidth table l with
      | O => l
      | w => trimFront table n (skipn w l)
      end
  end.

(** [strings.TrimSpace(s)]: [s] without its leading and trailing white space,
    as Unicode defines it.  The trailing runes are read from the end, which
    is reading the reversed encodings off the reversed bytes. *)
Definition TrimSpace (s : string) : string :=
  let l := list_ascii_of_string s in
  let l1 := trimFront spaces (List.length l) l in
  let l2 := trimFront (map (@rev ascii) spaces) (List.length l1) (rev l1) in
  string_of_list_ascii (rev l2).

End strings.

(** Line feed, Go's ["\n"]. *)
Definition LF : string := String (ascii_of_nat 10) EmptyString.

(** ** SDK data: requests and responses

    Go's [*string] is [option string]: [None] is the nil pointer. *)

Record Compartment := {
  Compartment_Id : option string;
  Compartment_Name : option string;
  Compartment_Description : option string
}.

Record ListCompartmentsRequest := {
  LCReq_CompartmentId : option string;
  LCReq_Page : option string
}.

Record ListCompartmentsResponse := {
  LCResp_Items : list Compartment;
  LCResp_OpcNextPage : option string
}.

Record Image := {
  Image_Id : option string;
  Image_DisplayName : option string
}.

Record ListImagesRequest := {
  LIReq_CompartmentId : option string;
  LIReq_DisplayName : option string
}.

Record ListImagesResponse := {
  LIResp_Items : list Image;
  LIResp_OpcNextPage : option string
}.

Record Shape := {
  Shape_Shape : option string
}.

Record ListShapesRequest := {
  LSReq_CompartmentId : option string;
  LSReq_ImageId : option string;
  LSReq_Page : option string
}.

Record ListShapesResponse := {
  LSResp_Items : list Shape;
  LSResp_OpcNextPage : option string
}.

(** [float32] values are kept as IEEE 754 data; the program only compares
    them with zero. *)
Definition float32 := spec_float.

Definition float32_neq0 (x : float32) : bool :=
  match x with
  | S754_zero _ => false
  | _ => true
  end.

Record LaunchInstanceShapeConfigDetails := {
  Ocpus : option float32;
  MemoryInGBs : option float32
}.

Record CreateVnicDetails := {
  SubnetId : option string
}.

Record InstanceSourceViaImageDetails := {
  ImageId : option string
}.

Record LaunchInstanceDetails := {
  LID_AvailabilityDomain : option string;
  LID_CompartmentId : option string;
  LID_DisplayName : option string;
  LID_Shape : option string;
  LID_CreateVnicDetails : option CreateVnicDetails;
  LID_SourceDetails : InstanceSourceViaImageDetails;
  LID_Metadata : list (string * string);
  LID_ShapeConfig : option LaunchInstanceShapeConfigDetails
}.

Record LaunchInstanceRequest := {
  LIR_LaunchInstanceDetails : LaunchInstanceDetails
}.

Record Instance := {
  Instance_Id : option string;
  Instance_LifecycleState : string
}.

Record LaunchInstanceResponse := {
  LIR_Instance : Instance
}.

(** ** Errors

    One constructor for each place an error value is made; [Error] is the
    message Go's [err.Error()] gives. *)

Inductive error : Type :=
| ServiceError (msg : string)
    (* an error the SDK returned: credentials, network or service *)
| ErrTenancyOCID (err : error)
| ErrIdentityClient (err : error)
| ErrCompartmentNotFound (input : string)
| ErrListImages (err : error)
| ErrListPlatformImages (tenancyOCID : string) (err : error)
| ErrImageNotFound (imageName compartmentID tenancyOCID : string)
| ErrListShapes (err : error)
| ErrShapeNotFound (shapeName imageID compartmentID : string).

Fixpoint Error (e : error) : string :=
  match e with
  | ServiceError msg => msg
  | ErrTenancyOCID err => "failed to get tenancy OCID: " ++ Error err
  | ErrIdentityClient err => "failed to create identity client: " ++ Error err
  | ErrCompartmentNotFound input =>
      "compartment with name '" ++ input ++ "' not found"
  | ErrListImages err => "failed to list images: " ++ Error err
  | ErrListPlatformImages tenancyOCID err =>
      "failed to list platform images (using tenancy " ++ tenancyOCID ++ "): "
      ++ Error err
  | ErrImageNotFound imageName compartmentID tenancyOCID =>
      "no image found with name '" ++ imageName ++ "' in compartment '"
      ++ compartmentID ++ "' or platform images (searched tenancy "
      ++ tenancyOCID ++ ")"
  | ErrListShapes err => "failed to list shapes: " ++ Error err
  | ErrShapeNotFound shapeName imageID compartmentID =>
      "no shape found with name '" ++ shapeName ++ "' compatible with image '"
      ++ imageID ++ "' in compartment '" ++ compartmentID ++ "'"
  end.

(** The errors of name resolution that say the name was not found, as
    against the errors of a remote call. *)
Definition isNotFoundError (e : error) : bool :=
  match e with
  | ErrCompartmentNotFound _ | ErrImageNotFound _ _ _ | ErrShapeNotFound _ _ _ => true
  | _ => false
  end.

(** ** Clients and the configuration provider *)

Inductive ConfigurationProvider : Type :=
| DefaultConfigProvider
| CustomProfileConfigProvider (path profile : string).

Record IdentityClient := {
  ListCompartments : ListCompartmentsRequest -> ListCompartmentsResponse + error
}.

Record ComputeClient := {
  ListImages : ListImagesRequest -> ListImagesResponse + error;
  ListShapes : ListShapesRequest -> ListShapesResponse + error;
  LaunchInstance : LaunchInstanceRequest -> LaunchInstanceResponse + error
}.

(** What lies outside the process: the configuration files behind a
    provider, the services behind the clients made from it, and the clock
    (already formatted with the layout [20060102-1504]). *)
Record World := {
  TenancyOCID : ConfigurationProvider -> string + error;
  NewIdentityClientWithConfigurationProvider :
    ConfigurationProvider -> IdentityClient + error;
  NewComputeClientWithConfigurationProvider :
    ConfigurationProvider -> ComputeClient + error;
  timeNow : string
}.

(** ** Traces and outcomes *)

Inductive event : Type :=
| ListCompartmentsCall (request : ListCompartmentsRequest)
| ListImagesCall (request : ListImagesRequest)
| ListShapesCall (request : ListShapesRequest)
| LaunchInstanceCall (request : LaunchInstanceRequest)
| Stdout (text : string).

(** A function that returns [(T, error)] ends in [Ret] or [Fail]; a nil
    pointer dereference ends it in [Panic].  [OutOfFuel] is not a behaviour
    of the program: it marks a run the recursion bound cut short. *)
Inductive outcome (E A : Type) : Type :=
| Ret (a : A)
| Fail (e : E)
| Panic
| OutOfFuel.

Arguments Ret {E A} a.
Arguments Fail {E A} e.
Arguments Panic {E A}.
Arguments OutOfFuel {E A}.

Definition M (E A : Type) : Type := list event * outcome E A.

Definition ret {E A} (a : A) : M E A := ([], Ret a).

Definition bind {E A B} (m : M E A) (k : A -> M E B) : M E B :=
  match m with
  | (t, Ret a) => let (t', r) := k a in ((t ++ t')%list, r)
  | (t, Fail e) => (t, Fail e)
  | (t, Panic) => (t, Panic)
  | (t, OutOfFuel) => (t, OutOfFuel)
  end.

Notation "x <- m ;; k" := (bind m (fun x => k))
  (at level 61, m at next level, right associativity).
Notation "m ;;; k" := (bind m (fun _ => k))
  (at level 61, right associativity).

(** [return "", err]. *)
Definition fail {E A} (e : E) : M E A := ([], Fail e).

(** [*p]. *)
Definition deref {E A} (p : option A) : M E A :=
  match p with
  | Some a => ret a
  | None => ([], Panic)
  end.

(** [fmt.Printf] and [fmt.Println], with the text already formatted. *)
Definition print {E} (text : string) : M E unit := ([Stdout text], Ret tt).

(** A call of a method of the client with a request: the event, then the
    client's answer. *)
Definition call {A} (ev : event) (answer : A + error) : M error A :=
  match answer with
  | inl a => ([ev], Ret a)
  | inr err => ([ev], Fail err)
  end.

(** A local step that returns [(T, error)] and sends nothing. *)
Definition local {A} (answer : A + error) : M error A :=
  match answer with
  | inl a => ret a
  | inr err => fail err
  end.

(** [if err != nil { return "", wrap(err) }]. *)
Definition wrapErr {E E' A} (wrap : E -> E') (m : M E A) : M E' A :=
  match m with
  | (t, Ret a) => (t, Ret a)
  | (t, Fail e) => (t, Fail (wrap e))
  | (t, Panic) => (t, Panic)
  | (t, OutOfFuel) => (t, OutOfFuel)
  end.

(** [for _, x := range items { body }], where an error return or a panic in
    the body leaves the loop. *)
Fixpoint forRange {E A} (items : list A) (body : A -> M E unit) : M E unit :=
  match items with
  | [] => ret tt
  | x :: rest => body x ;;; forRange rest body
  end.

Definition calls (t : list event) : list event :=
  filter (fun ev => match ev with Stdout _ => false | _ => true end) t.

Definition printed (t : list event) : list string :=
  flat_map (fun ev => match ev with Stdout s => [s] | _ => [] end) t.

(** ** The resolvers *)

Definition isCompartmentOCID (input : string) : bool :=
  strings.HasPrefix input "ocid1.compartment.oc1."
  || strings.HasPrefix input "ocid1.tenancy.oc1.".

(** The loop of [resolveCompartmentID]: the identifier of the first item
    whose name is [input]. *)
Fixpoint findCompartment (input : string) (items : list Compartment)
  : M error (option string) :=
  match items with
  | [] => ret None
  | compartment :: rest =>
      name <- deref (Compartment_Name compartment) ;;
      if String.eqb name input
      then id <- deref (Compartment_Id compartment) ;; ret (Some id)
      else findCompartment input rest
  end.

Definition resolveCompartmentID (w : World) (input : string)
    (configProvider : ConfigurationProvider) : M error string :=
  if isCompartmentOCID input then ret input
  else
    tenancyOCID <- wrapErr ErrTenancyOCID (local (TenancyOCID w configProvider)) ;;
    identityClient <- wrapErr ErrIdentityClient
        (local (NewIdentityClientWithConfigurationProvider w configProvider)) ;;
    let request := {| LCReq_CompartmentId := Some tenancyOCID; LCReq_Page := None |} in
    response <- call (ListCompartmentsCall request)
                     (ListCompartments identityClient request) ;;
    found <- findCompartment input (LCResp_Items response) ;;
    match found with
    | Some id => ret id
    | None => fail (ErrCompartmentNotFound input)
    end.

(** [*items[0].Id], for a slice that is not empty. *)
Definition firstImageId {E} (items : list Image) : M E string :=
  match items with
  | image :: _ => deref (Image_Id image)
  | [] => ([], Panic)
  end.

Definition resolveImageNameToID (imageName compartmentID tenancyOCID : string)
    (client : ComputeClient) : M error string :=
  let request := {| LIReq_CompartmentId := Some compartmentID;
                    LIReq_DisplayName := Some imageName |} in
  response <- wrapErr ErrListImages
      (call (ListImagesCall request) (ListImages client request)) ;;
  if (List.length (LIResp_Items response) =? 0)%nat then
    print ("Image '" ++ imageName ++ "' not found in compartment '"
           ++ compartmentID ++ "', checking platform images..." ++ LF) ;;;
    let request := {| LIReq_CompartmentId := Some tenancyOCID;
                      LIReq_DisplayName := LIReq_DisplayName request |} in
    responseOracle <- wrapErr (ErrListPlatformImages tenancyOCID)
        (call (ListImagesCall request) (ListImages client request)) ;;
    if (List.length (LIResp_Items responseOracle) =? 0)%nat then
      fail (ErrImageNotFound imageName compartmentID tenancyOCID)
    else
      (if (1 <? List.length (LIResp_Items responseOracle))%nat
       then print ("Warning: Multiple platform images found with name '"
                   ++ imageName ++ "'. Using the first one." ++ LF)
       else ret tt) ;;;
      firstImageId (LIResp_Items responseOracle)
  else
    (if (1 <? List.length (LIResp_Items response))%nat
     then print ("Warning: Multiple images found with name '" ++ imageName
                 ++ "' in compartment '" ++ compartmentID
                 ++ "'. Using the first one." ++ LF)
     else ret tt) ;;;
    firstImageId (LIResp_Items response).

(** [shape.Shape != nil && *shape.Shape == shapeName]. *)
Definition shapeIs (shapeName : string) (shape : Shape) : bool :=
  match Shape_Shape shape with
  | Some name => String.eqb name shapeName
  | None => false
  end.

Definition resolveShapeNameToID (shapeName compartmentID imageID : string)
    (client : ComputeClient) : M error string :=
  let request := {| LSReq_CompartmentId := Some compartmentID;
                    LSReq_ImageId := Some imageID;
                    LSReq_Page := None |} in
  response <- wrapErr ErrListShapes
      (call (ListShapesCall request) (ListShapes client request)) ;;
  if existsb (shapeIs shapeName) (LSResp_Items response)
  then ret shapeName
  else fail (ErrShapeNotFound shapeName imageID compartmentID).

(** ** The compartment walk *)

(** The line [listCompartmentsRecursive] prints for a compartment. *)
Definition compartmentLine (depth : nat) (id name description : string) : string :=
  strings.Repeat "  " depth ++ "Compartment ID: " ++ id ++ ", Name: " ++ name
  ++ ", Description: " ++ description ++ LF.

(** The body of the loop over [response.Items]: print the compartment, then
    list what is under it, one level deeper.  [recurse] is
    [listCompartmentsRecursive] itself, with the client. *)
Definition visitCompartment (recurse : ListCompartmentsRequest -> nat -> M error unit)
    (depth : nat) (compartment : Compartment) : M error unit :=
  id <- deref (Compartment_Id compartment) ;;
  name <- deref (Compartment_Name compartment) ;;
  description <- deref (Compartment_Description compartment) ;;
  print (compartmentLine depth id name description) ;;;
  match Compartment_Id compartment with
  | Some _ =>
      let subRequest := {| LCReq_CompartmentId := Compartment_Id compartment;
                           LCReq_Page := None |} in
      recurse subRequest (depth + 1)
  | None => ret tt
  end.

(** [depth] starts at 0 and only grows by one, so it is a [nat].  The
    recursion follows the answers of the service and need not end; [fuel]
    bounds the depth of the calls. *)
Fixpoint listCompartmentsRecursive (fuel : nat) (client : IdentityClient)
    (request : ListCompartmentsRequest) (depth : nat) : M error unit :=
  match fuel with
  | O => ([], OutOfFuel)
  | S fuel' =>
      response <- call (ListCompartmentsCall request)
                       (ListCompartments client request) ;;
      forRange (LCResp_Items response)
        (visitCompartment (listCompartmentsRecursive fuel' client) depth) ;;;
      match LCResp_OpcNextPage response with
      | Some _ =>
          let nextRequest := {| LCReq_CompartmentId := LCReq_CompartmentId request;
                                LCReq_Page := LCResp_OpcNextPage response |} in
          listCompartmentsRecursive fuel' client nextRequest depth
      | None => ret tt
      end
  end.

(** ** [instances create] *)

Record createFlags := {
  profileFlag : string;
  nameFlag : string;
  compartmentInput : string;
  shapeNameFlag : string;
  imageNameFlag : string;
  subnetIDFlag : string;
  adFlag : string;
  publicKeysFlag : string;
  ocpusFlag : float32;
  memoryInGBsFlag : float32
}.

(** The loop over [keys] that builds [sshKeysString]; [i] is the index of the
    first key of [rest] and [n] is [len(keys)]. *)
Fixpoint sshKeysLoop (rest : list string) (i n : nat) (sshKeysString : string) : string :=
  match rest with
  | [] => sshKeysString
  | key :: rest' =>
      let trimmedKey := strings.TrimSpace key in
      let sshKeysString :=
        if String.eqb trimmedKey EmptyString then sshKeysString
        else
          let sshKeysString := sshKeysString ++ trimmedKey in
          if (i <? n - 1)%nat then sshKeysString ++ LF else sshKeysString in
      sshKeysLoop rest' (S i) n sshKeysString
  end.

Definition sshKeysString (publicKeysFlag : string) : string :=
  let keys := strings.Split publicKeysFlag "," in
  sshKeysLoop keys 0 (List.length keys) EmptyString.

(** [log.Fatalf]: the process ends with the message. *)
Definition Fatalf {A} (msg : string) : M string A := ([], Fail msg).

(** [if err != nil { log.Fatalf(..., err) }]. *)
Definition orFatalf {A} (msg : error -> string) (m : M error A) : M string A :=
  wrapErr msg m.

Definition configProviderOf (profileFlag : string) : ConfigurationProvider :=
  if String.eqb profileFlag EmptyString then DefaultConfigProvider
  else CustomProfileConfigProvider "~/.oci/config" profileFlag.

Definition createCmd (w : World) (f : createFlags) : M string unit :=
  let configProvider := configProviderOf (profileFlag f) in
  computeClient <- orFatalf (fun err => "Error creating compute client: " ++ Error err)
      (local (NewComputeClientWithConfigurationProvider w configProvider)) ;;
  compartmentID <-
    (if negb (String.eqb (compartmentInput f) EmptyString) then
       orFatalf (fun err => "Error resolving compartment ID '" ++ compartmentInput f
                            ++ "': " ++ Error err)
         (resolveCompartmentID w (compartmentInput f) configProvider)
     else
       orFatalf (fun err => "Error getting tenancy OCID: " ++ Error err)
         (local (TenancyOCID w configProvider))) ;;
  print ("Using Compartment ID: " ++ compartmentID ++ LF) ;;;
  tenancyOCID <- orFatalf (fun err => "Error getting tenancy OCID: " ++ Error err)
      (local (TenancyOCID w configProvider)) ;;
  imageID <- orFatalf (fun err => "Error resolving image name '" ++ imageNameFlag f
                                  ++ "': " ++ Error err)
      (resolveImageNameToID (imageNameFlag f) compartmentID tenancyOCID computeClient) ;;
  print ("Using Image ID: " ++ imageID ++ LF) ;;;
  orFatalf (fun err => "Error validating shape name '" ++ shapeNameFlag f
                       ++ "' for image '" ++ imageID ++ "': " ++ Error err)
      (resolveShapeNameToID (shapeNameFlag f) compartmentID imageID computeClient) ;;;
  print ("Using Shape Name: " ++ shapeNameFlag f ++ LF) ;;;
  let displayName :=
    if String.eqb (nameFlag f) EmptyString then "instance-" ++ timeNow w
    else nameFlag f in
  print ("Instance Display Name: " ++ displayName ++ LF) ;;;
  let sshKeysString := sshKeysString (publicKeysFlag f) in
  (if String.eqb sshKeysString EmptyString
   then Fatalf "Error: No valid public SSH keys provided."
   else ret tt) ;;;
  let metadata := [("ssh_authorized_keys", sshKeysString)] in
  let createVnicDetails := {| SubnetId := Some (subnetIDFlag f) |} in
  let sourceDetails := {| ImageId := Some imageID |} in
  let shapeConfig :=
    if float32_neq0 (ocpusFlag f) || float32_neq0 (memoryInGBsFlag f)
    then Some {| Ocpus := Some (ocpusFlag f);
                 MemoryInGBs := Some (memoryInGBsFlag f) |}
    else None in
  let launchDetails := {|
    LID_AvailabilityDomain := Some (adFlag f);
    LID_CompartmentId := Some compartmentID;
    LID_DisplayName := Some displayName;
    LID_Shape := Some (shapeNameFlag f);
    LID_CreateVnicDetails := Some createVnicDetails;
    LID_SourceDetails := sourceDetails;
    LID_Metadata := metadata;
    LID_ShapeConfig := shapeConfig |} in
  let request := {| LIR_LaunchInstanceDetails := launchDetails |} in
  print ("Launching instance..." ++ LF) ;;;
  response <- orFatalf (fun err => "Error launching instance: " ++ Error err)
      (call (LaunchInstanceCall request) (LaunchInstance computeClient request)) ;;
  id <- deref (Instance_Id (LIR_Instance response)) ;;
  print ("Instance launch initiated successfully." ++ LF ++ "Instance ID: " ++ id
         ++ LF ++ "State: " ++ Instance_LifecycleState (LIR_Instance response) ++ LF) ;;;
  print ("Note: Instance provisioning takes time. Use 'instances info' to check status."
         ++ LF).

(** ** Remote data for the walk: compartment trees and their paged listings *)

#[local] Set Warnings "-register-all".

Inductive ctree : Type :=
| CNode (id name description : string) (children : list ctree).

Definition ctree_id (t : ctree) : string :=
  match t with CNode id _ _ _ => id end.

Definition ctree_children (t : ctree) : list ctree :=
  match t with CNode _ _ _ children => children end.

(** The item a listing returns for the root of [t]. *)
Definition compartmentOf (t : ctree) : Compartment :=
  match t with
  | CNode id name description _ =>
      {| Compartment_Id := Some id;
         Compartment_Name := Some name;
         Compartment_Description := Some description |}
  end.

(** The lines of a depth-first, pre-order visit of [t], whose root is at
    [depth]. *)
Fixpoint preorder (depth : nat) (t : ctree) : list string :=
  match t with
  | CNode id name description children =>
      compartmentLine depth id name description
      :: flat_map (preorder (depth + 1)) children
  end.

Fixpoint nodes (t : ctree) : nat :=
  match t with
  | CNode _ _ _ children => S (list_sum (map nodes children))
  end.

(** [serves client scope page ts]: asked for the compartments of [scope] from
    [page] on, [client] answers with the roots of [ts], in order, over one or
    more pages linked by continuation tokens, and it serves the children of
    every tree of [ts] in the same way under that tree's identifier. *)
Inductive serves (client : IdentityClient)
  : option string -> option string -> list ctree -> Prop :=
| serves_last scope page ts :
    ListCompartments client
      {| LCReq_CompartmentId := scope; LCReq_Page := page |}
    = inl {| LCResp_Items := map compartmentOf ts; LCResp_OpcNextPage := None |} ->
    (forall t, In t ts ->
       serves client (Some (ctree_id t)) None (ctree_children t)) ->
    serves client scope page ts
| serves_more scope page token ts rest :
    ListCompartments client
      {| LCReq_CompartmentId := scope; LCReq_Page := page |}
    = inl {| LCResp_Items := map compartmentOf ts;
             LCResp_OpcNextPage := Some token |} ->
    (forall t, In t ts ->
       serves client (Some (ctree_id t)) None (ctree_children t)) ->
    serves client scope (Some token) rest ->
    serves client scope page (ts ++ rest)%list.

(** ** Predicates of the statements *)

(** The display name of [compartment] is [input]. *)
Definition nameIs (input : string) (compartment : Compartment) : bool :=
  match Compartment_Name compartment with
  | Some name => String.eqb name input
  | None => false
  end.

(** The SDK marks a compartment's identifier and name as mandatory: a decoded
    item carries both. *)
Definition mandatoryPresent (compartment : Compartment) : Prop :=
  Compartment_Id compartment <> None /\ Compartment_Name compartment <> None.

(** No entry of the comma-separated [publicKeys] is left after trimming. *)
Definition noValidKey (publicKeys : string) : Prop :=
  Forall (fun key => strings.TrimSpace key = EmptyString)
         (strings.Split publicKeys ",").

(** The name-filtered image listing of [scope]. *)
Definition imageQuery (imageName scope : string) : ListImagesRequest :=
  {| LIReq_CompartmentId := Some scope; LIReq_DisplayName := Some imageName |}.

(** A run in which a refused listing request is the last thing that
    happened, and whose outcome is the error of that request. *)
Definition abortsAtFailure {A} (client : IdentityClient) (m : M error A) : Prop :=
  forall pre request post err,
    fst m = (pre ++ ListCompartmentsCall request :: post)%list ->
    ListCompartments client request = inr err ->
    post = [] /\ snd m = Fail err.

(** A run that ends normally after printing the pre-order lines of the forest
    [ts], whose roots are at [depth]. *)
Definition walksForest (m : M error unit) (depth : nat) (ts : list ctree) : Prop :=
  snd m = Ret tt /\ printed (fst m) = flat_map (preorder depth) ts.

(** The keys of [publicKeys]: its comma-separated entries, trimmed, without
    the empty ones. *)
Definition nonEmpty (s : string) : bool := negb (String.eqb s EmptyString).

Definition validKeys (publicKeys : string) : list string :=
  filter nonEmpty (map strings.TrimSpace (strings.Split publicKeys ",")).

Definition isLaunch (ev : event) : bool :=
  match ev with
  | LaunchInstanceCall _ => true
  | _ => false
  end.

(** A run that sends no launch request and that the recursion bound did not
    cut short. *)
Definition plain {E A} (m : M E A) : Prop :=
  Forall (fun ev => isLaunch ev = false) (fst m) /\ snd m <> OutOfFuel.

(** The message of [createCmd] when no key is left. *)
Definition noValidKeysMessage : string := "Error: No valid public SSH keys provided.".

(** A run of [createCmd], or of the rest of it from some step on, that sends
    no launch request and ends in a fatal error or a panic; and, if it ends
    with the message about the keys, the image listing and the shape listing
    were requested, in this part of the run or, as [imagesListed] and
    [shapesListed] record, before it. *)
Definition stopsShortOfLaunch (imagesListed shapesListed : Prop)
    (m : M string unit) : Prop :=
  Forall (fun ev => isLaunch ev = false) (fst m)
  /\ (snd m = Panic \/ exists msg, snd m = Fail msg)
  /\ (snd m = Fail noValidKeysMessage ->
      (imagesListed \/ exists request, In (ListImagesCall request) (fst m))
      /\ (shapesListed \/ exists request, In (ListShapesCall request) (fst m))).

(** ** A sample tenancy *)

Module sample.

Definition tenancy : string := "ocid1.tenancy.oc1..root".
Definition prodId : string := "ocid1.compartment.oc1..prod".
Definition dbId : string := "ocid1.compartment.oc1..db".
Definition devId : string := "ocid1.compartment.oc1..dev".
Definition dev2Id : string := "ocid1.compartment.oc1..dev2".

Definition db : ctree := CNode dbId "db" "databases" [].
Definition prod : ctree := CNode prodId "prod" "production" [db].
Definition dev : ctree := CNode devId "dev" "development" [].
Definition dev2 : ctree := CNode dev2Id "dev" "development, second" [].

(** The compartments under the tenancy: [prod] on the first page, the two
    compartments named [dev] on the second. *)
Definition forest : list ctree := [prod; dev; dev2].

Definition listCompartments (failing : option string)
    (request : ListCompartmentsRequest) : ListCompartmentsResponse + error :=
  match LCReq_CompartmentId request, LCReq_Page request with
  | Some scope, None =>
      if option_rect (fun _ => bool) (String.eqb scope) false failing
      then inr (ServiceError "NotAuthorizedOrNotFound")
      else if String.eqb scope tenancy
      then inl {| LCResp_Items := [compartmentOf prod];
                  LCResp_OpcNextPage := Some "page-2" |}
      else if String.eqb scope prodId
      then inl {| LCResp_Items := [compartmentOf db]; LCResp_OpcNextPage := None |}
      else inl {| LCResp_Items := []; LCResp_OpcNextPage := None |}
  | Some scope, Some token =>
      if String.eqb scope tenancy && String.eqb token "page-2"
      then inl {| LCResp_Items := [compartmentOf dev; compartmentOf dev2];
                  LCResp_OpcNextPage := None |}
      else inr (ServiceError "InvalidParameter")
  | None, _ => inr (ServiceError "MissingParameter")
  end.

(** Every listing succeeds. *)
Definition identityClient : IdentityClient :=
  {| ListCompartments := listCompartments None |}.

(** The listing of the compartments under [db] is refused. *)
Definition refusingClient : IdentityClient :=
  {| ListCompartments := listCompartments (Some dbId) |}.

Definition ubuntu : string := "Canonical Ubuntu 24.04".
Definition ubuntuId : string := "ocid1.image.oc1..ubuntu-a".
Definition ubuntuId2 : string := "ocid1.image.oc1..ubuntu-b".
Definition customId : string := "ocid1.image.oc1..custom".

(** [ubuntu] is a platform image, listed twice under the tenancy and under no
    compartment; ["golden"] is a custom image of [prod]. *)
Definition listImages (request : ListImagesRequest) : ListImagesResponse + error :=
  match LIReq_CompartmentId request, LIReq_DisplayName request with
  | Some scope, Some name =>
      if String.eqb scope tenancy && String.eqb name ubuntu
      then inl {| LIResp_Items :=
                    [ {| Image_Id := Some ubuntuId; Image_DisplayName := Some ubuntu |};
                      {| Image_Id := Some ubuntuId2; Image_DisplayName := Some ubuntu |} ];
                  LIResp_OpcNextPage := None |}
      else if String.eqb scope prodId && String.eqb name "golden"
      then inl {| LIResp_Items :=
                    [ {| Image_Id := Some customId; Image_DisplayName := Some "golden" |};
                      {| Image_Id := Some ubuntuId; Image_DisplayName := Some "golden" |} ];
                  LIResp_OpcNextPage := None |}
      else inl {| LIResp_Items := []; LIResp_OpcNextPage := None |}
  | _, _ => inr (ServiceError "MissingParameter")
  end.

Definition listShapes (request : ListShapesRequest) : ListShapesResponse + error :=
  inl {| LSResp_Items :=
           [ {| Shape_Shape := None |};
             {| Shape_Shape := Some "VM.Standard.E2.1.Micro" |};
             {| Shape_Shape := Some "VM.Standard.A1.Flex" |} ];
         LSResp_OpcNextPage := None |}.

Definition launchInstance (request : LaunchInstanceRequest)
  : LaunchInstanceResponse + error :=
  inl {| LIR_Instance := {| Instance_Id := Some "ocid1.instance.oc1..new";
                            Instance_LifecycleState := "PROVISIONING" |} |}.

Definition computeClient : ComputeClient :=
  {| ListImages := listImages;
     ListShapes := listShapes;
     LaunchInstance := launchInstance |}.

(** Two shapes served over two pages: the request without a page
    token is answered with the first shape and the token [page-2], the
    request with that token with [VM.Standard.A1.Flex]. *)
Definition listShapesPaged (request : ListShapesRequest)
  : ListShapesResponse + error :=
  match LSReq_Page request with
  | None =>
      inl {| LSResp_Items := [ {| Shape_Shape := Some "VM.Standard.E2.1.Micro" |} ];
             LSResp_OpcNextPage := Some "page-2" |}
  | Some token =>
      if String.eqb token "page-2"
      then inl {| LSResp_Items := [ {| Shape_Shape := Some "VM.Standard.A1.Flex" |} ];
                  LSResp_OpcNextPage := None |}
      else inr (ServiceError "InvalidParameter")
  end.

Definition pagedShapesClient : ComputeClient :=
  {| ListImages := listImages;
     ListShapes := listShapesPaged;
     LaunchInstance := launchInstance |}.

Definition world : World :=
  {| TenancyOCID := fun _ => inl tenancy;
     NewIdentityClientWithConfigurationProvider := fun _ => inl identityClient;
     NewComputeClientWithConfigurationProvider := fun _ => inl computeClient;
     timeNow := "20250101-0900" |}.

(** A tenancy whose three compartments come on a single page. *)
Definition onePageClient : IdentityClient :=
  {| ListCompartments := fun request =>
       if option_rect (fun _ => bool) (String.eqb tenancy) false
            (LCReq_CompartmentId request)
       then inl {| LCResp_Items := map compartmentOf forest;
                   LCResp_OpcNextPage := None |}
       else inl {| LCResp_Items := []; LCResp_OpcNextPage := None |} |}.

Definition onePageWorld : World :=
  {| TenancyOCID := fun _ => inl tenancy;
     NewIdentityClientWithConfigurationProvider := fun _ => inl onePageClient;
     NewComputeClientWithConfigurationProvider := fun _ => inl computeClient;
     timeNow := "20250101-0900" |}.

Definition flags (publicKeys : string) : createFlags :=
  {| profileFlag := EmptyString;
     nameFlag := "web-1";
     compartmentInput := "prod";
     shapeNameFlag := "VM.Standard.A1.Flex";
     imageNameFlag := ubuntu;
     subnetIDFlag := "ocid1.subnet.oc1..net";
     adFlag := "Uocm:US-ASHBURN-AD-1";
     publicKeysFlag := publicKeys;
     ocpusFlag := S754_zero false;
     memoryInGBsFlag := S754_zero false |}.

End sample.

From Stdlib Require DecimalString.

(** ** Further predicates and services *)

(** A [float32] with a value: not NaN and not an infinity.  The SDK writes the
    body of a request as JSON, which has no text for the other two; it then
    returns an error from the call and sends nothing. *)
Definition float32_finite (x : float32) : bool :=
  match x with
  | S754_zero _ | S754_finite _ _ _ => true
  | S754_infinity _ | S754_nan => false
  end.

(** A run that ends normally after sending at least [n] requests. *)
Definition sendsAtLeast (m : M error unit) (n : nat) : Prop :=
  snd m = Ret tt /\ n <= List.length (calls (fst m)).

Module edge.

(** A service that answers every listing with an empty page and one more
    continuation token. *)
Definition endlessClient : IdentityClient :=
  {| ListCompartments := fun _ =>
       inl {| LCResp_Items := []; LCResp_OpcNextPage := Some "more" |} |}.

(** A service whose listing holds a compartment without a description. *)
Definition bareClient : IdentityClient :=
  {| ListCompartments := fun _ =>
       inl {| LCResp_Items :=
                [ {| Compartment_Id := Some sample.devId;
                     Compartment_Name := Some "dev";
                     Compartment_Description := None |} ];
              LCResp_OpcNextPage := None |} |}.

(** The sample tenancy, with the listing under [db] refused. *)
Definition refusedWorld : World :=
  {| TenancyOCID := fun _ => inl sample.tenancy;
     NewIdentityClientWithConfigurationProvider := fun _ => inl sample.refusingClient;
     NewComputeClientWithConfigurationProvider := fun _ => inl sample.computeClient;
     timeNow := "20250101-0900" |}.

(** A machine without a readable configuration. *)
Definition noConfigWorld : World :=
  {| TenancyOCID := fun _ => inr (ServiceError "no config");
     NewIdentityClientWithConfigurationProvider := fun _ => inl sample.identityClient;
     NewComputeClientWithConfigurationProvider := fun _ => inl sample.computeClient;
     timeNow := "20250101-0900" |}.

End edge.

(** The launch request [instances create] builds from the flags [f] once the
    compartment and the image are resolved. *)
Definition launchRequestFor (w : World) (f : createFlags)
    (compartmentID imageID : string) : LaunchInstanceRequest :=
  {| LIR_LaunchInstanceDetails :=
       {| LID_AvailabilityDomain := Some (adFlag f);
          LID_CompartmentId := Some compartmentID;
          LID_DisplayName :=
            Some (if String.eqb (nameFlag f) EmptyString
                  then "instance-" ++ timeNow w
                  else nameFlag f);
          LID_Shape := Some (shapeNameFlag f);
          LID_CreateVnicDetails := Some {| SubnetId := Some (subnetIDFlag f) |};
          LID_SourceDetails := {| ImageId := Some imageID |};
          LID_Metadata := [("ssh_authorized_keys", sshKeysString (publicKeysFlag f))];
          LID_ShapeConfig :=
            if float32_neq0 (ocpusFlag f) || float32_neq0 (memoryInGBsFlag f)
            then Some {| Ocpus := Some (ocpusFlag f);
                         MemoryInGBs := Some (memoryInGBsFlag f) |}
            else None |} |}.

(** The steps of [instances create] before the launch all succeed, with the
    client [computeClient], the compartment [compartmentID], the tenancy
    [tenancyOCID] and the image [imageID], and there is a key. *)
Definition readyToLaunch (w : World) (f : createFlags)
    (computeClient : ComputeClient) (compartmentID tenancyOCID imageID : string)
  : Prop :=
  NewComputeClientWithConfigurationProvider w (configProviderOf (profileFlag f))
  = inl computeClient
  /\ (if String.eqb (compartmentInput f) EmptyString
      then TenancyOCID w (configProviderOf (profileFlag f)) = inl compartmentID
      else snd (resolveCompartmentID w (compartmentInput f)
                  (configProviderOf (profileFlag f))) = Ret compartmentID)
  /\ TenancyOCID w (configProviderOf (profileFlag f)) = inl tenancyOCID
  /\ snd (resolveImageNameToID (imageNameFlag f) compartmentID tenancyOCID
            computeClient) = Ret imageID
  /\ snd (resolveShapeNameToID (shapeNameFlag f) compartmentID imageID
            computeClient) = Ret (shapeNameFlag f)
  /\ sshKeysString (publicKeysFlag f) <> EmptyString.

(** [request] is the launch request of a run of [instances create] whose
    earlier steps all succeeded. *)
Definition launchedWith (w : World) (f : createFlags)
    (request : LaunchInstanceRequest) : Prop :=
  exists (computeClient : ComputeClient) (compartmentID tenancyOCID imageID : string),
    readyToLaunch w f computeClient compartmentID tenancyOCID imageID
    /\ request = launchRequestFor w f compartmentID imageID.

(** The launch request [request] was accepted and the answer carries the
    identifier of the new instance. *)
Definition launchAccepted (w : World) (f : createFlags)
    (request : LaunchInstanceRequest) : Prop :=
  exists (computeClient : ComputeClient) (response : LaunchInstanceResponse)
         (id : string),
    NewComputeClientWithConfigurationProvider w (configProviderOf (profileFlag f))
    = inl computeClient
    /\ LaunchInstance computeClient request = inl response
    /\ Instance_Id (LIR_Instance response) = Some id.

(** A run, or the rest of a run from some step on, that either sends no
    launch request and does not end normally, or sends exactly one, which
    satisfies [sent], and, if the run ends normally, [accepted]. *)
Definition launchDiscipline (sent accepted : LaunchInstanceRequest -> Prop)
    (m : M string unit) : Prop :=
  (filter isLaunch (fst m) = [] /\ snd m <> Ret tt)
  \/ (exists request,
        filter isLaunch (fst m) = [LaunchInstanceCall request]
        /\ sent request
        /\ (snd m = Ret tt -> accepted request)).

Module flex.

(** The flags of [sample.flags] with one key and one OCPU asked for. *)
Definition flags : createFlags :=
  {| profileFlag := EmptyString;
     nameFlag := EmptyString;
     compartmentInput := EmptyString;
     shapeNameFlag := "VM.Standard.A1.Flex";
     imageNameFlag := sample.ubuntu;
     subnetIDFlag := "ocid1.subnet.oc1..net";
     adFlag := "Uocm:US-ASHBURN-AD-1";
     publicKeysFlag := "ssh-rsa AAA";
     ocpusFlag := S754_finite false BinNums.xH BinNums.Z0;
     memoryInGBsFlag := S754_zero false |}.

End flex.

(** ** The other commands

    A command ends its process with [os.Exit] after printing a message, or
    with [log.Fatal] and [log.Fatalf], which write the message to the error
    stream and exit with status 1. *)

Inductive exit : Type :=
| osExit (code : nat)
| logFatal (msg : string).

(** [if err != nil { fmt.Printf(text, err); os.Exit(1) }]. *)
Definition orExit {A} (text : error -> string) (m : M error A) : M exit A :=
  match m with
  | (t, Ret a) => (t, Ret a)
  | (t, Fail err) => ((t ++ [Stdout (text err)])%list, Fail (osExit 1))
  | (t, Panic) => (t, Panic)
  | (t, OutOfFuel) => (t, OutOfFuel)
  end.

(** [compartments list]. *)
Definition listCompartmentsCmd (fuel : nat) (w : World) (profileFlag : string)
  : M exit unit :=
  let configProvider := configProviderOf profileFlag in
  tenancyOCID <- orExit (fun err => "Error getting tenancy OCID: " ++ Error err ++ LF)
      (local (TenancyOCID w configProvider)) ;;
  identityClient <- orExit (fun err => "Error creating identity client: " ++ Error err ++ LF)
      (local (NewIdentityClientWithConfigurationProvider w configProvider)) ;;
  let request := {| LCReq_CompartmentId := Some tenancyOCID; LCReq_Page := None |} in
  wrapErr (fun err => logFatal (Error err))
    (listCompartmentsRecursive fuel identityClient request 0).


(** *** Instances: data, client and events

    [core.Instance] with the fields [instances list] and [instances info]
    read, and the two methods of the compute client they call. *)

Record InstanceDetails := {
  ID_Id : option string;
  ID_DisplayName : option string;
  ID_LifecycleState : string;
  ID_Shape : option string;
  ID_ImageId : option string;
  ID_CompartmentId : option string;
  ID_AvailabilityDomain : option string;
  ID_FaultDomain : option string
}.

Record ListInstancesRequest := {
  LInReq_CompartmentId : option string
}.

Record ListInstancesResponse := {
  LInResp_Items : list InstanceDetails
}.

Record GetInstanceRequest := {
  GIReq_InstanceId : option string
}.

Record GetInstanceResponse := {
  GIResp_Instance : InstanceDetails
}.

Record InstancesClient := {
  ListInstances : ListInstancesRequest -> ListInstancesResponse + error;
  GetInstance : GetInstanceRequest -> GetInstanceResponse + error
}.

(** [core.ListImagesRequest] and [core.Image] with the fields
    [instances list-images] sets and reads, and the listing method as that
    command calls it.  [Limit] is an [int]; the sort fields are the SDK's
    enumeration values. *)
Record ImageListing := {
  IL_CompartmentId : option string;
  IL_Limit : option BinNums.Z;
  IL_SortBy : string;
  IL_SortOrder : string;
  IL_OperatingSystem : option string
}.

Record ImageEntry := {
  IE_Id : option string;
  IE_DisplayName : option string;
  IE_OperatingSystem : option string;
  IE_BaseImageId : option string;
  IE_LifecycleState : string
}.

Record ImageListingResponse := {
  ILResp_Items : list ImageEntry
}.

Record ImagesClient := {
  ListImagesBy : ImageListing -> ImageListingResponse + error
}.

(** The events of these commands: those of the resolvers and the printed
    text, as before, the two requests about instances and the image listing
    of [list-images]. *)
Inductive cmdEvent : Type :=
| Earlier (ev : event)
| ListInstancesCall (request : ListInstancesRequest)
| GetInstanceCall (request : GetInstanceRequest)
| ListImagesByCall (request : ImageListing).

Definition Cmd (E A : Type) : Type := list cmdEvent * outcome E A.

Definition cret {E A} (a : A) : Cmd E A := ([], Ret a).

Definition cbind {E A B} (m : Cmd E A) (k : A -> Cmd E B) : Cmd E B :=
  match m with
  | (t, Ret a) => let (t', r) := k a in ((t ++ t')%list, r)
  | (t, Fail e) => (t, Fail e)
  | (t, Panic) => (t, Panic)
  | (t, OutOfFuel) => (t, OutOfFuel)
  end.

Notation "x <~ m ;; k" := (cbind m (fun x => k))
  (at level 61, m at next level, right associativity).
Notation "m ~;; k" := (cbind m (fun _ => k))
  (at level 61, right associativity).

(** A run of the resolvers' kind, inside a command. *)
Definition lift {E A} (m : M E A) : Cmd E A := (map Earlier (fst m), snd m).

Definition cprint {E} (text : string) : Cmd E unit := lift (print text).

Definition cderef {E A} (p : option A) : Cmd E A := lift (deref p).

(** A call about instances: the event, then the client's answer. *)
Definition ccall {A} (ev : cmdEvent) (answer : A + error) : Cmd error A :=
  match answer with
  | inl a => ([ev], Ret a)
  | inr err => ([ev], Fail err)
  end.

(** [if err != nil { log.Fatalf(text, err) }]. *)
Definition corFatal {A} (text : error -> string) (m : Cmd error A) : Cmd exit A :=
  match m with
  | (t, Ret a) => (t, Ret a)
  | (t, Fail err) => (t, Fail (logFatal (text err)))
  | (t, Panic) => (t, Panic)
  | (t, OutOfFuel) => (t, OutOfFuel)
  end.

(** [if err != nil { fmt.Printf(text, err); os.Exit(1) }]. *)
Definition corExit {A} (text : error -> string) (m : Cmd error A) : Cmd exit A :=
  match m with
  | (t, Ret a) => (t, Ret a)
  | (t, Fail err) => ((t ++ [Earlier (Stdout (text err))])%list, Fail (osExit 1))
  | (t, Panic) => (t, Panic)
  | (t, OutOfFuel) => (t, OutOfFuel)
  end.

(** [fmt.Println(text); os.Exit(1)]. *)
Definition exitWith {A} (text : string) : Cmd exit A :=
  ([Earlier (Stdout (text ++ LF))], Fail (osExit 1)).

Fixpoint cforRange {E A} (items : list A) (body : A -> Cmd E unit) : Cmd E unit :=
  match items with
  | [] => cret tt
  | x :: rest => body x ~;; cforRange rest body
  end.

(** The requests of a run, without the printed text. *)
Definition requests (t : list cmdEvent) : list cmdEvent :=
  filter (fun ev => match ev with Earlier (Stdout _) => false | _ => true end) t.

(** The text a run printed. *)
Definition output (t : list cmdEvent) : list string :=
  flat_map (fun ev => match ev with Earlier (Stdout s) => [s] | _ => [] end) t.

(** The requests for the details of an instance, among the events of a run. *)
Definition details (t : list cmdEvent) : list GetInstanceRequest :=
  flat_map (fun ev => match ev with GetInstanceCall request => [request] | _ => [] end) t.

(** *** [instances list] *)

Definition instanceLine (id displayName state : string) : string :=
  "Instance ID: " ++ id ++ ", Display Name: " ++ displayName ++ ", State: "
  ++ state ++ LF.

Definition listCmd (w : World) (instancesOf : ComputeClient -> InstancesClient)
    (compartmentInput tenancyFlag profileFlag : string) : Cmd exit unit :=
  let configProvider := configProviderOf profileFlag in
  compartmentID <~
    (if negb (String.eqb tenancyFlag EmptyString) then
       corFatal (fun err => "Error getting tenancy OCID: " ++ Error err)
         (lift (local (TenancyOCID w configProvider)))
     else if negb (String.eqb compartmentInput EmptyString) then
       corFatal (fun err => "Error resolving compartment: " ++ Error err)
         (lift (resolveCompartmentID w compartmentInput configProvider))
     else
       corFatal (fun err => "Error getting tenancy OCID for default: " ++ Error err)
         (lift (local (TenancyOCID w configProvider)))) ;;
  computeClient <~ corFatal (fun err => "Error creating compute client: " ++ Error err)
      (lift (local (NewComputeClientWithConfigurationProvider w configProvider))) ;;
  let request := {| LInReq_CompartmentId := Some compartmentID |} in
  response <~ corFatal Error
      (ccall (ListInstancesCall request)
             (ListInstances (instancesOf computeClient) request)) ;;
  cforRange (LInResp_Items response) (fun instance =>
    id <~ cderef (ID_Id instance) ;;
    displayName <~ cderef (ID_DisplayName instance) ;;
    cprint (instanceLine id displayName (ID_LifecycleState instance))).

(** *** [instances info] *)

Definition displayInstanceDetails {E} (instance : InstanceDetails) : Cmd E unit :=
  cprint ("Instance Details:" ++ LF) ~;;
  id <~ cderef (ID_Id instance) ;;
  cprint ("  ID: " ++ id ++ LF) ~;;
  displayName <~ cderef (ID_DisplayName instance) ;;
  cprint ("  Display Name: " ++ displayName ++ LF) ~;;
  cprint ("  State: " ++ ID_LifecycleState instance ++ LF) ~;;
  shape <~ cderef (ID_Shape instance) ;;
  cprint ("  Shape: " ++ shape ++ LF) ~;;
  imageId <~ cderef (ID_ImageId instance) ;;
  cprint ("  Image ID: " ++ imageId ++ LF) ~;;
  compartmentId <~ cderef (ID_CompartmentId instance) ;;
  cprint ("  Compartment ID: " ++ compartmentId ++ LF) ~;;
  availabilityDomain <~ cderef (ID_AvailabilityDomain instance) ;;
  cprint ("  Availability Domain: " ++ availabilityDomain ++ LF) ~;;
  faultDomain <~ cderef (ID_FaultDomain instance) ;;
  cprint ("  Fault Domain: " ++ faultDomain ++ LF).

(** The loop of [instances info --name]: at the first instance whose display
    name is [nameFlag], ask for its details, print them, and leave the loop
    with [found] set. *)
Fixpoint findInstance (client : InstancesClient) (nameFlag : string)
    (items : list InstanceDetails) : Cmd exit bool :=
  match items with
  | [] => cret false
  | instanceSummary :: rest =>
      displayName <~ cderef (ID_DisplayName instanceSummary) ;;
      if String.eqb displayName nameFlag then
        let getRequest := {| GIReq_InstanceId := ID_Id instanceSummary |} in
        fullResponse <~
          corExit (fun err => "Error: Getting full instance details failed: "
                              ++ Error err ++ LF)
            (ccall (GetInstanceCall getRequest) (GetInstance client getRequest)) ;;
        displayInstanceDetails (GIResp_Instance fullResponse) ~;;
        cret true
      else findInstance client nameFlag rest
  end.

Definition infoCmd (w : World) (instancesOf : ComputeClient -> InstancesClient)
    (idFlag nameFlag compartmentFlag profileFlag : string) : Cmd exit unit :=
  let configProvider := configProviderOf profileFlag in
  if negb (String.eqb idFlag EmptyString) && negb (String.eqb nameFlag EmptyString)
  then exitWith "Error: Specify either --id or --name, not both."
  else if negb (String.eqb idFlag EmptyString) then
    computeClient <~
      corExit (fun err => "Error: Creating compute client failed: " ++ Error err ++ LF)
        (lift (local (NewComputeClientWithConfigurationProvider w configProvider))) ;;
    let request := {| GIReq_InstanceId := Some idFlag |} in
    response <~
      corExit (fun err => "Error: Getting instance by ID failed: " ++ Error err ++ LF)
        (ccall (GetInstanceCall request)
               (GetInstance (instancesOf computeClient) request)) ;;
    displayInstanceDetails (GIResp_Instance response)
  else if negb (String.eqb nameFlag EmptyString) then
    compartmentID <~
      (if String.eqb compartmentFlag EmptyString then
         corExit (fun err => "Error: Getting tenancy OCID failed: " ++ Error err ++ LF)
           (lift (local (TenancyOCID w configProvider)))
       else
         corExit (fun err => "Error: Resolving compartment ID failed: "
                             ++ Error err ++ LF)
           (lift (resolveCompartmentID w compartmentFlag configProvider))) ;;
    computeClient <~
      corExit (fun err => "Error: Creating compute client failed: " ++ Error err ++ LF)
        (lift (local (NewComputeClientWithConfigurationProvider w configProvider))) ;;
    let listRequest := {| LInReq_CompartmentId := Some compartmentID |} in
    listResponse <~
      corExit (fun err => "Error: Listing instances failed: " ++ Error err ++ LF)
        (ccall (ListInstancesCall listRequest)
               (ListInstances (instancesOf computeClient) listRequest)) ;;
    found <~ findInstance (instancesOf computeClient) nameFlag
               (LInResp_Items listResponse) ;;
    if negb found
    then cprint ("No instance found with that display name in the compartment." ++ LF)
    else cret tt
  else exitWith "Error: Specify either --id or --name.".

(** *** [instances list-images] *)

Definition dashes : string := "--------------------------------------------------".

(** [%d] of a length. *)
Definition decimal (n : nat) : string :=
  DecimalString.NilEmpty.string_of_uint (Nat.to_uint n).

Definition printImage {E} (image : ImageEntry) : Cmd E unit :=
  displayName <~ cderef (IE_DisplayName image) ;;
  cprint ("Display Name: " ++ displayName ++ LF) ~;;
  id <~ cderef (IE_Id image) ;;
  cprint ("  ID:           " ++ id ++ LF) ~;;
  operatingSystem <~ cderef (IE_OperatingSystem image) ;;
  cprint ("  OS:           " ++ operatingSystem ++ LF) ~;;
  match IE_BaseImageId image with
  | Some baseImageId => cprint ("  Base Image:   " ++ baseImageId ++ LF)
  | None => cret tt
  end ~;;
  cprint ("  State:        " ++ IE_LifecycleState image ++ LF) ~;;
  cprint (dashes ++ LF).

Definition listImagesCmd (w : World) (imagesOf : ComputeClient -> ImagesClient)
    (profileFlag compartmentInput : string) (platformFlag : bool)
    (osFilter : string) (limitFlag : BinNums.Z) : Cmd exit unit :=
  let configProvider := configProviderOf profileFlag in
  computeClient <~ corFatal (fun err => "Error creating compute client: " ++ Error err)
      (lift (local (NewComputeClientWithConfigurationProvider w configProvider))) ;;
  tenancyOCID <~ corFatal (fun err => "Error getting tenancy OCID: " ++ Error err)
      (lift (local (TenancyOCID w configProvider))) ;;
  queryCompartmentID <~
    (if platformFlag then
       cprint ("Listing platform images..." ++ LF) ~;; cret tenancyOCID
     else if negb (String.eqb compartmentInput EmptyString) then
       queryCompartmentID <~
         corFatal (fun err => "Error resolving compartment ID '" ++ compartmentInput
                              ++ "': " ++ Error err)
           (lift (resolveCompartmentID w compartmentInput configProvider)) ;;
       cprint ("Listing images in compartment: " ++ queryCompartmentID ++ LF) ~;;
       cret queryCompartmentID
     else
       cprint ("Listing images in tenancy root: " ++ tenancyOCID ++ LF) ~;;
       cret tenancyOCID) ;;
  let request := {| IL_CompartmentId := Some queryCompartmentID;
                    IL_Limit := Some limitFlag;
                    IL_SortBy := "TIMECREATED";
                    IL_SortOrder := "DESC";
                    IL_OperatingSystem :=
                      if negb (String.eqb osFilter EmptyString) then Some osFilter
                      else None |} in
  cprint ("Fetching images..." ++ LF) ~;;
  response <~ corFatal (fun err => "Error listing images: " ++ Error err)
      (ccall (ListImagesByCall request)
             (ListImagesBy (imagesOf computeClient) request)) ;;
  if (List.length (ILResp_Items response) =? 0)%nat then
    cprint ("No images found matching the criteria." ++ LF)
  else
    cprint ("Found " ++ decimal (List.length (ILResp_Items response)) ++ " images:" ++ LF) ~;;
    cprint (dashes ++ LF) ~;;
    cforRange (ILResp_Items response) printImage.

Module fleet.

Definition web1 : InstanceDetails :=
  {| ID_Id := Some "ocid1.instance.oc1..web1";
     ID_DisplayName := Some "web";
     ID_LifecycleState := "RUNNING";
     ID_Shape := Some "VM.Standard.A1.Flex";
     ID_ImageId := Some sample.ubuntuId;
     ID_CompartmentId := Some sample.prodId;
     ID_AvailabilityDomain := Some "Uocm:US-ASHBURN-AD-1";
     ID_FaultDomain := Some "FAULT-DOMAIN-1" |}.

Definition web2 : InstanceDetails :=
  {| ID_Id := Some "ocid1.instance.oc1..web2";
     ID_DisplayName := Some "web";
     ID_LifecycleState := "STOPPED";
     ID_Shape := Some "VM.Standard.E2.1.Micro";
     ID_ImageId := Some sample.ubuntuId;
     ID_CompartmentId := Some sample.prodId;
     ID_AvailabilityDomain := Some "Uocm:US-ASHBURN-AD-1";
     ID_FaultDomain := Some "FAULT-DOMAIN-2" |}.

Definition db1 : InstanceDetails :=
  {| ID_Id := Some "ocid1.instance.oc1..db1";
     ID_DisplayName := Some "db";
     ID_LifecycleState := "RUNNING";
     ID_Shape := Some "VM.Standard.E2.1.Micro";
     ID_ImageId := Some sample.customId;
     ID_CompartmentId := Some sample.prodId;
     ID_AvailabilityDomain := Some "Uocm:US-ASHBURN-AD-1";
     ID_FaultDomain := Some "FAULT-DOMAIN-1" |}.

(** Three instances in [prod], none elsewhere. *)
Definition instancesClient : InstancesClient :=
  {| ListInstances := fun request =>
       if option_rect (fun _ => bool) (String.eqb sample.prodId) false
            (LInReq_CompartmentId request)
       then inl {| LInResp_Items := [db1; web1; web2] |}
       else inl {| LInResp_Items := [] |};
     GetInstance := fun request =>
       match GIReq_InstanceId request with
       | Some id =>
           if String.eqb id "ocid1.instance.oc1..web1"
           then inl {| GIResp_Instance := web1 |}
           else if String.eqb id "ocid1.instance.oc1..web2"
           then inl {| GIResp_Instance := web2 |}
           else if String.eqb id "ocid1.instance.oc1..db1"
           then inl {| GIResp_Instance := db1 |}
           else inr (ServiceError "NotAuthorizedOrNotFound")
       | None => inr (ServiceError "MissingParameter")
       end |}.

(** One platform image under the tenancy, none elsewhere. *)
Definition imagesClient : ImagesClient :=
  {| ListImagesBy := fun request =>
       if option_rect (fun _ => bool) (String.eqb sample.tenancy) false
            (IL_CompartmentId request)
       then inl {| ILResp_Items :=
                     [ {| IE_Id := Some sample.ubuntuId;
                          IE_DisplayName := Some sample.ubuntu;
                          IE_OperatingSystem := Some "Canonical Ubuntu";
                          IE_BaseImageId := None;
                          IE_LifecycleState := "AVAILABLE" |} ] |}
       else inl {| ILResp_Items := [] |} |}.

End fleet.

(** *** Predicates on instances *)

(** The line [instances list] prints for an instance that has its identifier
    and its display name. *)
Definition instanceLineOf (instance : InstanceDetails) : list string :=
  match ID_Id instance, ID_DisplayName instance with
  | Some id, Some displayName =>
      [instanceLine id displayName (ID_LifecycleState instance)]
  | _, _ => []
  end.

Definition listable (instance : InstanceDetails) : Prop :=
  ID_Id instance <> None /\ ID_DisplayName instance <> None.

(** Every pointer field [displayInstanceDetails] reads is there. *)
Definition displayable (instance : InstanceDetails) : Prop :=
  ID_Id instance <> None /\ ID_DisplayName instance <> None
  /\ ID_Shape instance <> None /\ ID_ImageId instance <> None
  /\ ID_CompartmentId instance <> None /\ ID_AvailabilityDomain instance <> None
  /\ ID_FaultDomain instance <> None.

(** An instance with a display name, which is not [nameFlag]. *)
Definition namedOtherwise (nameFlag : string) (instance : InstanceDetails) : Prop :=
  exists displayName,
    ID_DisplayName instance = Some displayName /\ displayName <> nameFlag.

(** * Properties *)

Local Open Scope list_scope.
#[local] Arguments String.append : simpl never.

(** ** Steps of the trace monad *)

Lemma bind_ret {E A B} (t : list event) (a : A) (k : A -> M E B) :
  bind (t, Ret a) k = (t ++ fst (k a), snd (k a)).
Proof. unfold bind. destruct (k a); reflexivity. Qed.

Lemma bind_ret_nil {E A B} (a : A) (k : A -> M E B) : bind ([], Ret a) k = k a.
Proof. unfold bind. destruct (k a); reflexivity. Qed.

Lemma bind_call_first {A B E} (ev : event) (answer : A + error) (wrap : error -> E)
    (k : A -> M E B) :
  exists rest, fst (bind (wrapErr wrap (call ev answer)) k) = ev :: rest.
Proof.
  destruct answer as [a | err]; simpl.
  - destruct (k a) as [t r]. exists t. reflexivity.
  - exists []. reflexivity.
Qed.

Lemma bind_ret_l {E A B} (a : A) (k : A -> M E B) : bind (ret a) k = k a.
Proof. apply bind_ret_nil. Qed.

(** ** Compartment resolution *)

Lemma isCompartmentOCID_spec (input : string) :
  isCompartmentOCID input = true <->
  strings.HasPrefix input "ocid1.compartment.oc1." = true
  \/ strings.HasPrefix input "ocid1.tenancy.oc1." = true.
Proof. unfold isCompartmentOCID. apply orb_true_iff. Qed.

Lemma resolveCompartmentID_literal (w : World) (input : string)
    (configProvider : ConfigurationProvider) :
  isCompartmentOCID input = true ->
  resolveCompartmentID w input configProvider = ([], Ret input).
Proof. intros H. unfold resolveCompartmentID. rewrite H. reflexivity. Qed.

(** After the prefix test fails and the tenancy and the client are at hand,
    resolution is one listing request followed by the search of its items. *)
Lemma resolveCompartmentID_lookup (w : World) (input : string)
    (configProvider : ConfigurationProvider) tenancyOCID client :
  isCompartmentOCID input = false ->
  TenancyOCID w configProvider = inl tenancyOCID ->
  NewIdentityClientWithConfigurationProvider w configProvider = inl client ->
  let request := {| LCReq_CompartmentId := Some tenancyOCID; LCReq_Page := None |} in
  resolveCompartmentID w input configProvider =
    (response <- call (ListCompartmentsCall request) (ListCompartments client request) ;;
     found <- findCompartment input (LCResp_Items response) ;;
     match found with
     | Some id => ret id
     | None => fail (ErrCompartmentNotFound input)
     end).
Proof.
  intros Hocid Hten Hcli. unfold resolveCompartmentID.
  rewrite Hocid, Hten, Hcli. cbn [local wrapErr ret].
  rewrite !bind_ret_nil. reflexivity.
Qed.

Lemma findCompartment_silent (input : string) (items : list Compartment) :
  fst (findCompartment input items) = [].
Proof.
  induction items as [| c rest IH]; simpl; [reflexivity |].
  destruct (Compartment_Name c) as [name |]; simpl; [| reflexivity].
  destruct (String.eqb name input).
  - destruct (Compartment_Id c); reflexivity.
  - destruct (findCompartment input rest) as [t r]. simpl in IH. subst t.
    reflexivity.
Qed.

Lemma findCompartment_absent (input : string) (items : list Compartment) :
  Forall (fun c => exists name, Compartment_Name c = Some name /\ name <> input) items ->
  findCompartment input items = ([], Ret None).
Proof.
  induction 1 as [| c rest [name [Hname Hneq]] _ IH]; simpl; [reflexivity |].
  rewrite Hname. simpl. apply String.eqb_neq in Hneq. rewrite Hneq, IH. reflexivity.
Qed.

Lemma findCompartment_first (input : string) (items : list Compartment) first :
  Forall mandatoryPresent items ->
  find (nameIs input) items = Some first ->
  exists id, Compartment_Id first = Some id
             /\ findCompartment input items = ([], Ret (Some id)).
Proof.
  induction 1 as [| c rest [Hid Hname] _ IH]; simpl; [discriminate |].
  unfold nameIs at 1.
  destruct (Compartment_Name c) as [name |]; [| congruence]. simpl.
  destruct (String.eqb name input).
  - intros [= <-]. destruct (Compartment_Id c) as [id |]; [| congruence].
    exists id. split; reflexivity.
  - intros Hfind. destruct (IH Hfind) as [id [H1 H2]].
    exists id. rewrite H2. split; [assumption | reflexivity].
Qed.

Lemma find_of_matches {A} (p : A -> bool) (items : list A) :
  1 <= List.length (filter p items) -> exists first, find p items = Some first.
Proof.
  induction items as [| x rest IH]; simpl; [lia |].
  destruct (p x); [eexists; reflexivity | exact IH].
Qed.

Lemma resolveCompartmentID_lookup_trace (w : World) (input : string)
    (configProvider : ConfigurationProvider) tenancyOCID client :
  isCompartmentOCID input = false ->
  TenancyOCID w configProvider = inl tenancyOCID ->
  NewIdentityClientWithConfigurationProvider w configProvider = inl client ->
  fst (resolveCompartmentID w input configProvider)
  = [ListCompartmentsCall
       {| LCReq_CompartmentId := Some tenancyOCID; LCReq_Page := None |}].
Proof.
  intros Hocid Hten Hcli.
  rewrite (resolveCompartmentID_lookup w input configProvider tenancyOCID client)
    by assumption.
  destruct (ListCompartments client _) as [response | err]; simpl; [| reflexivity].
  pose proof (findCompartment_silent input (LCResp_Items response)) as Hs.
  destruct (findCompartment input (LCResp_Items response)) as [t [[id |] | e | |]];
    simpl in Hs; subst t; reflexivity.
Qed.

Lemma resolveCompartmentID_not_silent (w : World) (input : string)
    (configProvider : ConfigurationProvider) :
  isCompartmentOCID input = false ->
  resolveCompartmentID w input configProvider <> ([], Ret input).
Proof.
  intros Hocid Heq.
  destruct (TenancyOCID w configProvider) as [tenancyOCID | e1] eqn:Hten.
  - destruct (NewIdentityClientWithConfigurationProvider w configProvider)
      as [client | e2] eqn:Hcli.
    + pose proof (resolveCompartmentID_lookup_trace w input configProvider
                    tenancyOCID client Hocid Hten Hcli) as Ht.
      rewrite Heq in Ht. discriminate Ht.
    + unfold resolveCompartmentID in Heq. rewrite Hocid, Hten, Hcli in Heq.
      discriminate Heq.
  - unfold resolveCompartmentID in Heq. rewrite Hocid, Hten in Heq.
    discriminate Heq.
Qed.

Lemma resolveCompartmentID_absent (w : World) (input : string)
    (configProvider : ConfigurationProvider) tenancyOCID client response :
  isCompartmentOCID input = false ->
  TenancyOCID w configProvider = inl tenancyOCID ->
  NewIdentityClientWithConfigurationProvider w configProvider = inl client ->
  ListCompartments client
    {| LCReq_CompartmentId := Some tenancyOCID; LCReq_Page := None |} = inl response ->
  Forall (fun c => exists name, Compartment_Name c = Some name /\ name <> input)
         (LCResp_Items response) ->
  snd (resolveCompartmentID w input configProvider)
  = Fail (ErrCompartmentNotFound input).
Proof.
  intros Hocid Hten Hcli Hlist Habsent.
  rewrite (resolveCompartmentID_lookup w input configProvider tenancyOCID client)
    by assumption.
  rewrite Hlist. simpl. rewrite (findCompartment_absent _ _ Habsent). reflexivity.
Qed.

Lemma resolveCompartmentID_first (w : World) (input : string)
    (configProvider : ConfigurationProvider) tenancyOCID client response first :
  isCompartmentOCID input = false ->
  TenancyOCID w configProvider = inl tenancyOCID ->
  NewIdentityClientWithConfigurationProvider w configProvider = inl client ->
  ListCompartments client
    {| LCReq_CompartmentId := Some tenancyOCID; LCReq_Page := None |} = inl response ->
  Forall mandatoryPresent (LCResp_Items response) ->
  find (nameIs input) (LCResp_Items response) = Some first ->
  exists id, Compartment_Id first = Some id
             /\ snd (resolveCompartmentID w input configProvider) = Ret id.
Proof.
  intros Hocid Hten Hcli Hlist Hwf Hfind.
  destruct (findCompartment_first input _ first Hwf Hfind) as [id [Hid Hfc]].
  exists id. split; [assumption |].
  rewrite (resolveCompartmentID_lookup w input configProvider tenancyOCID client)
    by assumption.
  rewrite Hlist. simpl. rewrite Hfc. reflexivity.
Qed.

(** ** Image resolution *)

Lemma resolveImageNameToID_first_call imageName compartmentID tenancyOCID client :
  exists rest,
    fst (resolveImageNameToID imageName compartmentID tenancyOCID client)
    = ListImagesCall (imageQuery imageName compartmentID) :: rest.
Proof. unfold resolveImageNameToID, imageQuery. apply bind_call_first. Qed.

Lemma resolveImageNameToID_primary imageName compartmentID tenancyOCID client
    response first rest id :
  ListImages client (imageQuery imageName compartmentID) = inl response ->
  LIResp_Items response = first :: rest ->
  Image_Id first = Some id ->
  snd (resolveImageNameToID imageName compartmentID tenancyOCID client) = Ret id
  /\ calls (fst (resolveImageNameToID imageName compartmentID tenancyOCID client))
     = [ListImagesCall (imageQuery imageName compartmentID)].
Proof.
  unfold imageQuery. intros Hlist Hitems Hid.
  unfold resolveImageNameToID. rewrite Hlist. cbn [call wrapErr].
  rewrite bind_ret, Hitems. cbn [List.length Nat.eqb firstImageId].
  rewrite Hid. destruct rest; split; reflexivity.
Qed.

Lemma resolveImageNameToID_fallback imageName compartmentID tenancyOCID client
    response responseOracle first rest id :
  ListImages client (imageQuery imageName compartmentID) = inl response ->
  LIResp_Items response = [] ->
  ListImages client (imageQuery imageName tenancyOCID) = inl responseOracle ->
  LIResp_Items responseOracle = first :: rest ->
  Image_Id first = Some id ->
  snd (resolveImageNameToID imageName compartmentID tenancyOCID client) = Ret id
  /\ calls (fst (resolveImageNameToID imageName compartmentID tenancyOCID client))
     = [ListImagesCall (imageQuery imageName compartmentID);
        ListImagesCall (imageQuery imageName tenancyOCID)].
Proof.
  unfold imageQuery. intros Hlist Hitems Hlist2 Hitems2 Hid.
  unfold resolveImageNameToID. rewrite Hlist. cbn [call wrapErr].
  rewrite bind_ret, Hitems. cbn [List.length Nat.eqb LIReq_DisplayName].
  rewrite Hlist2. cbn [call wrapErr print bind fst snd app].
  rewrite Hitems2. cbn [List.length Nat.eqb firstImageId].
  rewrite Hid. destruct rest; split; reflexivity.
Qed.

Lemma resolveImageNameToID_both_empty imageName compartmentID tenancyOCID client
    response responseOracle :
  ListImages client (imageQuery imageName compartmentID) = inl response ->
  LIResp_Items response = [] ->
  ListImages client (imageQuery imageName tenancyOCID) = inl responseOracle ->
  LIResp_Items responseOracle = [] ->
  snd (resolveImageNameToID imageName compartmentID tenancyOCID client)
  = Fail (ErrImageNotFound imageName compartmentID tenancyOCID).
Proof.
  unfold imageQuery. intros Hlist Hitems Hlist2 Hitems2.
  unfold resolveImageNameToID. rewrite Hlist. cbn [call wrapErr].
  rewrite bind_ret, Hitems. cbn [List.length Nat.eqb LIReq_DisplayName].
  rewrite Hlist2. cbn [call wrapErr print bind fst snd app].
  rewrite Hitems2. reflexivity.
Qed.

Lemma resolveImageNameToID_not_found_only imageName compartmentID tenancyOCID client e :
  snd (resolveImageNameToID imageName compartmentID tenancyOCID client) = Fail e ->
  isNotFoundError e = true ->
  exists response responseOracle,
    ListImages client (imageQuery imageName compartmentID) = inl response
    /\ LIResp_Items response = []
    /\ ListImages client (imageQuery imageName tenancyOCID) = inl responseOracle
    /\ LIResp_Items responseOracle = [].
Proof.
  unfold imageQuery, resolveImageNameToID.
  destruct (ListImages client
              {| LIReq_CompartmentId := Some compartmentID;
                 LIReq_DisplayName := Some imageName |}) as [response | err] eqn:Hlist;
    cbn [call wrapErr].
  2:{ simpl. intros [= <-]. discriminate. }
  rewrite bind_ret.
  destruct (LIResp_Items response) as [| first rest] eqn:Hitems;
    cbn [List.length Nat.eqb LIReq_DisplayName].
  - destruct (ListImages client
                {| LIReq_CompartmentId := Some tenancyOCID;
                   LIReq_DisplayName := Some imageName |})
      as [responseOracle | err] eqn:Hlist2;
      cbn [call wrapErr print bind fst snd app].
    2:{ intros [= <-]. discriminate. }
    destruct (LIResp_Items responseOracle) as [| first rest] eqn:Hitems2.
    + intros _ _. exists response, responseOracle. repeat split; assumption.
    + cbn [List.length Nat.eqb firstImageId].
      destruct rest; destruct (Image_Id first); simpl; discriminate.
  - cbn [firstImageId]. destruct rest; destruct (Image_Id first); simpl; discriminate.
Qed.

(** ** Shape validation *)

Lemma existsb_shapeIs (shapeName : string) (items : list Shape) :
  existsb (shapeIs shapeName) items = true
  <-> In (Some shapeName) (map Shape_Shape items).
Proof.
  induction items as [| shape rest IH]; simpl.
  - split; [discriminate | contradiction].
  - rewrite orb_true_iff, IH. unfold shapeIs.
    destruct (Shape_Shape shape) as [name |].
    + rewrite String.eqb_eq. split; (intros [H | H]; [left; congruence | right; exact H]).
    + split; (intros [H | H]; [discriminate | right; exact H]).
Qed.

(** C5, as amended: shape validation only checks existence, and it checks
    it in the first page of the listing.  Its only request is the listing of
    the shapes compatible with the image in the compartment, without a page
    token.  When that request succeeds, a shape name among the items of the
    answer is returned as it was given, and a shape name that is not among
    them gives the not-found error, whether or not the answer carries a
    continuation token: the token is never read. *)
Theorem resolveShapeNameToID_existence_only :
  forall (shapeName compartmentID imageID : string) (client : ComputeClient)
         (response : ListShapesResponse),
    ListShapes client {| LSReq_CompartmentId := Some compartmentID;
                         LSReq_ImageId := Some imageID;
                         LSReq_Page := None |} = inl response ->
    (In (Some shapeName) (map Shape_Shape (LSResp_Items response)) ->
     resolveShapeNameToID shapeName compartmentID imageID client
     = ([ListShapesCall {| LSReq_CompartmentId := Some compartmentID;
                           LSReq_ImageId := Some imageID;
                           LSReq_Page := None |}],
        Ret shapeName))
    /\ (~ In (Some shapeName) (map Shape_Shape (LSResp_Items response)) ->
        resolveShapeNameToID shapeName compartmentID imageID client
        = ([ListShapesCall {| LSReq_CompartmentId := Some compartmentID;
                              LSReq_ImageId := Some imageID;
                              LSReq_Page := None |}],
           Fail (ErrShapeNotFound shapeName imageID compartmentID))
        /\ isNotFoundError (ErrShapeNotFound shapeName imageID compartmentID) = true).
Proof.
  intros shapeName compartmentID imageID client response Hlist.
  unfold resolveShapeNameToID. rewrite Hlist. cbn [call wrapErr].
  rewrite bind_ret.
  destruct (existsb (shapeIs shapeName) (LSResp_Items response)) eqn:Hex; split.
  - intros _. reflexivity.
  - intros Habsent. apply existsb_shapeIs in Hex. contradiction.
  - intros Hin. apply existsb_shapeIs in Hin. congruence.
  - intros _. split; reflexivity.
Qed.

Lemma resolveShapeNameToID_existence_only_witness :
  resolveShapeNameToID "VM.Standard.A1.Flex" sample.prodId sample.ubuntuId
    sample.computeClient
  = ([ListShapesCall {| LSReq_CompartmentId := Some sample.prodId;
                        LSReq_ImageId := Some sample.ubuntuId;
                        LSReq_Page := None |}],
     Ret "VM.Standard.A1.Flex")
  /\ resolveShapeNameToID "VM.GPU.A10.1" sample.prodId sample.ubuntuId
       sample.computeClient
     = ([ListShapesCall {| LSReq_CompartmentId := Some sample.prodId;
                           LSReq_ImageId := Some sample.ubuntuId;
                           LSReq_Page := None |}],
        Fail (ErrShapeNotFound "VM.GPU.A10.1" sample.ubuntuId sample.prodId)).
Proof.
  split.
  - apply (resolveShapeNameToID_existence_only "VM.Standard.A1.Flex"
             sample.prodId sample.ubuntuId sample.computeClient _ eq_refl).
    simpl. right. right. left. reflexivity.
  - apply (resolveShapeNameToID_existence_only "VM.GPU.A10.1"
             sample.prodId sample.ubuntuId sample.computeClient _ eq_refl).
    simpl. intros [H | [H | [H | H]]]; try discriminate H. exact H.
Defined.

(** C5, as stated, fails when the list of compatible shapes comes on more
    than one page.  The service lists [VM.Standard.A1.Flex] on the second
    page, which the first answer announces with its continuation token;
    shape validation sends the request for the first page only and reports
    that the shape was not found. *)
Lemma resolveShapeNameToID_later_page_counterexample :
  ListShapes sample.pagedShapesClient
    {| LSReq_CompartmentId := Some sample.prodId;
       LSReq_ImageId := Some sample.ubuntuId;
       LSReq_Page := None |}
  = inl {| LSResp_Items := [ {| Shape_Shape := Some "VM.Standard.E2.1.Micro" |} ];
           LSResp_OpcNextPage := Some "page-2" |}
  /\ ListShapes sample.pagedShapesClient
       {| LSReq_CompartmentId := Some sample.prodId;
          LSReq_ImageId := Some sample.ubuntuId;
          LSReq_Page := Some "page-2" |}
     = inl {| LSResp_Items := [ {| Shape_Shape := Some "VM.Standard.A1.Flex" |} ];
              LSResp_OpcNextPage := None |}
  /\ resolveShapeNameToID "VM.Standard.A1.Flex" sample.prodId sample.ubuntuId
       sample.pagedShapesClient
     = ([ListShapesCall {| LSReq_CompartmentId := Some sample.prodId;
                           LSReq_ImageId := Some sample.ubuntuId;
                           LSReq_Page := None |}],
        Fail (ErrShapeNotFound "VM.Standard.A1.Flex" sample.ubuntuId sample.prodId)).
Proof. repeat split. Qed.

(** ** Literal identifiers *)

(** C1, as amended: an input that starts with [ocid1.compartment.oc1.] or
    [ocid1.tenancy.oc1.] is returned unchanged by compartment resolution,
    which then sends no request.  Image resolution has no such case: whatever
    the input, it starts by sending the listing request filtered by that
    input as a display name. *)
Theorem resolve_literal_identifier :
  forall input : string,
    (strings.HasPrefix input "ocid1.compartment.oc1." = true
     \/ strings.HasPrefix input "ocid1.tenancy.oc1." = true ->
     forall (w : World) (configProvider : ConfigurationProvider),
       resolveCompartmentID w input configProvider = ([], Ret input))
    /\ (forall (compartmentID tenancyOCID : string) (client : ComputeClient),
          exists rest,
            fst (resolveImageNameToID input compartmentID tenancyOCID client)
            = ListImagesCall (imageQuery input compartmentID) :: rest).
Proof.
  intros input. split.
  - intros Hocid w configProvider. apply isCompartmentOCID_spec in Hocid.
    apply resolveCompartmentID_literal. exact Hocid.
  - intros. apply resolveImageNameToID_first_call.
Qed.

Lemma resolve_literal_identifier_witness :
  strings.HasPrefix sample.prodId "ocid1.compartment.oc1." = true
  /\ resolveCompartmentID sample.world sample.prodId DefaultConfigProvider
     = ([], Ret sample.prodId).
Proof.
  split; [reflexivity |].
  apply (proj1 (resolve_literal_identifier sample.prodId) (or_introl eq_refl)).
Defined.

(** C1, as stated, fails for images: given the identifier of an image that
    exists, image resolution sends two listing requests and reports that no
    image was found. *)
Lemma resolveImageNameToID_literal_counterexample :
  calls (fst (resolveImageNameToID sample.ubuntuId sample.prodId sample.tenancy
                sample.computeClient))
  = [ListImagesCall (imageQuery sample.ubuntuId sample.prodId);
     ListImagesCall (imageQuery sample.ubuntuId sample.tenancy)]
  /\ snd (resolveImageNameToID sample.ubuntuId sample.prodId sample.tenancy
            sample.computeClient)
     = Fail (ErrImageNotFound sample.ubuntuId sample.prodId sample.tenancy)
  /\ strings.HasPrefix sample.ubuntuId "ocid1.image.oc1." = true.
Proof. repeat split. Qed.

(** ** Prefix test of compartment resolution *)

(** C10: compartment resolution answers at once, with the input and without a
    request, exactly when the input starts with [ocid1.compartment.oc1.] or
    [ocid1.tenancy.oc1.].  Any other input is looked up by name: with the
    tenancy and the identity client at hand, the single request is the
    listing of the tenancy's compartments, and when no listed compartment has
    that name the result is the not-found error. *)
Theorem resolveCompartmentID_prefix_specific :
  forall (w : World) (input : string) (configProvider : ConfigurationProvider),
    (resolveCompartmentID w input configProvider = ([], Ret input)
     <-> strings.HasPrefix input "ocid1.compartment.oc1." = true
         \/ strings.HasPrefix input "ocid1.tenancy.oc1." = true)
    /\ (forall (tenancyOCID : string) (client : IdentityClient),
          strings.HasPrefix input "ocid1.compartment.oc1." = false ->
          strings.HasPrefix input "ocid1.tenancy.oc1." = false ->
          TenancyOCID w configProvider = inl tenancyOCID ->
          NewIdentityClientWithConfigurationProvider w configProvider = inl client ->
          fst (resolveCompartmentID w input configProvider)
          = [ListCompartmentsCall {| LCReq_CompartmentId := Some tenancyOCID;
                                     LCReq_Page := None |}]
          /\ (forall response : ListCompartmentsResponse,
                ListCompartments client {| LCReq_CompartmentId := Some tenancyOCID;
                                           LCReq_Page := None |} = inl response ->
                Forall (fun c => exists name,
                            Compartment_Name c = Some name /\ name <> input)
                       (LCResp_Items response) ->
                snd (resolveCompartmentID w input configProvider)
                = Fail (ErrCompartmentNotFound input)
                /\ isNotFoundError (ErrCompartmentNotFound input) = true)).
Proof.
  intros w input configProvider. split.
  - rewrite <- isCompartmentOCID_spec. split.
    + intros Heq. destruct (isCompartmentOCID input) eqn:Hocid; [reflexivity |].
      exfalso. exact (resolveCompartmentID_not_silent w input configProvider Hocid Heq).
    + apply resolveCompartmentID_literal.
  - intros tenancyOCID client Hp1 Hp2 Hten Hcli.
    assert (Hocid : isCompartmentOCID input = false)
      by (unfold isCompartmentOCID; rewrite Hp1, Hp2; reflexivity).
    split.
    + apply (resolveCompartmentID_lookup_trace w input configProvider tenancyOCID client);
        assumption.
    + intros response Hlist Habsent. split; [| reflexivity].
      apply (resolveCompartmentID_absent w input configProvider tenancyOCID client response);
        assumption.
Qed.

Lemma resolveCompartmentID_prefix_specific_witness :
  strings.HasPrefix "ocid1.compartment.oc2.x" "ocid1.compartment.oc1." = false
  /\ fst (resolveCompartmentID sample.world "ocid1.compartment.oc2.x"
            DefaultConfigProvider)
     = [ListCompartmentsCall {| LCReq_CompartmentId := Some sample.tenancy;
                                LCReq_Page := None |}]
  /\ snd (resolveCompartmentID sample.world "ocid1.compartment.oc2.x"
            DefaultConfigProvider)
     = Fail (ErrCompartmentNotFound "ocid1.compartment.oc2.x").
Proof.
  split; [reflexivity |].
  destruct (proj2 (resolveCompartmentID_prefix_specific sample.world
                     "ocid1.compartment.oc2.x" DefaultConfigProvider)
              sample.tenancy sample.identityClient eq_refl eq_refl eq_refl eq_refl)
    as [Htrace Hfail].
  split; [exact Htrace |].
  apply (Hfail _ eq_refl).
  repeat constructor. exists "prod". split; [reflexivity | discriminate].
Defined.

(** ** Several matches *)

(** C3: with two or more matches the resolvers do not fail and return the
    identifier of the first one in response order.  For compartments the
    matches are the listed items whose name is the input, and the first is the
    one [find] meets; for images the matches are the items of the
    name-filtered listing, of the compartment or, when that one is empty, of
    the tenancy, and the first is the head of the list. *)
Theorem resolve_multiple_matches_first :
  (forall (w : World) (input : string) (configProvider : ConfigurationProvider)
          (tenancyOCID : string) (client : IdentityClient)
          (response : ListCompartmentsResponse),
      isCompartmentOCID input = false ->
      TenancyOCID w configProvider = inl tenancyOCID ->
      NewIdentityClientWithConfigurationProvider w configProvider = inl client ->
      ListCompartments client {| LCReq_CompartmentId := Some tenancyOCID;
                                 LCReq_Page := None |} = inl response ->
      Forall mandatoryPresent (LCResp_Items response) ->
      2 <= List.length (filter (nameIs input) (LCResp_Items response)) ->
      exists first id,
        find (nameIs input) (LCResp_Items response) = Some first
        /\ Compartment_Id first = Some id
        /\ snd (resolveCompartmentID w input configProvider) = Ret id)
  /\ (forall (imageName compartmentID tenancyOCID : string) (client : ComputeClient)
             (response : ListImagesResponse),
        ListImages client (imageQuery imageName compartmentID) = inl response ->
        Forall (fun image => Image_Id image <> None) (LIResp_Items response) ->
        2 <= List.length (LIResp_Items response) ->
        exists first rest id,
          LIResp_Items response = first :: rest
          /\ Image_Id first = Some id
          /\ snd (resolveImageNameToID imageName compartmentID tenancyOCID client)
             = Ret id)
  /\ (forall (imageName compartmentID tenancyOCID : string) (client : ComputeClient)
             (response responseOracle : ListImagesResponse),
        ListImages client (imageQuery imageName compartmentID) = inl response ->
        LIResp_Items response = [] ->
        ListImages client (imageQuery imageName tenancyOCID) = inl responseOracle ->
        Forall (fun image => Image_Id image <> None) (LIResp_Items responseOracle) ->
        2 <= List.length (LIResp_Items responseOracle) ->
        exists first rest id,
          LIResp_Items responseOracle = first :: rest
          /\ Image_Id first = Some id
          /\ snd (resolveImageNameToID imageName compartmentID tenancyOCID client)
             = Ret id).
Proof.
  split; [| split].
  - intros w input configProvider tenancyOCID client response
           Hocid Hten Hcli Hlist Hwf Hmany.
    destruct (find_of_matches (nameIs input) (LCResp_Items response)) as [first Hfind];
      [lia |].
    destruct (resolveCompartmentID_first w input configProvider tenancyOCID client
                response first Hocid Hten Hcli Hlist Hwf Hfind) as [id [Hid Hres]].
    exists first, id. auto.
  - intros imageName compartmentID tenancyOCID client response Hlist Hwf Hmany.
    destruct (LIResp_Items response) as [| first rest] eqn:Hitems; [simpl in Hmany; lia |].
    inversion Hwf as [| ? ? Hfirst _]; subst.
    destruct (Image_Id first) as [id |] eqn:Hid; [| congruence].
    exists first, rest, id. split; [reflexivity | split; [exact Hid |]].
    apply (resolveImageNameToID_primary imageName compartmentID tenancyOCID client
             response first rest id Hlist Hitems Hid).
  - intros imageName compartmentID tenancyOCID client response responseOracle
           Hlist Hitems Hlist2 Hwf Hmany.
    destruct (LIResp_Items responseOracle) as [| first rest] eqn:Hitems2;
      [simpl in Hmany; lia |].
    inversion Hwf as [| ? ? Hfirst _]; subst.
    destruct (Image_Id first) as [id |] eqn:Hid; [| congruence].
    exists first, rest, id. split; [reflexivity | split; [exact Hid |]].
    apply (resolveImageNameToID_fallback imageName compartmentID tenancyOCID client
             response responseOracle first rest id Hlist Hitems Hlist2 Hitems2 Hid).
Qed.

Lemma forest_mandatoryPresent (ts : list ctree) :
  Forall mandatoryPresent (map compartmentOf ts).
Proof.
  induction ts as [| [id name description children] rest IH]; constructor;
    [split; discriminate | exact IH].
Qed.

Lemma resolve_multiple_matches_first_witness :
  2 <= List.length (filter (nameIs "dev") (map compartmentOf sample.forest))
  /\ (exists first id,
        find (nameIs "dev") (map compartmentOf sample.forest) = Some first
        /\ Compartment_Id first = Some id
        /\ snd (resolveCompartmentID sample.onePageWorld "dev" DefaultConfigProvider)
           = Ret id)
  /\ (exists first rest id,
        [ {| Image_Id := Some sample.customId; Image_DisplayName := Some "golden" |};
          {| Image_Id := Some sample.ubuntuId; Image_DisplayName := Some "golden" |} ]
        = first :: rest
        /\ Image_Id first = Some id
        /\ snd (resolveImageNameToID "golden" sample.prodId sample.tenancy
                  sample.computeClient) = Ret id).
Proof.
  split; [simpl; lia |]. split.
  - apply (proj1 resolve_multiple_matches_first sample.onePageWorld "dev"
             DefaultConfigProvider sample.tenancy sample.onePageClient
             {| LCResp_Items := map compartmentOf sample.forest;
                LCResp_OpcNextPage := None |} eq_refl eq_refl eq_refl eq_refl).
    + apply forest_mandatoryPresent.
    + simpl. lia.
  - apply (proj1 (proj2 resolve_multiple_matches_first) "golden" sample.prodId
             sample.tenancy sample.computeClient _ eq_refl).
    + repeat constructor; discriminate.
    + simpl. lia.
Defined.

(** ** Image fallback *)

(** C4: when the name-filtered listing of the compartment is empty and that
    of the tenancy is not, image resolution returns the identifier of the
    first item of the tenancy's listing; and it ends with a not-found error
    only when both listings succeeded and were empty, in which case it does. *)
Theorem resolveImageNameToID_fallback_then_not_found :
  forall (imageName compartmentID tenancyOCID : string) (client : ComputeClient),
    (forall (response responseOracle : ListImagesResponse) (first : Image)
            (rest : list Image) (id : string),
        ListImages client (imageQuery imageName compartmentID) = inl response ->
        LIResp_Items response = [] ->
        ListImages client (imageQuery imageName tenancyOCID) = inl responseOracle ->
        LIResp_Items responseOracle = first :: rest ->
        Image_Id first = Some id ->
        snd (resolveImageNameToID imageName compartmentID tenancyOCID client) = Ret id)
    /\ ((exists e,
           snd (resolveImageNameToID imageName compartmentID tenancyOCID client) = Fail e
           /\ isNotFoundError e = true)
        <-> (exists response responseOracle,
               ListImages client (imageQuery imageName compartmentID) = inl response
               /\ LIResp_Items response = []
               /\ ListImages client (imageQuery imageName tenancyOCID) = inl responseOracle
               /\ LIResp_Items responseOracle = [])).
Proof.
  intros imageName compartmentID tenancyOCID client. split.
  - intros response responseOracle first rest id H1 H2 H3 H4 H5.
    apply (resolveImageNameToID_fallback imageName compartmentID tenancyOCID client
             response responseOracle first rest id H1 H2 H3 H4 H5).
  - split.
    + intros [e [Hfail Hnf]].
      exact (resolveImageNameToID_not_found_only _ _ _ _ e Hfail Hnf).
    + intros [response [responseOracle [H1 [H2 [H3 H4]]]]].
      exists (ErrImageNotFound imageName compartmentID tenancyOCID).
      split; [| reflexivity].
      exact (resolveImageNameToID_both_empty _ _ _ _ response responseOracle H1 H2 H3 H4).
Qed.

Lemma resolveImageNameToID_fallback_then_not_found_witness :
  snd (resolveImageNameToID sample.ubuntu sample.prodId sample.tenancy
         sample.computeClient) = Ret sample.ubuntuId
  /\ exists e,
       snd (resolveImageNameToID "no such image" sample.prodId sample.tenancy
              sample.computeClient) = Fail e
       /\ isNotFoundError e = true.
Proof.
  split.
  - apply (proj1 (resolveImageNameToID_fallback_then_not_found sample.ubuntu
                    sample.prodId sample.tenancy sample.computeClient)
             {| LIResp_Items := []; LIResp_OpcNextPage := None |} _ _ _ sample.ubuntuId
             eq_refl eq_refl eq_refl eq_refl eq_refl).
  - apply (proj2 (resolveImageNameToID_fallback_then_not_found "no such image"
                    sample.prodId sample.tenancy sample.computeClient)).
    exists {| LIResp_Items := []; LIResp_OpcNextPage := None |},
           {| LIResp_Items := []; LIResp_OpcNextPage := None |}.
    repeat split.
Defined.

(** ** The compartment walk: order of the visits *)

Lemma printed_app (t1 t2 : list event) : printed (t1 ++ t2) = printed t1 ++ printed t2.
Proof. unfold printed. apply flat_map_app. Qed.

Lemma preorder_length : forall (t : ctree) (depth : nat),
  List.length (preorder depth t) = nodes t.
Proof.
  fix IH 1. intros [id name description children] depth. simpl. f_equal.
  induction children as [| child rest IHrest]; simpl; [reflexivity |].
  rewrite length_app, IH, IHrest. reflexivity.
Qed.

Lemma forest_preorder_length (ts : list ctree) (depth : nat) :
  List.length (flat_map (preorder depth) ts) = list_sum (map nodes ts).
Proof.
  induction ts as [| t rest IH]; simpl; [reflexivity |].
  rewrite length_app, preorder_length, IH. reflexivity.
Qed.

Lemma walksForest_bind (m : M error unit) (k : unit -> M error unit)
    (depth : nat) (ts rest : list ctree) :
  walksForest m depth ts ->
  walksForest (k tt) depth rest ->
  walksForest (bind m k) depth (ts ++ rest).
Proof.
  destruct m as [t r]. intros [Hr Hp] [Hr' Hp']. simpl in Hr, Hp. subst r.
  rewrite bind_ret. unfold walksForest. simpl.
  rewrite printed_app, flat_map_app, Hp, Hp'. split; [exact Hr' | reflexivity].
Qed.

Lemma walksForest_visit (recurse : ListCompartmentsRequest -> nat -> M error unit)
    (depth : nat) (t : ctree) :
  walksForest (recurse {| LCReq_CompartmentId := Some (ctree_id t); LCReq_Page := None |}
                       (depth + 1))
              (depth + 1) (ctree_children t) ->
  walksForest (visitCompartment recurse depth (compartmentOf t)) depth [t].
Proof.
  destruct t as [id name description children]. intros [Hr Hp].
  unfold visitCompartment, walksForest.
  cbn [compartmentOf Compartment_Id Compartment_Name Compartment_Description
       deref ctree_id ctree_children] in *.
  rewrite !bind_ret_l. unfold print. rewrite bind_ret.
  cbn [fst snd]. rewrite printed_app, Hp. cbn [flat_map]. rewrite app_nil_r.
  split; [exact Hr | reflexivity].
Qed.

Lemma walksForest_loop (recurse : ListCompartmentsRequest -> nat -> M error unit)
    (depth : nat) (ts : list ctree) :
  (forall t, In t ts ->
     walksForest (recurse {| LCReq_CompartmentId := Some (ctree_id t);
                             LCReq_Page := None |} (depth + 1))
                 (depth + 1) (ctree_children t)) ->
  walksForest (forRange (map compartmentOf ts) (visitCompartment recurse depth))
              depth ts.
Proof.
  induction ts as [| t rest IH]; intros Hsub.
  - split; reflexivity.
  - change (t :: rest) with ([t] ++ rest) at 2. simpl map. simpl forRange.
    apply walksForest_bind.
    + apply walksForest_visit. apply Hsub. left. reflexivity.
    + apply IH. intros t' Hin. apply Hsub. right. exact Hin.
Qed.

(** One bound on the fuel for all the trees of a list. *)
Lemma uniform_fuel (P : ctree -> nat -> Prop) (ts : list ctree) :
  (forall t, In t ts -> exists n, forall fuel, n <= fuel -> P t fuel) ->
  exists n, forall t, In t ts -> forall fuel, n <= fuel -> P t fuel.
Proof.
  induction ts as [| t rest IH]; intros H.
  - exists 0. intros t [].
  - destruct (H t (or_introl eq_refl)) as [n1 H1].
    destruct IH as [n2 H2]; [intros t' Hin; apply H; right; exact Hin |].
    exists (Nat.max n1 n2). intros t' [<- | Hin] fuel Hfuel.
    + apply H1. lia.
    + apply (H2 t' Hin). lia.
Qed.

Lemma walksForest_call (client : IdentityClient) (request : ListCompartmentsRequest)
    (response : ListCompartmentsResponse)
    (k : ListCompartmentsResponse -> M error unit) (depth : nat) (ts : list ctree) :
  ListCompartments client request = inl response ->
  walksForest (k response) depth ts ->
  walksForest (bind (call (ListCompartmentsCall request)
                          (ListCompartments client request)) k) depth ts.
Proof.
  intros Hlist [Hr Hp]. rewrite Hlist. cbn [call]. rewrite bind_ret.
  split; [exact Hr |]. cbn [fst]. rewrite printed_app. exact Hp.
Qed.

Lemma listCompartmentsRecursive_serves (client : IdentityClient)
    (scope page : option string) (ts : list ctree) :
  serves client scope page ts ->
  exists n, forall fuel, n <= fuel -> forall depth,
    walksForest (listCompartmentsRecursive fuel client
                   {| LCReq_CompartmentId := scope; LCReq_Page := page |} depth)
                depth ts.
Proof.
  induction 1 as [scope page ts Hlist _ IHsub
                 | scope page token ts rest Hlist _ IHsub _ IHrest].
  - destruct (uniform_fuel _ ts IHsub) as [n Hn].
    exists (S n). intros [| fuel] Hfuel depth; [lia |].
    cbn [listCompartmentsRecursive].
    apply (walksForest_call _ _ _ _ _ _ Hlist).
    cbn [LCResp_Items LCResp_OpcNextPage].
    rewrite <- (app_nil_r ts) at 2.
    apply walksForest_bind; [| split; reflexivity].
    apply walksForest_loop. intros t Hin. apply (Hn t Hin). lia.
  - destruct (uniform_fuel _ ts IHsub) as [n1 Hn1].
    destruct IHrest as [n2 Hn2].
    exists (S (Nat.max n1 n2)). intros [| fuel] Hfuel depth; [lia |].
    cbn [listCompartmentsRecursive].
    apply (walksForest_call _ _ _ _ _ _ Hlist).
    cbn [LCResp_Items LCResp_OpcNextPage LCReq_CompartmentId].
    apply walksForest_bind.
    + apply walksForest_loop. intros t Hin. apply (Hn1 t Hin). lia.
    + apply Hn2. lia.
Qed.

(** C7: when the listing service serves a forest of compartments under a
    scope, however each scope's children are cut into pages, the walk with
    enough fuel ends normally and prints one line for every compartment of
    the forest, in depth-first pre-order, the children of a scope being the
    items of all its pages in the order served; so the number of lines is the
    number of compartments. *)
Theorem listCompartmentsRecursive_visits_preorder :
  forall (client : IdentityClient) (scope page : option string) (ts : list ctree),
    serves client scope page ts ->
    exists n, forall fuel, n <= fuel -> forall depth,
      snd (listCompartmentsRecursive fuel client
             {| LCReq_CompartmentId := scope; LCReq_Page := page |} depth) = Ret tt
      /\ printed (fst (listCompartmentsRecursive fuel client
                         {| LCReq_CompartmentId := scope; LCReq_Page := page |} depth))
         = flat_map (preorder depth) ts
      /\ List.length
           (printed (fst (listCompartmentsRecursive fuel client
                            {| LCReq_CompartmentId := scope; LCReq_Page := page |}
                            depth)))
         = list_sum (map nodes ts).
Proof.
  intros client scope page ts Hserves.
  destruct (listCompartmentsRecursive_serves client scope page ts Hserves) as [n Hn].
  exists n. intros fuel Hfuel depth. destruct (Hn fuel Hfuel depth) as [Hr Hp].
  split; [exact Hr |]. split; [exact Hp |].
  rewrite Hp. apply forest_preorder_length.
Qed.

Lemma sample_serves :
  serves sample.identityClient (Some sample.tenancy) None sample.forest.
Proof.
  apply (serves_more sample.identityClient (Some sample.tenancy) None "page-2"
           [sample.prod] [sample.dev; sample.dev2]).
  - reflexivity.
  - intros t [<- | []].
    apply (serves_last _ _ _ [sample.db]); [reflexivity |].
    intros t [<- | []].
    apply (serves_last _ _ _ []); [reflexivity |]. intros t [].
  - apply (serves_last _ _ _ [sample.dev; sample.dev2]); [reflexivity |].
    intros t [<- | [<- | []]];
      (apply (serves_last _ _ _ []); [reflexivity | intros t' []]).
Qed.

Lemma listCompartmentsRecursive_visits_preorder_witness :
  serves sample.identityClient (Some sample.tenancy) None sample.forest
  /\ exists n, forall fuel, n <= fuel -> forall depth,
       snd (listCompartmentsRecursive fuel sample.identityClient
              {| LCReq_CompartmentId := Some sample.tenancy; LCReq_Page := None |}
              depth) = Ret tt
       /\ printed (fst (listCompartmentsRecursive fuel sample.identityClient
                          {| LCReq_CompartmentId := Some sample.tenancy;
                             LCReq_Page := None |} depth))
          = flat_map (preorder depth) sample.forest
       /\ List.length
            (printed (fst (listCompartmentsRecursive fuel sample.identityClient
                             {| LCReq_CompartmentId := Some sample.tenancy;
                                LCReq_Page := None |} depth)))
          = 4.
Proof.
  split; [exact sample_serves |].
  exact (listCompartmentsRecursive_visits_preorder sample.identityClient
           (Some sample.tenancy) None sample.forest sample_serves).
Defined.

(** ** The compartment walk: a refused request ends it *)

Lemma abortsAtFailure_silent {A} (client : IdentityClient) (r : outcome error A) :
  abortsAtFailure client ([], r).
Proof. intros [| ev pre] request post err H; discriminate H. Qed.

Lemma abortsAtFailure_print (client : IdentityClient) (text : string) :
  abortsAtFailure client (@print error text).
Proof.
  intros [| ev [| ev' pre]] request post err H; discriminate H.
Qed.

Lemma abortsAtFailure_call (client : IdentityClient) (request : ListCompartmentsRequest) :
  abortsAtFailure client
    (call (ListCompartmentsCall request) (ListCompartments client request)).
Proof.
  intros pre request' post err Htrace Hrefused.
  assert (Hone : [ListCompartmentsCall request]
                 = pre ++ ListCompartmentsCall request' :: post)
    by (destruct (ListCompartments client request); exact Htrace).
  destruct pre as [| ev [| ev' pre]]; try discriminate Hone.
  injection Hone as -> <-. rewrite Hrefused. split; reflexivity.
Qed.

Lemma abortsAtFailure_bind {A B} (client : IdentityClient) (m : M error A)
    (k : A -> M error B) :
  abortsAtFailure client m ->
  (forall a, abortsAtFailure client (k a)) ->
  abortsAtFailure client (bind m k).
Proof.
  intros Hm Hk. destruct m as [t [a | e | |]].
  2-4: intros pre request post err Htrace Hrefused;
       destruct (Hm pre request post err Htrace Hrefused) as [Hpost Hfail];
       cbn [bind snd] in *; split; [exact Hpost | congruence].
  rewrite bind_ret. intros pre request post err Htrace Hrefused.
  cbn [fst snd] in *.
  apply app_eq_app in Htrace. destruct Htrace as [l [[H1 H2] | [H1 H2]]].
  - destruct l as [| ev l].
    + simpl in H2. apply (Hk a [] request post err); [symmetry; exact H2 | exact Hrefused].
    + injection H2 as <- ->.
      destruct (Hm pre request l err H1 Hrefused) as [_ Hfail]. discriminate Hfail.
  - apply (Hk a l request post err); assumption.
Qed.

Lemma abortsAtFailure_forRange {A} (client : IdentityClient) (items : list A)
    (body : A -> M error unit) :
  (forall x, abortsAtFailure client (body x)) ->
  abortsAtFailure client (forRange items body).
Proof.
  intros Hbody. induction items as [| x rest IH]; simpl.
  - apply abortsAtFailure_silent.
  - apply abortsAtFailure_bind; [apply Hbody | intros _; exact IH].
Qed.

Lemma abortsAtFailure_visit (client : IdentityClient)
    (recurse : ListCompartmentsRequest -> nat -> M error unit)
    (depth : nat) (compartment : Compartment) :
  (forall request d, abortsAtFailure client (recurse request d)) ->
  abortsAtFailure client (visitCompartment recurse depth compartment).
Proof.
  intros Hrec. unfold visitCompartment.
  destruct (Compartment_Id compartment) as [id |];
    [| apply abortsAtFailure_silent].
  destruct (Compartment_Name compartment) as [name |];
    [| apply abortsAtFailure_silent].
  destruct (Compartment_Description compartment) as [description |];
    [| apply abortsAtFailure_silent].
  cbn [deref]. rewrite !bind_ret_l.
  apply abortsAtFailure_bind; [apply abortsAtFailure_print | intros _; apply Hrec].
Qed.

Lemma listCompartmentsRecursive_abortsAtFailure (fuel : nat) (client : IdentityClient) :
  forall request depth,
    abortsAtFailure client (listCompartmentsRecursive fuel client request depth).
Proof.
  induction fuel as [| fuel IH]; intros request depth.
  - apply abortsAtFailure_silent.
  - cbn [listCompartmentsRecursive].
    apply abortsAtFailure_bind; [apply abortsAtFailure_call |].
    intros response. apply abortsAtFailure_bind.
    + apply abortsAtFailure_forRange. intros compartment.
      apply abortsAtFailure_visit. exact IH.
    + intros _. destruct (LCResp_OpcNextPage response);
        [apply IH | apply abortsAtFailure_silent].
Qed.

(** C8: a refused listing request ends the walk.  Wherever the trace of a
    walk holds a request that the service refuses, nothing comes after it,
    neither a request nor a printed compartment, and the walk returns the
    error of that request. *)
Theorem listCompartmentsRecursive_aborts_on_error :
  forall (fuel : nat) (client : IdentityClient) (request : ListCompartmentsRequest)
         (depth : nat) (pre : list event) (refused : ListCompartmentsRequest)
         (post : list event) (err : error),
    fst (listCompartmentsRecursive fuel client request depth)
    = pre ++ ListCompartmentsCall refused :: post ->
    ListCompartments client refused = inr err ->
    post = []
    /\ snd (listCompartmentsRecursive fuel client request depth) = Fail err.
Proof.
  intros fuel client request depth pre refused post err.
  apply listCompartmentsRecursive_abortsAtFailure.
Qed.

Lemma listCompartmentsRecursive_aborts_on_error_witness :
  ListCompartments sample.refusingClient
    {| LCReq_CompartmentId := Some sample.dbId; LCReq_Page := None |}
  = inr (ServiceError "NotAuthorizedOrNotFound")
  /\ printed (fst (listCompartmentsRecursive 5 sample.refusingClient
                     {| LCReq_CompartmentId := Some sample.tenancy; LCReq_Page := None |}
                     0))
     = preorder 0 sample.prod
  /\ snd (listCompartmentsRecursive 5 sample.refusingClient
            {| LCReq_CompartmentId := Some sample.tenancy; LCReq_Page := None |} 0)
     = Fail (ServiceError "NotAuthorizedOrNotFound").
Proof.
  split; [reflexivity |]. split; [reflexivity |].
  apply (listCompartmentsRecursive_aborts_on_error 5 sample.refusingClient
           {| LCReq_CompartmentId := Some sample.tenancy; LCReq_Page := None |} 0
           [ ListCompartmentsCall
               {| LCReq_CompartmentId := Some sample.tenancy; LCReq_Page := None |};
             Stdout (compartmentLine 0 sample.prodId "prod" "production");
             ListCompartmentsCall
               {| LCReq_CompartmentId := Some sample.prodId; LCReq_Page := None |};
             Stdout (compartmentLine 1 sample.dbId "db" "databases") ]
           {| LCReq_CompartmentId := Some sample.dbId; LCReq_Page := None |}
           [] (ServiceError "NotAuthorizedOrNotFound") eq_refl eq_refl).
Defined.

(** ** [instances create]: the SSH keys *)

Lemma sshKeysLoop_no_key (rest : list string) (i n : nat) (acc : string) :
  Forall (fun key => strings.TrimSpace key = EmptyString) rest ->
  sshKeysLoop rest i n acc = acc.
Proof.
  intros H. revert i acc.
  induction H as [| key rest Hkey _ IH]; intros i acc; simpl; [reflexivity |].
  rewrite Hkey. simpl. apply IH.
Qed.

Lemma sshKeysString_no_key (publicKeys : string) :
  noValidKey publicKeys -> sshKeysString publicKeys = EmptyString.
Proof. intros H. unfold sshKeysString. apply sshKeysLoop_no_key. exact H. Qed.

(** ** [instances create]: what is sent *)

Lemma wrapErr_fst {E E' A} (wrap : E -> E') (m : M E A) : fst (wrapErr wrap m) = fst m.
Proof. destruct m as [t [a | e | |]]; reflexivity. Qed.

Lemma wrapErr_fail {E E' A} (wrap : E -> E') (m : M E A) (x : E') :
  snd (wrapErr wrap m) = Fail x -> exists e, x = wrap e.
Proof.
  destruct m as [t [a' | e | |]]; simpl; try discriminate.
  intros [= <-]. exists e. reflexivity.
Qed.

Lemma plain_wrapErr {E E' A} (wrap : E -> E') (m : M E A) :
  plain m -> plain (wrapErr wrap m).
Proof.
  destruct m as [t [a | e | |]]; intros [H1 H2]; (split; [exact H1 |]);
    try discriminate.
  exfalso. apply H2. reflexivity.
Qed.

Lemma plain_bind {E A B} (m : M E A) (k : A -> M E B) :
  plain m -> (forall a, plain (k a)) -> plain (bind m k).
Proof.
  destruct m as [t [a | e | |]]; intros [Hm1 Hm2] Hk;
    try (split; [exact Hm1 | discriminate]).
  - rewrite bind_ret. destruct (Hk a) as [Hk1 Hk2].
    split; [apply Forall_app; split; assumption | exact Hk2].
  - exfalso. apply Hm2. reflexivity.
Qed.

Lemma plain_silent {E A} (r : outcome E A) : r <> OutOfFuel -> plain ([], r).
Proof. intros H. split; [constructor | exact H]. Qed.

Lemma plain_print {E} (text : string) : plain (@print E text).
Proof. split; [repeat constructor | discriminate]. Qed.

Lemma plain_call {A} (ev : event) (answer : A + error) :
  isLaunch ev = false -> plain (call ev answer).
Proof. intros H. destruct answer; (split; [repeat constructor; exact H | discriminate]). Qed.

Lemma plain_local {A} (answer : A + error) : plain (local answer).
Proof. destruct answer; apply plain_silent; discriminate. Qed.

Lemma plain_deref {E A} (p : option A) : plain (@deref E A p).
Proof. destruct p; apply plain_silent; discriminate. Qed.

Lemma plain_findCompartment (input : string) (items : list Compartment) :
  plain (findCompartment input items).
Proof.
  induction items as [| compartment rest IH]; simpl.
  - apply plain_silent. discriminate.
  - apply plain_bind; [apply plain_deref | intros name].
    destruct (String.eqb name input); [| exact IH].
    apply plain_bind; [apply plain_deref | intros id].
    apply plain_silent. discriminate.
Qed.

Lemma plain_resolveCompartmentID (w : World) (input : string)
    (configProvider : ConfigurationProvider) :
  plain (resolveCompartmentID w input configProvider).
Proof.
  unfold resolveCompartmentID.
  destruct (isCompartmentOCID input); [apply plain_silent; discriminate |].
  apply plain_bind; [apply plain_wrapErr, plain_local | intros tenancyOCID].
  apply plain_bind; [apply plain_wrapErr, plain_local | intros client].
  apply plain_bind; [apply plain_call; reflexivity | intros response].
  apply plain_bind; [apply plain_findCompartment | intros [id |]];
    apply plain_silent; discriminate.
Qed.

Lemma plain_firstImageId (items : list Image) : plain (@firstImageId error items).
Proof.
  destruct items as [| image rest]; simpl;
    [apply plain_silent; discriminate | apply plain_deref].
Qed.

Lemma plain_resolveImageNameToID imageName compartmentID tenancyOCID client :
  plain (resolveImageNameToID imageName compartmentID tenancyOCID client).
Proof.
  unfold resolveImageNameToID.
  apply plain_bind;
    [apply plain_wrapErr, plain_call; reflexivity | intros response].
  destruct (List.length (LIResp_Items response) =? 0)%nat.
  - apply plain_bind; [apply plain_print | intros _].
    apply plain_bind;
      [apply plain_wrapErr, plain_call; reflexivity | intros responseOracle].
    destruct (List.length (LIResp_Items responseOracle) =? 0)%nat;
      [apply plain_silent; discriminate |].
    apply plain_bind; [| intros _; apply plain_firstImageId].
    destruct (1 <? List.length (LIResp_Items responseOracle))%nat;
      [apply plain_print | apply plain_silent; discriminate].
  - apply plain_bind; [| intros _; apply plain_firstImageId].
    destruct (1 <? List.length (LIResp_Items response))%nat;
      [apply plain_print | apply plain_silent; discriminate].
Qed.

Lemma resolveShapeNameToID_trace shapeName compartmentID imageID client :
  fst (resolveShapeNameToID shapeName compartmentID imageID client)
  = [ListShapesCall {| LSReq_CompartmentId := Some compartmentID;
                       LSReq_ImageId := Some imageID;
                       LSReq_Page := None |}].
Proof.
  unfold resolveShapeNameToID.
  destruct (ListShapes client _) as [response | err]; cbn [call wrapErr];
    [| reflexivity].
  rewrite bind_ret.
  destruct (existsb (shapeIs shapeName) (LSResp_Items response)); reflexivity.
Qed.

Lemma plain_resolveShapeNameToID shapeName compartmentID imageID client :
  plain (resolveShapeNameToID shapeName compartmentID imageID client).
Proof.
  unfold resolveShapeNameToID.
  apply plain_bind;
    [apply plain_wrapErr, plain_call; reflexivity | intros response].
  destruct (existsb (shapeIs shapeName) (LSResp_Items response));
    apply plain_silent; discriminate.
Qed.

Lemma stopsShortOfLaunch_bind {A} (imagesListed shapesListed : Prop)
    (m : M string A) (k : A -> M string unit) :
  plain m ->
  snd m <> Fail noValidKeysMessage ->
  (forall a, snd m = Ret a ->
     stopsShortOfLaunch
       (imagesListed \/ exists request, In (ListImagesCall request) (fst m))
       (shapesListed \/ exists request, In (ListShapesCall request) (fst m))
       (k a)) ->
  stopsShortOfLaunch imagesListed shapesListed (bind m k).
Proof.
  destruct m as [t [a | msg | |]]; intros [Hquiet Hdone]; cbn [fst snd] in *;
    intros Hmsg Hk.
  - destruct (Hk a eq_refl) as (Hq & Hend & Hlisted). rewrite bind_ret.
    split; [apply Forall_app; split; assumption |].
    split; [exact Hend |]. cbn [fst snd]. intros Hkeys.
    destruct (Hlisted Hkeys) as [Himages Hshapes]. split.
    + destruct Himages as [[H | [r H]] | [r H]]; [left; exact H | right .. ];
        exists r; apply in_or_app; [left | right]; exact H.
    + destruct Hshapes as [[H | [r H]] | [r H]]; [left; exact H | right .. ];
        exists r; apply in_or_app; [left | right]; exact H.
  - split; [exact Hquiet |]. split; [right; exists msg; reflexivity |].
    intros H. cbn [bind snd] in H. injection H as ->. exfalso. apply Hmsg. reflexivity.
  - split; [exact Hquiet |]. split; [left; reflexivity | discriminate].
  - exfalso. apply Hdone. reflexivity.
Qed.

(** The other messages of [createCmd] start with [Error] and a space, where
    the message about the keys has a colon. *)
Ltac other_failure :=
  let H := fresh "H" in
  let e := fresh "e" in
  intros H; apply wrapErr_fail in H; destruct H as [e H];
  apply (f_equal (String.get 5)) in H; discriminate H.

Ltac printing_step :=
  apply stopsShortOfLaunch_bind;
  [ apply plain_print | discriminate | intros _ _ ].

Lemma createCmd_stopsShortOfLaunch (w : World) (f : createFlags) :
  noValidKey (publicKeysFlag f) ->
  stopsShortOfLaunch False False (createCmd w f).
Proof.
  intros Hkeys. unfold createCmd, orFatalf.
  rewrite (sshKeysString_no_key _ Hkeys).
  (* the compute client *)
  apply stopsShortOfLaunch_bind;
    [apply plain_wrapErr, plain_local | other_failure | intros computeClient _].
  (* the compartment *)
  apply stopsShortOfLaunch_bind;
    [ destruct (negb (String.eqb (compartmentInput f) EmptyString));
      apply plain_wrapErr; [apply plain_resolveCompartmentID | apply plain_local]
    | destruct (negb (String.eqb (compartmentInput f) EmptyString)); other_failure
    | intros compartmentID _ ].
  printing_step.
  (* the tenancy *)
  apply stopsShortOfLaunch_bind;
    [apply plain_wrapErr, plain_local | other_failure | intros tenancyOCID _].
  (* the image *)
  apply stopsShortOfLaunch_bind;
    [apply plain_wrapErr, plain_resolveImageNameToID | other_failure
    | intros imageID _].
  assert (Himages : exists request,
             In (ListImagesCall request)
                (fst (wrapErr (fun err => ("Error resolving image name '"
                                           ++ imageNameFlag f ++ "': "
                                           ++ Error err)%string)
                        (resolveImageNameToID (imageNameFlag f) compartmentID
                           tenancyOCID computeClient)))).
  { rewrite wrapErr_fst.
    destruct (resolveImageNameToID_first_call (imageNameFlag f) compartmentID
                tenancyOCID computeClient) as [rest Hfirst].
    rewrite Hfirst. eexists. left. reflexivity. }
  printing_step.
  (* the shape *)
  apply stopsShortOfLaunch_bind;
    [apply plain_wrapErr, plain_resolveShapeNameToID | other_failure | intros _ _].
  assert (Hshapes : exists request,
             In (ListShapesCall request)
                (fst (wrapErr (fun err => ("Error validating shape name '"
                                           ++ shapeNameFlag f ++ "' for image '"
                                           ++ imageID ++ "': " ++ Error err)%string)
                        (resolveShapeNameToID (shapeNameFlag f) compartmentID
                           imageID computeClient)))).
  { rewrite wrapErr_fst, resolveShapeNameToID_trace. eexists. left. reflexivity. }
  printing_step.
  printing_step.
  (* the keys *)
  split; [constructor |]. split; [right; eexists; reflexivity |].
  intros _. tauto.
Qed.

(** C6, as amended: when no key is left after splitting [--public-keys] at
    the commas and trimming, [instances create] sends no launch request and
    ends in a fatal error (or a panic on the way).  The keys are looked at
    after the compartment, the image and the shape were resolved: a run that
    ends with the message about the keys has requested the image listing and
    the shape listing before. *)
Theorem createCmd_no_valid_key :
  forall (w : World) (f : createFlags),
    noValidKey (publicKeysFlag f) ->
    (forall request, ~ In (LaunchInstanceCall request) (fst (createCmd w f)))
    /\ (snd (createCmd w f) = Panic \/ exists msg, snd (createCmd w f) = Fail msg)
    /\ (snd (createCmd w f) = Fail noValidKeysMessage ->
        (exists request, In (ListImagesCall request) (fst (createCmd w f)))
        /\ (exists request, In (ListShapesCall request) (fst (createCmd w f)))).
Proof.
  intros w f Hkeys.
  destruct (createCmd_stopsShortOfLaunch w f Hkeys) as (Hquiet & Hend & Hlisted).
  split; [| split; [exact Hend |]].
  - intros request Hin. rewrite Forall_forall in Hquiet.
    specialize (Hquiet _ Hin). discriminate Hquiet.
  - intros Hmsg. destruct (Hlisted Hmsg) as [[[] | Himages] [[] | Hshapes]].
    split; assumption.
Qed.

Lemma createCmd_no_valid_key_witness :
  noValidKey " , "
  /\ snd (createCmd sample.world (sample.flags " , ")) = Fail noValidKeysMessage
  /\ (exists request,
        In (ListImagesCall request) (fst (createCmd sample.world (sample.flags " , "))))
  /\ (exists request,
        In (ListShapesCall request) (fst (createCmd sample.world (sample.flags " , ")))).
Proof.
  assert (Hkeys : noValidKey " , ") by (repeat constructor).
  split; [exact Hkeys |]. split; [reflexivity |].
  apply (createCmd_no_valid_key sample.world (sample.flags " , ") Hkeys).
  reflexivity.
Defined.

(** C6, as stated, fails: with a [--public-keys] value made of blanks and a
    comma, [instances create] has sent four requests (the compartment
    listing, the image listing of the compartment and of the tenancy, the
    shape listing) by the time it stops on the keys. *)
Lemma createCmd_no_valid_key_counterexample :
  noValidKey " , "
  /\ calls (fst (createCmd sample.world (sample.flags " , ")))
     = [ ListCompartmentsCall
           {| LCReq_CompartmentId := Some sample.tenancy; LCReq_Page := None |};
         ListImagesCall (imageQuery sample.ubuntu sample.prodId);
         ListImagesCall (imageQuery sample.ubuntu sample.tenancy);
         ListShapesCall {| LSReq_CompartmentId := Some sample.prodId;
                           LSReq_ImageId := Some sample.ubuntuId;
                           LSReq_Page := None |} ]
  /\ snd (createCmd sample.world (sample.flags " , ")) = Fail noValidKeysMessage.
Proof. split; [repeat constructor | split; reflexivity]. Qed.

(** ** [instances create]: the metadata value *)

Lemma string_append_assoc (a b c : string) :
  ((a ++ b) ++ c)%string = (a ++ b ++ c)%string.
Proof.
  induction a as [| ch a IH]; [reflexivity |].
  change (String ch ((a ++ b) ++ c) = String ch (a ++ b ++ c))%string.
  rewrite IH. reflexivity.
Qed.

Lemma filter_last_nonEmpty (d : string) (key : string) (rest : list string) :
  nonEmpty (strings.TrimSpace (last (key :: rest) d)) = true ->
  filter nonEmpty (map strings.TrimSpace (key :: rest)) <> [].
Proof.
  revert key. induction rest as [| key' rest IH]; intros key Hlast.
  - simpl in *. rewrite Hlast. discriminate.
  - specialize (IH key' Hlast). cbn [map filter] in *.
    destruct (nonEmpty (strings.TrimSpace key)); [discriminate | exact IH].
Qed.

Lemma sshKeysLoop_cons (key : string) (rest : list string) (i n : nat) (acc : string) :
  sshKeysLoop (key :: rest) i n acc
  = sshKeysLoop rest (S i) n
      (if String.eqb (strings.TrimSpace key) EmptyString then acc
       else if (i <? n - 1)%nat then ((acc ++ strings.TrimSpace key) ++ LF)%string
            else (acc ++ strings.TrimSpace key)%string).
Proof. reflexivity. Qed.

(** When the last entry is a key, the loop joins the keys with single line
    feeds. *)
Lemma sshKeysLoop_joined (rest : list string) :
  forall (i n : nat) (acc : string),
    n = i + List.length rest ->
    nonEmpty (strings.TrimSpace (last rest EmptyString)) = true ->
    sshKeysLoop rest i n acc
    = (acc ++ String.concat LF (filter nonEmpty (map strings.TrimSpace rest)))%string.
Proof.
  induction rest as [| key rest IH]; intros i n acc Hn Hlast.
  - discriminate Hlast.
  - destruct rest as [| key' rest].
    + rewrite sshKeysLoop_cons. cbn [sshKeysLoop map filter last] in *.
      rewrite Hlast.
      unfold nonEmpty in Hlast. apply negb_true_iff in Hlast. rewrite Hlast.
      replace (i <? n - 1)%nat with false
        by (symmetry; apply Nat.ltb_ge; simpl in Hn; lia).
      reflexivity.
    + change (last (key :: key' :: rest) EmptyString)
        with (last (key' :: rest) EmptyString) in Hlast.
      pose proof (filter_last_nonEmpty EmptyString key' rest Hlast) as Hmore.
      rewrite sshKeysLoop_cons. rewrite (IH (S i) n); [| simpl in *; lia | exact Hlast].
      replace (i <? n - 1)%nat with true
        by (symmetry; apply Nat.ltb_lt; simpl in Hn; lia).
      change (map strings.TrimSpace (key :: key' :: rest))
        with (strings.TrimSpace key :: map strings.TrimSpace (key' :: rest)).
      cbn [filter]. unfold nonEmpty at 2.
      destruct (String.eqb (strings.TrimSpace key) EmptyString); cbn [negb];
        [reflexivity |].
      destruct (filter nonEmpty (map strings.TrimSpace (key' :: rest)))
        as [| k ks]; [congruence |].
      cbn [String.concat]. rewrite !string_append_assoc. reflexivity.
Qed.

Lemma sshKeysString_joined (publicKeys : string) :
  nonEmpty (strings.TrimSpace (last (strings.Split publicKeys ",") EmptyString)) = true ->
  sshKeysString publicKeys = String.concat LF (validKeys publicKeys).
Proof.
  intros Hlast. unfold sshKeysString, validKeys. cbv zeta.
  rewrite (sshKeysLoop_joined _ 0 (List.length (strings.Split publicKeys ","))
             EmptyString eq_refl Hlast).
  reflexivity.
Qed.

(** C9: the value sent as [ssh_authorized_keys] is not always the keys joined
    by line feeds.  A line feed follows every key that is not the last
    comma-separated entry, so when the entries after the last key are empty
    the value ends with a line feed: for [--public-keys "ssh-rsa AAA,"] the
    only key is [ssh-rsa AAA] and the launch request carries that key
    followed by a line feed. *)
Theorem sshKeysString_trailing_line_feed :
  validKeys "ssh-rsa AAA," = ["ssh-rsa AAA"]
  /\ sshKeysString "ssh-rsa AAA," = ("ssh-rsa AAA" ++ LF)%string
  /\ sshKeysString "ssh-rsa AAA," <> String.concat LF (validKeys "ssh-rsa AAA,")
  /\ exists request,
       In (LaunchInstanceCall request)
          (fst (createCmd sample.world (sample.flags "ssh-rsa AAA,")))
       /\ LID_Metadata (LIR_LaunchInstanceDetails request)
          = [("ssh_authorized_keys", ("ssh-rsa AAA" ++ LF)%string)].
Proof.
  split; [reflexivity |]. split; [reflexivity |]. split; [discriminate |].
  eexists. split.
  - vm_compute. do 11 right. left. reflexivity.
  - reflexivity.
Qed.

(** ** Compartment resolution reads one page *)

(** C2: compartment resolution does not read the whole listing.  In the
    sample tenancy the service serves three compartments under the tenancy
    over two pages, and the walk prints the compartment named [dev] of the
    second page; compartment resolution sends the request for the first page
    only and reports that [dev] was not found. *)
Theorem resolveCompartmentID_reads_first_page_only :
  serves sample.identityClient (Some sample.tenancy) None sample.forest
  /\ In sample.dev sample.forest
  /\ Compartment_Name (compartmentOf sample.dev) = Some "dev"
  /\ In (compartmentLine 0 sample.devId "dev" "development")
        (printed (fst (listCompartmentsRecursive 4 sample.identityClient
                         {| LCReq_CompartmentId := Some sample.tenancy;
                            LCReq_Page := None |} 0)))
  /\ resolveCompartmentID sample.world "dev" DefaultConfigProvider
     = ([ListCompartmentsCall {| LCReq_CompartmentId := Some sample.tenancy;
                                 LCReq_Page := None |}],
        Fail (ErrCompartmentNotFound "dev")).
Proof.
  split; [exact sample_serves |].
  split; [right; left; reflexivity |].
  split; [reflexivity |].
  split; [| reflexivity].
  vm_compute. right. right. left. reflexivity.
Qed.

(** * Further properties *)

(** ** Compartment resolution: what it returns and what it sends *)

Lemma findCompartment_found (input : string) (items : list Compartment)
    (t : list event) (id : string) :
  findCompartment input items = (t, Ret (Some id)) ->
  exists compartment,
    find (nameIs input) items = Some compartment
    /\ Compartment_Id compartment = Some id.
Proof.
  induction items as [| c rest IH]; simpl; [discriminate |].
  unfold nameIs at 1.
  destruct (Compartment_Name c) as [name |]; simpl; [| discriminate].
  destruct (String.eqb name input).
  - destruct (Compartment_Id c) as [id' |] eqn:Hid; simpl; [| discriminate].
    intros [= _ <-]. exists c. split; [reflexivity | exact Hid].
  - destruct (findCompartment input rest) as [t' r]. simpl.
    intros [= <- ->]. apply IH. reflexivity.
Qed.

Lemma find_nameIs (input : string) (items : list Compartment) (c : Compartment) :
  find (nameIs input) items = Some c ->
  In c items /\ Compartment_Name c = Some input.
Proof.
  intros H. apply find_some in H. destruct H as [Hin Hname]. split; [exact Hin |].
  unfold nameIs in Hname. destruct (Compartment_Name c) as [name |]; [| discriminate].
  apply String.eqb_eq in Hname. congruence.
Qed.

(** X1: an identifier returned by compartment resolution is either the input
    itself, when the input has one of the two literal prefixes, or the
    identifier of the first compartment of the tenancy's listing whose name
    is the input, character for character. *)
Theorem resolveCompartmentID_returns_first_exact_match :
  forall (w : World) (input : string) (configProvider : ConfigurationProvider)
         (id : string),
    snd (resolveCompartmentID w input configProvider) = Ret id ->
    (isCompartmentOCID input = true /\ id = input)
    \/ (isCompartmentOCID input = false
        /\ exists tenancyOCID client response compartment,
             TenancyOCID w configProvider = inl tenancyOCID
             /\ NewIdentityClientWithConfigurationProvider w configProvider = inl client
             /\ ListCompartments client {| LCReq_CompartmentId := Some tenancyOCID;
                                           LCReq_Page := None |} = inl response
             /\ find (nameIs input) (LCResp_Items response) = Some compartment
             /\ In compartment (LCResp_Items response)
             /\ Compartment_Name compartment = Some input
             /\ Compartment_Id compartment = Some id).
Proof.
  intros w input configProvider id Hret.
  destruct (isCompartmentOCID input) eqn:Hocid.
  - left. rewrite (resolveCompartmentID_literal w input configProvider Hocid) in Hret.
    injection Hret as <-. split; reflexivity.
  - right. split; [reflexivity |].
    destruct (TenancyOCID w configProvider) as [tenancyOCID | e1] eqn:Hten;
      [| unfold resolveCompartmentID in Hret; rewrite Hocid, Hten in Hret;
         discriminate Hret].
    destruct (NewIdentityClientWithConfigurationProvider w configProvider)
      as [client | e2] eqn:Hcli;
      [| unfold resolveCompartmentID in Hret; rewrite Hocid, Hten, Hcli in Hret;
         discriminate Hret].
    rewrite (resolveCompartmentID_lookup w input configProvider tenancyOCID client
               Hocid Hten Hcli) in Hret.
    destruct (ListCompartments client _) as [response | e3] eqn:Hlist;
      [| discriminate Hret].
    cbn [call] in Hret. rewrite bind_ret in Hret. cbn [snd] in Hret.
    destruct (findCompartment input (LCResp_Items response)) as [t [[id' |] | e | |]]
      eqn:Hfind; try discriminate Hret.
    injection Hret as ->.
    destruct (findCompartment_found input _ t id Hfind) as [c [Hc Hid]].
    destruct (find_nameIs input _ c Hc) as [Hin Hname].
    exists tenancyOCID, client, response, c. repeat split; assumption.
Qed.

Lemma resolveCompartmentID_returns_first_exact_match_witness :
  snd (resolveCompartmentID sample.onePageWorld "dev" DefaultConfigProvider)
  = Ret sample.devId
  /\ exists compartment,
       find (nameIs "dev") (map compartmentOf sample.forest) = Some compartment
       /\ Compartment_Id compartment = Some sample.devId.
Proof.
  split; [reflexivity |].
  destruct (resolveCompartmentID_returns_first_exact_match sample.onePageWorld "dev"
              DefaultConfigProvider sample.devId eq_refl)
    as [[Hocid _] | [_ [tenancyOCID [client [response [c Hc]]]]]];
    [discriminate Hocid |].
  destruct Hc as (Hten & Hcli & Hlist & Hfind & _ & _ & Hid).
  injection Hten as <-. injection Hcli as <-. injection Hlist as <-.
  exists c. split; [exact Hfind | exact Hid].
Defined.

(** X2: compartment resolution sends at most one request and prints nothing,
    whatever it is given and whatever the service answers; so no warning is
    printed when several compartments share the name. *)
Theorem resolveCompartmentID_one_request_no_output :
  forall (w : World) (input : string) (configProvider : ConfigurationProvider),
    List.length (fst (resolveCompartmentID w input configProvider)) <= 1
    /\ printed (fst (resolveCompartmentID w input configProvider)) = [].
Proof.
  intros w input configProvider.
  destruct (isCompartmentOCID input) eqn:Hocid.
  - rewrite (resolveCompartmentID_literal w input configProvider Hocid).
    split; [simpl; lia | reflexivity].
  - destruct (TenancyOCID w configProvider) as [tenancyOCID | e1] eqn:Hten.
    + destruct (NewIdentityClientWithConfigurationProvider w configProvider)
        as [client | e2] eqn:Hcli.
      * rewrite (resolveCompartmentID_lookup_trace w input configProvider
                   tenancyOCID client Hocid Hten Hcli).
        split; [simpl; lia | reflexivity].
      * unfold resolveCompartmentID. rewrite Hocid, Hten, Hcli.
        split; [simpl; lia | reflexivity].
    + unfold resolveCompartmentID. rewrite Hocid, Hten.
      split; [simpl; lia | reflexivity].
Qed.

(** X3: how compartment resolution fails.  For an input without a literal
    prefix: a tenancy that cannot be read and an identity client that cannot
    be made are reported wrapped, before any request; a refused listing is
    reported as the service gave it, after the one request. *)
Theorem resolveCompartmentID_failures :
  forall (w : World) (input : string) (configProvider : ConfigurationProvider),
    isCompartmentOCID input = false ->
    (forall err, TenancyOCID w configProvider = inr err ->
       resolveCompartmentID w input configProvider = ([], Fail (ErrTenancyOCID err)))
    /\ (forall tenancyOCID err,
          TenancyOCID w configProvider = inl tenancyOCID ->
          NewIdentityClientWithConfigurationProvider w configProvider = inr err ->
          resolveCompartmentID w input configProvider
          = ([], Fail (ErrIdentityClient err)))
    /\ (forall tenancyOCID client err,
          TenancyOCID w configProvider = inl tenancyOCID ->
          NewIdentityClientWithConfigurationProvider w configProvider = inl client ->
          ListCompartments client {| LCReq_CompartmentId := Some tenancyOCID;
                                     LCReq_Page := None |} = inr err ->
          resolveCompartmentID w input configProvider
          = ([ListCompartmentsCall {| LCReq_CompartmentId := Some tenancyOCID;
                                      LCReq_Page := None |}],
             Fail err)).
Proof.
  intros w input configProvider Hocid. split; [| split].
  - intros err Hten. unfold resolveCompartmentID. rewrite Hocid, Hten. reflexivity.
  - intros tenancyOCID err Hten Hcli. unfold resolveCompartmentID.
    rewrite Hocid, Hten, Hcli. reflexivity.
  - intros tenancyOCID client err Hten Hcli Hlist.
    rewrite (resolveCompartmentID_lookup w input configProvider tenancyOCID client
               Hocid Hten Hcli).
    rewrite Hlist. reflexivity.
Qed.

Lemma resolveCompartmentID_failures_witness :
  resolveCompartmentID edge.noConfigWorld "dev" DefaultConfigProvider
  = ([], Fail (ErrTenancyOCID (ServiceError "no config"))).
Proof.
  apply (resolveCompartmentID_failures edge.noConfigWorld "dev" DefaultConfigProvider
           eq_refl).
  reflexivity.
Defined.

(** ** Image resolution: what it returns and what it sends *)

Lemma resolveImageNameToID_calls_refused imageName compartmentID tenancyOCID client err :
  ListImages client (imageQuery imageName compartmentID) = inr err ->
  resolveImageNameToID imageName compartmentID tenancyOCID client
  = ([ListImagesCall (imageQuery imageName compartmentID)], Fail (ErrListImages err)).
Proof.
  unfold imageQuery. intros Hlist. unfold resolveImageNameToID. rewrite Hlist.
  reflexivity.
Qed.

Lemma resolveImageNameToID_calls_primary imageName compartmentID tenancyOCID client
    response first rest :
  ListImages client (imageQuery imageName compartmentID) = inl response ->
  LIResp_Items response = first :: rest ->
  calls (fst (resolveImageNameToID imageName compartmentID tenancyOCID client))
  = [ListImagesCall (imageQuery imageName compartmentID)].
Proof.
  unfold imageQuery. intros Hlist Hitems.
  unfold resolveImageNameToID. rewrite Hlist. cbn [call wrapErr].
  rewrite bind_ret, Hitems. cbn [List.length Nat.eqb firstImageId fst].
  destruct rest; destruct (Image_Id first); reflexivity.
Qed.

Lemma resolveImageNameToID_calls_fallback imageName compartmentID tenancyOCID client
    response :
  ListImages client (imageQuery imageName compartmentID) = inl response ->
  LIResp_Items response = [] ->
  calls (fst (resolveImageNameToID imageName compartmentID tenancyOCID client))
  = [ListImagesCall (imageQuery imageName compartmentID);
     ListImagesCall (imageQuery imageName tenancyOCID)].
Proof.
  unfold imageQuery. intros Hlist Hitems.
  unfold resolveImageNameToID. rewrite Hlist. cbn [call wrapErr].
  rewrite bind_ret, Hitems. cbn [List.length Nat.eqb LIReq_DisplayName fst].
  destruct (ListImages client
              {| LIReq_CompartmentId := Some tenancyOCID;
                 LIReq_DisplayName := Some imageName |}) as [responseOracle | err];
    cbn [call wrapErr print bind fst snd app]; [| reflexivity].
  destruct (LIResp_Items responseOracle) as [| first [| second rest]];
    cbn [List.length Nat.eqb firstImageId]; try reflexivity;
    destruct (Image_Id first); reflexivity.
Qed.

(** X4: image resolution sends one or two requests.  The first is the
    name-filtered listing of the compartment; the second, the same listing of
    the tenancy, is sent exactly when the first one succeeded and was
    empty. *)
Theorem resolveImageNameToID_requests :
  forall (imageName compartmentID tenancyOCID : string) (client : ComputeClient),
    (calls (fst (resolveImageNameToID imageName compartmentID tenancyOCID client))
     = [ListImagesCall (imageQuery imageName compartmentID)]
     \/ calls (fst (resolveImageNameToID imageName compartmentID tenancyOCID client))
        = [ListImagesCall (imageQuery imageName compartmentID);
           ListImagesCall (imageQuery imageName tenancyOCID)])
    /\ (calls (fst (resolveImageNameToID imageName compartmentID tenancyOCID client))
        = [ListImagesCall (imageQuery imageName compartmentID);
           ListImagesCall (imageQuery imageName tenancyOCID)]
        <-> exists response,
              ListImages client (imageQuery imageName compartmentID) = inl response
              /\ LIResp_Items response = []).
Proof.
  intros imageName compartmentID tenancyOCID client.
  destruct (ListImages client (imageQuery imageName compartmentID))
    as [response | err] eqn:Hlist.
  - destruct (LIResp_Items response) as [| first rest] eqn:Hitems.
    + rewrite (resolveImageNameToID_calls_fallback _ _ tenancyOCID _ response Hlist Hitems).
      split; [right; reflexivity |].
      split; [intros _; exists response; split; [reflexivity | exact Hitems]
             | reflexivity].
    + rewrite (resolveImageNameToID_calls_primary _ _ tenancyOCID _ response first rest
                 Hlist Hitems).
      split; [left; reflexivity |]. split; [discriminate |].
      intros [response' [[= <-] H]]. rewrite Hitems in H. discriminate H.
  - rewrite (resolveImageNameToID_calls_refused _ _ tenancyOCID _ err Hlist).
    split; [left; reflexivity |]. split; [discriminate |].
    intros [response [H _]]. discriminate H.
Qed.

(** X5: an identifier returned by image resolution is the identifier of the
    first item of the compartment's name-filtered listing, or, that listing
    being empty, of the first item of the tenancy's. *)
Theorem resolveImageNameToID_returns_first_item :
  forall (imageName compartmentID tenancyOCID : string) (client : ComputeClient)
         (id : string),
    snd (resolveImageNameToID imageName compartmentID tenancyOCID client) = Ret id ->
    exists response,
      ListImages client (imageQuery imageName compartmentID) = inl response
      /\ ((exists first rest,
             LIResp_Items response = first :: rest /\ Image_Id first = Some id)
          \/ (LIResp_Items response = []
              /\ exists responseOracle first rest,
                   ListImages client (imageQuery imageName tenancyOCID)
                   = inl responseOracle
                   /\ LIResp_Items responseOracle = first :: rest
                   /\ Image_Id first = Some id)).
Proof.
  intros imageName compartmentID tenancyOCID client id.
  unfold imageQuery, resolveImageNameToID.
  destruct (ListImages client
              {| LIReq_CompartmentId := Some compartmentID;
                 LIReq_DisplayName := Some imageName |}) as [response | err] eqn:Hlist;
    cbn [call wrapErr]; [| discriminate].
  rewrite bind_ret.
  destruct (LIResp_Items response) as [| first rest] eqn:Hitems;
    cbn [List.length Nat.eqb LIReq_DisplayName snd].
  - destruct (ListImages client
                {| LIReq_CompartmentId := Some tenancyOCID;
                   LIReq_DisplayName := Some imageName |})
      as [responseOracle | err] eqn:Hlist2;
      cbn [call wrapErr print bind fst snd app]; [| discriminate].
    destruct (LIResp_Items responseOracle) as [| first rest] eqn:Hitems2;
      [discriminate |].
    cbn [List.length Nat.eqb firstImageId].
    destruct (Image_Id first) as [id' |] eqn:Hid;
      [| destruct rest; discriminate].
    intros Hret. assert (id' = id) as -> by (destruct rest; injection Hret; auto).
    exists response. split; [reflexivity |]. right. split; [exact Hitems |].
    exists responseOracle, first, rest. auto.
  - cbn [firstImageId].
    destruct (Image_Id first) as [id' |] eqn:Hid;
      [| destruct rest; discriminate].
    intros Hret. assert (id' = id) as -> by (destruct rest; injection Hret; auto).
    exists response. split; [reflexivity |]. left. exists first, rest. auto.
Qed.

Lemma resolveImageNameToID_returns_first_item_witness :
  exists response,
    ListImages sample.computeClient (imageQuery sample.ubuntu sample.prodId)
    = inl response
    /\ ((exists first rest,
           LIResp_Items response = first :: rest
           /\ Image_Id first = Some sample.ubuntuId)
        \/ (LIResp_Items response = []
            /\ exists responseOracle first rest,
                 ListImages sample.computeClient (imageQuery sample.ubuntu sample.tenancy)
                 = inl responseOracle
                 /\ LIResp_Items responseOracle = first :: rest
                 /\ Image_Id first = Some sample.ubuntuId)).
Proof.
  exact (resolveImageNameToID_returns_first_item sample.ubuntu sample.prodId
           sample.tenancy sample.computeClient sample.ubuntuId eq_refl).
Defined.

(** ** Shape validation: outcomes *)

(** X6: shape validation sends exactly one request and never panics, also
    when listed shapes carry no name.  Its outcome is the shape name it was
    given, or the not-found error, or, when the listing is refused, the
    wrapped error of the service. *)
Theorem resolveShapeNameToID_outcomes :
  forall (shapeName compartmentID imageID : string) (client : ComputeClient),
    fst (resolveShapeNameToID shapeName compartmentID imageID client)
    = [ListShapesCall {| LSReq_CompartmentId := Some compartmentID;
                         LSReq_ImageId := Some imageID;
                         LSReq_Page := None |}]
    /\ (snd (resolveShapeNameToID shapeName compartmentID imageID client)
        = Ret shapeName
        \/ snd (resolveShapeNameToID shapeName compartmentID imageID client)
           = Fail (ErrShapeNotFound shapeName imageID compartmentID)
        \/ exists err,
             ListShapes client {| LSReq_CompartmentId := Some compartmentID;
                                  LSReq_ImageId := Some imageID;
                                  LSReq_Page := None |} = inr err
             /\ snd (resolveShapeNameToID shapeName compartmentID imageID client)
                = Fail (ErrListShapes err)).
Proof.
  intros shapeName compartmentID imageID client.
  split; [apply resolveShapeNameToID_trace |].
  unfold resolveShapeNameToID.
  destruct (ListShapes client _) as [response | err]; cbn [call wrapErr].
  - rewrite bind_ret. cbn [snd].
    destruct (existsb (shapeIs shapeName) (LSResp_Items response));
      [left | right; left]; reflexivity.
  - right. right. exists err. split; reflexivity.
Qed.

(** ** [instances create]: the value built from the keys *)

Lemma string_append_empty_r (a : string) : (a ++ EmptyString)%string = a.
Proof.
  induction a as [| ch a IH]; [reflexivity |].
  change (String ch (a ++ EmptyString) = String ch a)%string.
  rewrite IH. reflexivity.
Qed.

Lemma string_append_eq_empty (a b : string) :
  (a ++ b)%string = EmptyString -> a = EmptyString.
Proof. destruct a; [reflexivity | discriminate]. Qed.

Lemma no_key_among (entries : list string) :
  filter nonEmpty (map strings.TrimSpace entries) = [] ->
  Forall (fun key => strings.TrimSpace key = EmptyString) entries.
Proof.
  induction entries as [| key rest IH]; cbn [map filter]; [constructor |].
  unfold nonEmpty at 1.
  destruct (String.eqb (strings.TrimSpace key) EmptyString) eqn:Hkey;
    cbn [negb]; [| discriminate].
  intros H. constructor; [apply String.eqb_eq; exact Hkey | exact (IH H)].
Qed.

Lemma last_blank (d key : string) (rest : list string) :
  Forall (fun k => strings.TrimSpace k = EmptyString) (key :: rest) ->
  nonEmpty (strings.TrimSpace (last (key :: rest) d)) = false.
Proof.
  revert key. induction rest as [| key' rest IH]; intros key H.
  - inversion H as [| ? ? Hkey _]; subst. cbn [last]. unfold nonEmpty.
    rewrite Hkey. reflexivity.
  - change (last (key :: key' :: rest) d) with (last (key' :: rest) d).
    apply IH. inversion H; assumption.
Qed.

(** The loop, whatever the entries are: the keys joined by line feeds, and
    one more line feed when there is a key and the last entry is not one. *)
Lemma sshKeysLoop_shape (rest : list string) :
  forall (i n : nat) (acc : string),
    n = i + List.length rest ->
    sshKeysLoop rest i n acc
    = (acc
       ++ String.concat LF (filter nonEmpty (map strings.TrimSpace rest))
       ++ (if nonEmpty (strings.TrimSpace (last rest EmptyString)) then EmptyString
           else match filter nonEmpty (map strings.TrimSpace rest) with
                | [] => EmptyString
                | _ :: _ => LF
                end))%string.
Proof.
  induction rest as [| key rest IH]; intros i n acc Hn.
  - cbn [sshKeysLoop map filter last String.concat].
    change (strings.TrimSpace EmptyString) with EmptyString.
    cbn [nonEmpty String.eqb negb].
    change (EmptyString ++ EmptyString)%string with EmptyString.
    rewrite string_append_empty_r. reflexivity.
  - rewrite sshKeysLoop_cons. destruct rest as [| key' rest].
    + cbn [sshKeysLoop map filter last].
      replace (i <? n - 1)%nat with false
        by (symmetry; apply Nat.ltb_ge; simpl in Hn; lia).
      unfold nonEmpty.
      destruct (String.eqb (strings.TrimSpace key) EmptyString); cbn [negb String.concat].
      * change (EmptyString ++ EmptyString)%string with EmptyString.
        rewrite string_append_empty_r. reflexivity.
      * rewrite string_append_empty_r. reflexivity.
    + rewrite (IH (S i) n); [| simpl in *; lia].
      replace (i <? n - 1)%nat with true
        by (symmetry; apply Nat.ltb_lt; simpl in Hn; lia).
      change (last (key :: key' :: rest) EmptyString)
        with (last (key' :: rest) EmptyString).
      change (map strings.TrimSpace (key :: key' :: rest))
        with (strings.TrimSpace key :: map strings.TrimSpace (key' :: rest)).
      cbn [filter].
      change (nonEmpty (strings.TrimSpace key))
        with (negb (String.eqb (strings.TrimSpace key) EmptyString)).
      destruct (String.eqb (strings.TrimSpace key) EmptyString); cbn [negb];
        [reflexivity |].
      destruct (filter nonEmpty (map strings.TrimSpace (key' :: rest)))
        as [| k ks] eqn:Hkeys.
      * rewrite (last_blank EmptyString key' rest (no_key_among _ Hkeys)).
        cbn [String.concat].
        change (EmptyString ++ EmptyString)%string with EmptyString.
        rewrite string_append_empty_r, !string_append_assoc. reflexivity.
      * cbn [String.concat]. rewrite !string_append_assoc. reflexivity.
Qed.

(** X7: the value sent as [ssh_authorized_keys] is the keys (the
    comma-separated entries, trimmed, the empty ones left out) joined by
    single line feeds, followed by one more line feed exactly when there is a
    key and the last comma-separated entry is not one. *)
Theorem sshKeysString_shape :
  forall publicKeys : string,
    sshKeysString publicKeys
    = (String.concat LF (validKeys publicKeys)
       ++ (if nonEmpty (strings.TrimSpace
                          (last (strings.Split publicKeys ",") EmptyString))
           then EmptyString
           else match validKeys publicKeys with
                | [] => EmptyString
                | _ :: _ => LF
                end))%string.
Proof.
  intros publicKeys. unfold sshKeysString, validKeys. cbv zeta.
  rewrite (sshKeysLoop_shape _ 0 (List.length (strings.Split publicKeys ","))
             EmptyString eq_refl).
  reflexivity.
Qed.

(** X8: the value built from the keys is empty exactly when no entry of
    [--public-keys] is left after trimming: [instances create] stops on the
    keys in that case and in no other. *)
Theorem sshKeysString_empty_iff :
  forall publicKeys : string,
    sshKeysString publicKeys = EmptyString <-> noValidKey publicKeys.
Proof.
  intros publicKeys. split; [| apply sshKeysString_no_key].
  unfold sshKeysString. cbv zeta.
  rewrite (sshKeysLoop_shape _ 0 (List.length (strings.Split publicKeys ","))
             EmptyString eq_refl).
  match goal with
  | |- (EmptyString ++ ?s)%string = _ -> _ =>
      change (s = EmptyString -> noValidKey publicKeys)
  end.
  fold (validKeys publicKeys). intros H. apply string_append_eq_empty in H.
  apply no_key_among. fold (validKeys publicKeys).
  destruct (validKeys publicKeys) as [| key keys] eqn:Hkeys; [reflexivity |].
  exfalso.
  assert (Hkey : nonEmpty key = true).
  { assert (Hin : In key (validKeys publicKeys)) by (rewrite Hkeys; left; reflexivity).
    unfold validKeys in Hin. apply filter_In in Hin. apply Hin. }
  destruct key as [| ch key]; [discriminate Hkey |].
  destruct keys; discriminate H.
Qed.

(** ** The compartment walk: missing fields, endless listings, cost *)

(** X9: a listed compartment that lacks its identifier, its name or its
    description makes the walk panic: when it is the first item of a page,
    the walk ends right after the request for that page, with nothing
    printed.  The test [compartment.Id != nil] after the print does not
    protect the walk, the identifier being dereferenced for the print. *)
Theorem listCompartmentsRecursive_missing_field_panics :
  forall (fuel : nat) (client : IdentityClient) (request : ListCompartmentsRequest)
         (depth : nat) (response : ListCompartmentsResponse)
         (compartment : Compartment) (rest : list Compartment),
    ListCompartments client request = inl response ->
    LCResp_Items response = compartment :: rest ->
    Compartment_Id compartment = None
    \/ Compartment_Name compartment = None
    \/ Compartment_Description compartment = None ->
    listCompartmentsRecursive (S fuel) client request depth
    = ([ListCompartmentsCall request], Panic).
Proof.
  intros fuel client request depth response compartment rest Hlist Hitems Hnil.
  cbn [listCompartmentsRecursive]. rewrite Hlist. cbn [call].
  rewrite bind_ret, Hitems. cbn [forRange]. unfold visitCompartment.
  destruct (Compartment_Id compartment) as [id |]; [| reflexivity].
  destruct (Compartment_Name compartment) as [name |]; [| reflexivity].
  destruct (Compartment_Description compartment) as [description |]; [| reflexivity].
  destruct Hnil as [H | [H | H]]; discriminate H.
Qed.

Lemma listCompartmentsRecursive_missing_field_panics_witness :
  listCompartmentsRecursive 3 edge.bareClient
    {| LCReq_CompartmentId := Some sample.tenancy; LCReq_Page := None |} 0
  = ([ListCompartmentsCall
        {| LCReq_CompartmentId := Some sample.tenancy; LCReq_Page := None |}],
     Panic).
Proof.
  apply (listCompartmentsRecursive_missing_field_panics 2 edge.bareClient _ 0 _ _ []
           eq_refl eq_refl).
  right. right. reflexivity.
Defined.

(** X10: the walk has no bound of its own on the pages of a scope.  Against a
    service that answers every page of a scope with no item and one more
    continuation token, the walk never returns: whatever the bound on the
    depth of the calls, it is used up, one request per call, and nothing is
    printed. *)
Theorem listCompartmentsRecursive_endless_pages :
  forall (client : IdentityClient) (scope : option string),
    (forall page, exists token,
        ListCompartments client {| LCReq_CompartmentId := scope; LCReq_Page := page |}
        = inl {| LCResp_Items := []; LCResp_OpcNextPage := Some token |}) ->
    forall (fuel : nat) (page : option string) (depth : nat),
      snd (listCompartmentsRecursive fuel client
             {| LCReq_CompartmentId := scope; LCReq_Page := page |} depth) = OutOfFuel
      /\ List.length (calls (fst (listCompartmentsRecursive fuel client
                                    {| LCReq_CompartmentId := scope;
                                       LCReq_Page := page |} depth))) = fuel
      /\ printed (fst (listCompartmentsRecursive fuel client
                         {| LCReq_CompartmentId := scope; LCReq_Page := page |}
                         depth)) = [].
Proof.
  intros client scope Hmore fuel.
  induction fuel as [| fuel IH]; intros page depth.
  - repeat split.
  - cbn [listCompartmentsRecursive].
    destruct (Hmore page) as [token Hlist]. rewrite Hlist. cbn [call].
    rewrite bind_ret.
    cbn [LCResp_Items LCResp_OpcNextPage LCReq_CompartmentId forRange].
    rewrite bind_ret_l.
    destruct (IH (Some token) depth) as (Hout & Hcalls & Hprinted).
    cbn [fst snd]. split; [exact Hout |]. split.
    + cbn [app calls filter List.length]. f_equal. exact Hcalls.
    + rewrite printed_app. exact Hprinted.
Qed.

Lemma listCompartmentsRecursive_endless_pages_witness :
  snd (listCompartmentsRecursive 1000 edge.endlessClient
         {| LCReq_CompartmentId := Some sample.tenancy; LCReq_Page := None |} 0)
  = OutOfFuel.
Proof.
  apply (listCompartmentsRecursive_endless_pages edge.endlessClient
           (Some sample.tenancy)).
  intros page. exists "more". reflexivity.
Defined.

Lemma calls_app (t1 t2 : list event) : calls (t1 ++ t2) = calls t1 ++ calls t2.
Proof. unfold calls. apply filter_app. Qed.

Lemma sendsAtLeast_le (m : M error unit) (a b : nat) :
  sendsAtLeast m a -> b <= a -> sendsAtLeast m b.
Proof. intros [Hr Hn] Hle. split; [exact Hr | lia]. Qed.

Lemma sendsAtLeast_bind (m : M error unit) (k : unit -> M error unit) (a b : nat) :
  sendsAtLeast m a -> sendsAtLeast (k tt) b -> sendsAtLeast (bind m k) (a + b).
Proof.
  destruct m as [t r]. intros [Hr Hn] [Hr' Hn']. simpl in Hr, Hn. subst r.
  rewrite bind_ret. split; [exact Hr' |]. cbn [fst].
  rewrite calls_app, length_app. lia.
Qed.

Lemma sendsAtLeast_visit (recurse : ListCompartmentsRequest -> nat -> M error unit)
    (depth : nat) (t : ctree) :
  sendsAtLeast (recurse {| LCReq_CompartmentId := Some (ctree_id t); LCReq_Page := None |}
                        (depth + 1))
               (S (list_sum (map nodes (ctree_children t)))) ->
  sendsAtLeast (visitCompartment recurse depth (compartmentOf t)) (nodes t).
Proof.
  destruct t as [id name description children]. intros [Hr Hn].
  unfold visitCompartment.
  cbn [compartmentOf Compartment_Id Compartment_Name Compartment_Description
       deref ctree_id ctree_children nodes] in *.
  rewrite !bind_ret_l. unfold print. rewrite bind_ret.
  split; [exact Hr |]. cbn [fst]. rewrite calls_app. exact Hn.
Qed.

Lemma sendsAtLeast_loop (recurse : ListCompartmentsRequest -> nat -> M error unit)
    (depth : nat) (ts : list ctree) :
  (forall t, In t ts ->
     sendsAtLeast (recurse {| LCReq_CompartmentId := Some (ctree_id t);
                              LCReq_Page := None |} (depth + 1))
                  (S (list_sum (map nodes (ctree_children t))))) ->
  sendsAtLeast (forRange (map compartmentOf ts) (visitCompartment recurse depth))
               (list_sum (map nodes ts)).
Proof.
  induction ts as [| t rest IH]; intros Hsub.
  - split; [reflexivity | simpl; lia].
  - cbn [map forRange list_sum]. apply sendsAtLeast_bind.
    + apply sendsAtLeast_visit. apply Hsub. left. reflexivity.
    + apply IH. intros t' Hin. apply Hsub. right. exact Hin.
Qed.

Lemma sendsAtLeast_call (client : IdentityClient) (request : ListCompartmentsRequest)
    (response : ListCompartmentsResponse)
    (k : ListCompartmentsResponse -> M error unit) (n : nat) :
  ListCompartments client request = inl response ->
  sendsAtLeast (k response) n ->
  sendsAtLeast (bind (call (ListCompartmentsCall request)
                           (ListCompartments client request)) k) (S n).
Proof.
  intros Hlist [Hr Hn]. rewrite Hlist. cbn [call]. rewrite bind_ret.
  split; [exact Hr |]. cbn [fst]. rewrite calls_app. cbn [calls filter app List.length].
  lia.
Qed.

Lemma listCompartmentsRecursive_sendsAtLeast (client : IdentityClient)
    (scope page : option string) (ts : list ctree) :
  serves client scope page ts ->
  exists n, forall fuel, n <= fuel -> forall depth,
    sendsAtLeast (listCompartmentsRecursive fuel client
                    {| LCReq_CompartmentId := scope; LCReq_Page := page |} depth)
                 (S (list_sum (map nodes ts))).
Proof.
  induction 1 as [scope page ts Hlist _ IHsub
                 | scope page token ts rest Hlist _ IHsub _ IHrest].
  - destruct (uniform_fuel _ ts IHsub) as [n Hn].
    exists (S n). intros [| fuel] Hfuel depth; [lia |].
    cbn [listCompartmentsRecursive].
    apply (sendsAtLeast_call _ _ _ _ _ Hlist).
    cbn [LCResp_Items LCResp_OpcNextPage].
    apply (sendsAtLeast_le _ (list_sum (map nodes ts) + 0)); [| lia].
    apply sendsAtLeast_bind; [| split; [reflexivity | simpl; lia]].
    apply sendsAtLeast_loop. intros t Hin. apply (Hn t Hin). lia.
  - destruct (uniform_fuel _ ts IHsub) as [n1 Hn1].
    destruct IHrest as [n2 Hn2].
    exists (S (Nat.max n1 n2)). intros [| fuel] Hfuel depth; [lia |].
    cbn [listCompartmentsRecursive].
    apply (sendsAtLeast_call _ _ _ _ _ Hlist).
    cbn [LCResp_Items LCResp_OpcNextPage LCReq_CompartmentId].
    apply (sendsAtLeast_le _ (list_sum (map nodes ts)
                              + S (list_sum (map nodes rest))));
      [| rewrite map_app, list_sum_app; lia].
    apply sendsAtLeast_bind.
    + apply sendsAtLeast_loop. intros t Hin. apply (Hn1 t Hin). lia.
    + apply Hn2. lia.
Qed.

(** X11: the walk costs at least one listing request for every compartment,
    a leaf as well, and one for the scope it starts from: over a served
    forest of [N] compartments, with enough fuel, it sends [N + 1] requests
    or more (one more for every continuation token). *)
Theorem listCompartmentsRecursive_request_per_compartment :
  forall (client : IdentityClient) (scope page : option string) (ts : list ctree),
    serves client scope page ts ->
    exists n, forall fuel, n <= fuel -> forall depth,
      S (list_sum (map nodes ts))
      <= List.length (calls (fst (listCompartmentsRecursive fuel client
                                    {| LCReq_CompartmentId := scope;
                                       LCReq_Page := page |} depth))).
Proof.
  intros client scope page ts Hserves.
  destruct (listCompartmentsRecursive_sendsAtLeast client scope page ts Hserves)
    as [n Hn].
  exists n. intros fuel Hfuel depth. apply (Hn fuel Hfuel depth).
Qed.

Lemma listCompartmentsRecursive_request_per_compartment_witness :
  exists n, forall fuel, n <= fuel -> forall depth,
    5 <= List.length (calls (fst (listCompartmentsRecursive fuel sample.identityClient
                                    {| LCReq_CompartmentId := Some sample.tenancy;
                                       LCReq_Page := None |} depth))).
Proof.
  exact (listCompartmentsRecursive_request_per_compartment sample.identityClient
           (Some sample.tenancy) None sample.forest sample_serves).
Defined.

(** ** [instances create]: the launch request *)

Lemma wrapErr_snd_ret {E E' A} (wrap : E -> E') (m : M E A) (a : A) :
  snd (wrapErr wrap m) = Ret a -> snd m = Ret a.
Proof. destruct m as [t [a' | e | |]]; simpl; congruence. Qed.

Lemma local_snd_ret {A} (answer : A + error) (a : A) :
  snd (local answer) = Ret a -> answer = inl a.
Proof. destruct answer; simpl; [congruence | discriminate]. Qed.

Lemma plain_no_launch {E A} (m : M E A) : plain m -> filter isLaunch (fst m) = [].
Proof.
  intros [H _]. induction H as [| ev t Hev _ IH]; [reflexivity |].
  cbn [filter]. rewrite Hev. exact IH.
Qed.

Lemma resolveShapeNameToID_ret shapeName compartmentID imageID client a :
  snd (resolveShapeNameToID shapeName compartmentID imageID client) = Ret a ->
  a = shapeName.
Proof.
  unfold resolveShapeNameToID.
  destruct (ListShapes client _) as [response | err]; cbn [call wrapErr];
    [| discriminate].
  rewrite bind_ret. cbn [snd].
  destruct (existsb (shapeIs shapeName) (LSResp_Items response)); [| discriminate].
  intros [= <-]. reflexivity.
Qed.

Lemma launchDiscipline_bind {A} (sent accepted : LaunchInstanceRequest -> Prop)
    (m : M string A) (k : A -> M string unit) :
  plain m ->
  (forall a, snd m = Ret a -> launchDiscipline sent accepted (k a)) ->
  launchDiscipline sent accepted (bind m k).
Proof.
  intros Hplain Hk. pose proof (plain_no_launch m Hplain) as Hquiet.
  destruct m as [t [a | msg | |]]; cbn [fst snd] in *.
  - rewrite bind_ret. unfold launchDiscipline. cbn [fst snd].
    rewrite filter_app, Hquiet. exact (Hk a eq_refl).
  - left. split; [exact Hquiet | discriminate].
  - left. split; [exact Hquiet | discriminate].
  - left. split; [exact Hquiet | discriminate].
Qed.

Lemma launchDiscipline_launch (sent accepted : LaunchInstanceRequest -> Prop)
    (client : ComputeClient) (request : LaunchInstanceRequest)
    (msg : error -> string) (k : LaunchInstanceResponse -> M string unit) :
  sent request ->
  (forall response, plain (k response)) ->
  (forall response,
     LaunchInstance client request = inl response ->
     snd (k response) = Ret tt -> accepted request) ->
  launchDiscipline sent accepted
    (bind (wrapErr msg (call (LaunchInstanceCall request)
                             (LaunchInstance client request))) k).
Proof.
  intros Hsent Hplain Haccepted. right. exists request.
  destruct (LaunchInstance client request) as [response | err] eqn:Hlaunch;
    cbn [call wrapErr].
  - rewrite bind_ret. cbn [fst snd app filter isLaunch].
    rewrite (plain_no_launch _ (Hplain response)).
    split; [reflexivity |]. split; [exact Hsent |].
    apply (Haccepted response eq_refl).
  - split; [reflexivity |]. split; [exact Hsent | discriminate].
Qed.

Lemma createCmd_launchDiscipline (w : World) (f : createFlags) :
  launchDiscipline (launchedWith w f) (launchAccepted w f) (createCmd w f).
Proof.
  unfold createCmd, orFatalf.
  apply launchDiscipline_bind;
    [apply plain_wrapErr, plain_local | intros computeClient Hclient].
  apply wrapErr_snd_ret, local_snd_ret in Hclient.
  apply launchDiscipline_bind;
    [ destruct (negb (String.eqb (compartmentInput f) EmptyString));
      apply plain_wrapErr; [apply plain_resolveCompartmentID | apply plain_local]
    | intros compartmentID Hcompartment ].
  assert (Hcompartment' :
            if String.eqb (compartmentInput f) EmptyString
            then TenancyOCID w (configProviderOf (profileFlag f)) = inl compartmentID
            else snd (resolveCompartmentID w (compartmentInput f)
                        (configProviderOf (profileFlag f))) = Ret compartmentID).
  { destruct (String.eqb (compartmentInput f) EmptyString); cbn [negb] in Hcompartment;
      apply wrapErr_snd_ret in Hcompartment;
      [apply local_snd_ret in Hcompartment |]; exact Hcompartment. }
  clear Hcompartment.
  apply launchDiscipline_bind; [apply plain_print | intros _ _].
  apply launchDiscipline_bind;
    [apply plain_wrapErr, plain_local | intros tenancyOCID Htenancy].
  apply wrapErr_snd_ret, local_snd_ret in Htenancy.
  apply launchDiscipline_bind;
    [apply plain_wrapErr, plain_resolveImageNameToID | intros imageID Himage].
  apply wrapErr_snd_ret in Himage.
  apply launchDiscipline_bind; [apply plain_print | intros _ _].
  apply launchDiscipline_bind;
    [apply plain_wrapErr, plain_resolveShapeNameToID | intros shape Hshape].
  apply wrapErr_snd_ret in Hshape.
  pose proof (resolveShapeNameToID_ret _ _ _ _ _ Hshape) as ->.
  apply launchDiscipline_bind; [apply plain_print | intros _ _].
  apply launchDiscipline_bind; [apply plain_print | intros _ _].
  destruct (String.eqb (sshKeysString (publicKeysFlag f)) EmptyString) eqn:Hkeys.
  { left. split; [reflexivity | discriminate]. }
  apply String.eqb_neq in Hkeys. rewrite bind_ret_l.
  apply launchDiscipline_bind; [apply plain_print | intros _ _].
  apply launchDiscipline_launch.
  - exists computeClient, compartmentID, tenancyOCID, imageID.
    split; [| reflexivity]. repeat (split; [assumption |]). assumption.
  - intros response. apply plain_bind; [apply plain_deref | intros id].
    apply plain_bind; [apply plain_print | intros _; apply plain_print].
  - intros response Hlaunch Hend.
    destruct (Instance_Id (LIR_Instance response)) as [id |] eqn:Hid;
      [| discriminate Hend].
    exists computeClient, response, id. auto.
Qed.

Lemma launch_of_discipline (sent accepted : LaunchInstanceRequest -> Prop)
    (m : M string unit) (request : LaunchInstanceRequest) :
  launchDiscipline sent accepted m ->
  In (LaunchInstanceCall request) (fst m) ->
  sent request.
Proof.
  intros Hd Hin.
  assert (Hf : In (LaunchInstanceCall request) (filter isLaunch (fst m)))
    by (apply filter_In; split; [exact Hin | reflexivity]).
  destruct Hd as [[Hnone _] | [request' [Hone [Hsent _]]]].
  - rewrite Hnone in Hf. contradiction.
  - rewrite Hone in Hf. destruct Hf as [[= ->] | []]. exact Hsent.
Qed.

(** X12: [instances create] launches only what it resolved.  Whenever a
    launch request is sent, the compute client was made, the compartment was
    resolved (or, with no [--compartment-id], is the tenancy), image
    resolution returned an image for that compartment, shape validation
    accepted the shape for that image and compartment, and there is a key;
    the request names that compartment, that image and that shape. *)
Theorem createCmd_launches_what_it_resolved :
  forall (w : World) (f : createFlags) (request : LaunchInstanceRequest),
    In (LaunchInstanceCall request) (fst (createCmd w f)) ->
    exists (computeClient : ComputeClient)
           (compartmentID tenancyOCID imageID : string),
      readyToLaunch w f computeClient compartmentID tenancyOCID imageID
      /\ LID_CompartmentId (LIR_LaunchInstanceDetails request) = Some compartmentID
      /\ ImageId (LID_SourceDetails (LIR_LaunchInstanceDetails request)) = Some imageID
      /\ LID_Shape (LIR_LaunchInstanceDetails request) = Some (shapeNameFlag f).
Proof.
  intros w f request Hin.
  destruct (launch_of_discipline _ _ _ request (createCmd_launchDiscipline w f) Hin)
    as [computeClient [compartmentID [tenancyOCID [imageID [Hready ->]]]]].
  exists computeClient, compartmentID, tenancyOCID, imageID.
  split; [exact Hready |]. repeat split.
Qed.

Lemma sample_launch :
  In (LaunchInstanceCall
        (launchRequestFor sample.world (sample.flags "ssh-rsa AAA")
           sample.prodId sample.ubuntuId))
     (fst (createCmd sample.world (sample.flags "ssh-rsa AAA"))).
Proof. vm_compute. repeat (first [left; reflexivity | right]). Qed.

Lemma createCmd_launches_what_it_resolved_witness :
  exists (computeClient : ComputeClient)
         (compartmentID tenancyOCID imageID : string),
    readyToLaunch sample.world (sample.flags "ssh-rsa AAA")
      computeClient compartmentID tenancyOCID imageID
    /\ Some sample.prodId = Some compartmentID
    /\ Some sample.ubuntuId = Some imageID
    /\ Some "VM.Standard.A1.Flex" = Some "VM.Standard.A1.Flex".
Proof.
  exact (createCmd_launches_what_it_resolved sample.world
           (sample.flags "ssh-rsa AAA") _ sample_launch).
Defined.

(** X13: the parts of a launch request that come from the flags.  Whenever a
    launch request is sent: the availability domain and the subnet are the
    flags' values as given; the display name is [--name], or [instance-]
    followed by the time when [--name] is empty; the metadata is the single
    entry [ssh_authorized_keys] with the value built from the keys, and some
    entry of [--public-keys] is a key; the shape configuration is left out
    exactly when [--ocpus] and [--memory-in-gbs] are both zero, and carries
    both values otherwise. *)
Theorem createCmd_launch_request_fields :
  forall (w : World) (f : createFlags) (request : LaunchInstanceRequest),
    In (LaunchInstanceCall request) (fst (createCmd w f)) ->
    LID_AvailabilityDomain (LIR_LaunchInstanceDetails request) = Some (adFlag f)
    /\ LID_CreateVnicDetails (LIR_LaunchInstanceDetails request)
       = Some {| SubnetId := Some (subnetIDFlag f) |}
    /\ LID_DisplayName (LIR_LaunchInstanceDetails request)
       = Some (if String.eqb (nameFlag f) EmptyString
               then ("instance-" ++ timeNow w)%string
               else nameFlag f)
    /\ LID_Metadata (LIR_LaunchInstanceDetails request)
       = [("ssh_authorized_keys", sshKeysString (publicKeysFlag f))]
    /\ ~ noValidKey (publicKeysFlag f)
    /\ (LID_ShapeConfig (LIR_LaunchInstanceDetails request) = None
        <-> float32_neq0 (ocpusFlag f) = false
            /\ float32_neq0 (memoryInGBsFlag f) = false)
    /\ (LID_ShapeConfig (LIR_LaunchInstanceDetails request) = None
        \/ LID_ShapeConfig (LIR_LaunchInstanceDetails request)
           = Some {| Ocpus := Some (ocpusFlag f);
                     MemoryInGBs := Some (memoryInGBsFlag f) |}).
Proof.
  intros w f request Hin.
  destruct (launch_of_discipline _ _ _ request (createCmd_launchDiscipline w f) Hin)
    as [computeClient [compartmentID [tenancyOCID [imageID [Hready ->]]]]].
  destruct Hready as (_ & _ & _ & _ & _ & Hkeys).
  cbn [launchRequestFor LIR_LaunchInstanceDetails LID_AvailabilityDomain
       LID_CreateVnicDetails LID_DisplayName LID_Metadata LID_ShapeConfig].
  repeat (split; [reflexivity |]).
  split; [intros Hno; apply Hkeys, sshKeysString_no_key, Hno |].
  split.
  - destruct (float32_neq0 (ocpusFlag f)); destruct (float32_neq0 (memoryInGBsFlag f));
      cbn [orb]; split; try discriminate; try (intros [? ?]; discriminate);
      intros _; split; reflexivity.
  - destruct (float32_neq0 (ocpusFlag f)); destruct (float32_neq0 (memoryInGBsFlag f));
      cbn [orb]; [right | right | right | left]; reflexivity.
Qed.

Lemma flex_launch :
  In (LaunchInstanceCall
        (launchRequestFor sample.world flex.flags sample.tenancy sample.ubuntuId))
     (fst (createCmd sample.world flex.flags)).
Proof. vm_compute. repeat (first [left; reflexivity | right]). Qed.

Lemma createCmd_launch_request_fields_witness :
  LID_DisplayName
    (LIR_LaunchInstanceDetails
       (launchRequestFor sample.world flex.flags sample.tenancy sample.ubuntuId))
  = Some "instance-20250101-0900"
  /\ LID_ShapeConfig
       (LIR_LaunchInstanceDetails
          (launchRequestFor sample.world flex.flags sample.tenancy sample.ubuntuId))
     = Some {| Ocpus := Some (S754_finite false BinNums.xH BinNums.Z0);
               MemoryInGBs := Some (S754_zero false) |}.
Proof.
  pose proof (createCmd_launch_request_fields sample.world flex.flags _ flex_launch)
    as (_ & _ & Hname & _ & _ & _ & Hconfig).
  split; [exact Hname |].
  destruct Hconfig as [Hnone | Hsome]; [discriminate Hnone | exact Hsome].
Defined.

(** X14: a run of [instances create] sends at most one launch request, and
    it ends normally only if it sent one, the service accepted it and the
    answer carries the identifier of the new instance. *)
Theorem createCmd_one_launch_at_most :
  forall (w : World) (f : createFlags),
    List.length (filter isLaunch (fst (createCmd w f))) <= 1
    /\ (snd (createCmd w f) = Ret tt ->
        exists (request : LaunchInstanceRequest) (computeClient : ComputeClient)
               (response : LaunchInstanceResponse) (id : string),
          In (LaunchInstanceCall request) (fst (createCmd w f))
          /\ NewComputeClientWithConfigurationProvider w
               (configProviderOf (profileFlag f)) = inl computeClient
          /\ LaunchInstance computeClient request = inl response
          /\ Instance_Id (LIR_Instance response) = Some id).
Proof.
  intros w f.
  destruct (createCmd_launchDiscipline w f)
    as [[Hnone Hend] | [request [Hone [_ Haccepted]]]].
  - rewrite Hnone. split; [simpl; lia |]. intros H. contradiction.
  - rewrite Hone. split; [simpl; lia |]. intros Hret.
    destruct (Haccepted Hret) as [computeClient [response [id [Hc [Hl Hid]]]]].
    exists request, computeClient, response, id.
    split; [| auto].
    assert (Hin : In (LaunchInstanceCall request)
                     (filter isLaunch (fst (createCmd w f))))
      by (rewrite Hone; left; reflexivity).
    apply filter_In in Hin. apply Hin.
Qed.

Lemma reaches_bind {E A B} (m : M E A) (k : A -> M E B) (a : A) (ev : event)
    (out : outcome E B) :
  snd m = Ret a ->
  In ev (fst (k a)) /\ snd (k a) = out ->
  In ev (fst (bind m k)) /\ snd (bind m k) = out.
Proof.
  destruct m as [t r]. cbn [snd]. intros -> [Hin Hout]. rewrite bind_ret.
  split; [apply in_or_app; right; exact Hin | exact Hout].
Qed.

Lemma wrapErr_snd_ret_intro {E E' A} (wrap : E -> E') (m : M E A) (a : A) :
  snd m = Ret a -> snd (wrapErr wrap m) = Ret a.
Proof. destruct m as [t r]. cbn [snd]. intros ->. reflexivity. Qed.

(** X15: once the compute client is made, the compartment, the tenancy and
    the image are resolved, the shape is accepted and there is a key, and
    [--ocpus] and [--memory-in-gbs] being numbers (neither NaN nor an
    infinity, which the flags accept and the SDK cannot put in a request),
    [instances create] calls [LaunchInstance] with the launch request built
    from them, and the answer to that call decides how the run ends:
    normally when the service accepts and names the instance, with the fatal
    message of the launch when the call fails, with a panic when the answer
    carries no identifier. *)
Theorem createCmd_launches_when_ready :
  forall (w : World) (f : createFlags) (computeClient : ComputeClient)
         (compartmentID tenancyOCID imageID : string),
    readyToLaunch w f computeClient compartmentID tenancyOCID imageID ->
    float32_finite (ocpusFlag f) = true ->
    float32_finite (memoryInGBsFlag f) = true ->
    In (LaunchInstanceCall (launchRequestFor w f compartmentID imageID))
       (fst (createCmd w f))
    /\ snd (createCmd w f)
       = match LaunchInstance computeClient
                 (launchRequestFor w f compartmentID imageID) with
         | inl response =>
             match Instance_Id (LIR_Instance response) with
             | Some _ => Ret tt
             | None => Panic
             end
         | inr err => Fail ("Error launching instance: " ++ Error err)%string
         end.
Proof.
  intros w f computeClient compartmentID tenancyOCID imageID
         (Hclient & Hcompartment & Htenancy & Himage & Hshape & Hkeys) _ _.
  unfold createCmd, orFatalf.
  apply (reaches_bind _ _ computeClient); [rewrite Hclient; reflexivity |].
  apply (reaches_bind _ _ compartmentID).
  { destruct (String.eqb (compartmentInput f) EmptyString); cbn [negb].
    - rewrite Hcompartment. reflexivity.
    - apply wrapErr_snd_ret_intro. exact Hcompartment. }
  apply (reaches_bind _ _ tt); [reflexivity |].
  apply (reaches_bind _ _ tenancyOCID); [rewrite Htenancy; reflexivity |].
  apply (reaches_bind _ _ imageID); [apply wrapErr_snd_ret_intro; exact Himage |].
  apply (reaches_bind _ _ tt); [reflexivity |].
  apply (reaches_bind _ _ (shapeNameFlag f));
    [apply wrapErr_snd_ret_intro; exact Hshape |].
  apply (reaches_bind _ _ tt); [reflexivity |].
  apply (reaches_bind _ _ tt); [reflexivity |].
  apply String.eqb_neq in Hkeys. rewrite Hkeys.
  apply (reaches_bind _ _ tt); [reflexivity |].
  apply (reaches_bind _ _ tt); [reflexivity |].
  fold (launchRequestFor w f compartmentID imageID).
  destruct (LaunchInstance computeClient (launchRequestFor w f compartmentID imageID))
    as [response | err]; cbn [call wrapErr].
  - rewrite bind_ret. cbn [fst snd]. split; [left; reflexivity |].
    destruct (Instance_Id (LIR_Instance response)); reflexivity.
  - split; [left; reflexivity | reflexivity].
Qed.

Lemma createCmd_launches_when_ready_witness :
  In (LaunchInstanceCall
        (launchRequestFor sample.world flex.flags sample.tenancy sample.ubuntuId))
     (fst (createCmd sample.world flex.flags))
  /\ snd (createCmd sample.world flex.flags) = Ret tt.
Proof.
  apply (createCmd_launches_when_ready sample.world flex.flags sample.computeClient
           sample.tenancy sample.tenancy sample.ubuntuId);
    [| reflexivity | reflexivity].
  repeat split. discriminate.
Defined.

(** ** [compartments list] *)

Lemma listCompartmentsCmd_walk (fuel : nat) (w : World) (profileFlag : string)
    (tenancyOCID : string) (client : IdentityClient) :
  TenancyOCID w (configProviderOf profileFlag) = inl tenancyOCID ->
  NewIdentityClientWithConfigurationProvider w (configProviderOf profileFlag)
  = inl client ->
  listCompartmentsCmd fuel w profileFlag
  = wrapErr (fun err => logFatal (Error err))
      (listCompartmentsRecursive fuel client
         {| LCReq_CompartmentId := Some tenancyOCID; LCReq_Page := None |} 0).
Proof.
  intros Hten Hcli. unfold listCompartmentsCmd. rewrite Hten, Hcli.
  cbn [local orExit ret]. rewrite !bind_ret_nil. reflexivity.
Qed.

(** X16: [compartments list] prints the tenancy's tree.  With the tenancy
    read and the identity client made, against a service that serves a forest
    of compartments under the tenancy, however paged, the command with enough
    fuel ends normally and its output is the pre-order lines of the forest,
    the compartments right under the tenancy not indented. *)
Theorem listCompartmentsCmd_prints_tree :
  forall (w : World) (profileFlag tenancyOCID : string) (client : IdentityClient)
         (ts : list ctree),
    TenancyOCID w (configProviderOf profileFlag) = inl tenancyOCID ->
    NewIdentityClientWithConfigurationProvider w (configProviderOf profileFlag)
    = inl client ->
    serves client (Some tenancyOCID) None ts ->
    exists n, forall fuel, n <= fuel ->
      snd (listCompartmentsCmd fuel w profileFlag) = Ret tt
      /\ printed (fst (listCompartmentsCmd fuel w profileFlag))
         = flat_map (preorder 0) ts.
Proof.
  intros w profileFlag tenancyOCID client ts Hten Hcli Hserves.
  destruct (listCompartmentsRecursive_serves client _ _ ts Hserves) as [n Hn].
  exists n. intros fuel Hfuel.
  rewrite (listCompartmentsCmd_walk fuel w profileFlag tenancyOCID client Hten Hcli).
  destruct (Hn fuel Hfuel 0) as [Hr Hp]. rewrite wrapErr_fst.
  split; [apply wrapErr_snd_ret_intro; exact Hr | exact Hp].
Qed.

Lemma listCompartmentsCmd_prints_tree_witness :
  exists n, forall fuel, n <= fuel ->
    snd (listCompartmentsCmd fuel sample.world EmptyString) = Ret tt
    /\ printed (fst (listCompartmentsCmd fuel sample.world EmptyString))
       = flat_map (preorder 0) sample.forest.
Proof.
  exact (listCompartmentsCmd_prints_tree sample.world EmptyString sample.tenancy
           sample.identityClient sample.forest eq_refl eq_refl sample_serves).
Defined.

(** X17: how [compartments list] fails.  A tenancy that cannot be read and
    an identity client that cannot be made each end the command with status
    1 after one printed line and before any request.  A listing request the
    service refuses is the last event of the run, whatever was printed
    before, and the command ends with [log.Fatal] on the error of that
    request. *)
Theorem listCompartmentsCmd_failures :
  forall (fuel : nat) (w : World) (profileFlag : string),
    (forall err,
        TenancyOCID w (configProviderOf profileFlag) = inr err ->
        listCompartmentsCmd fuel w profileFlag
        = ([Stdout ("Error getting tenancy OCID: " ++ Error err ++ LF)%string],
           Fail (osExit 1)))
    /\ (forall tenancyOCID err,
          TenancyOCID w (configProviderOf profileFlag) = inl tenancyOCID ->
          NewIdentityClientWithConfigurationProvider w (configProviderOf profileFlag)
          = inr err ->
          listCompartmentsCmd fuel w profileFlag
          = ([Stdout ("Error creating identity client: " ++ Error err ++ LF)%string],
             Fail (osExit 1)))
    /\ (forall tenancyOCID client pre refused post err,
          TenancyOCID w (configProviderOf profileFlag) = inl tenancyOCID ->
          NewIdentityClientWithConfigurationProvider w (configProviderOf profileFlag)
          = inl client ->
          fst (listCompartmentsCmd fuel w profileFlag)
          = pre ++ ListCompartmentsCall refused :: post ->
          ListCompartments client refused = inr err ->
          post = []
          /\ snd (listCompartmentsCmd fuel w profileFlag)
             = Fail (logFatal (Error err))).
Proof.
  intros fuel w profileFlag. split; [| split].
  - intros err Hten. unfold listCompartmentsCmd. rewrite Hten. reflexivity.
  - intros tenancyOCID err Hten Hcli. unfold listCompartmentsCmd.
    rewrite Hten, Hcli. reflexivity.
  - intros tenancyOCID client pre refused post err Hten Hcli.
    rewrite (listCompartmentsCmd_walk fuel w profileFlag tenancyOCID client Hten Hcli).
    rewrite wrapErr_fst. intros Htrace Hrefused.
    destruct (listCompartmentsRecursive_abortsAtFailure fuel client
                {| LCReq_CompartmentId := Some tenancyOCID; LCReq_Page := None |} 0
                pre refused post err Htrace Hrefused) as [Hpost Hfail].
    split; [exact Hpost |].
    destruct (listCompartmentsRecursive fuel client _ 0) as [t r].
    cbn [snd] in Hfail. subst r. reflexivity.
Qed.

Lemma listCompartmentsCmd_failures_witness :
  snd (listCompartmentsCmd 5 edge.refusedWorld EmptyString)
  = Fail (logFatal "NotAuthorizedOrNotFound").
Proof.
  apply (proj2 (proj2 (listCompartmentsCmd_failures 5 edge.refusedWorld EmptyString))
           sample.tenancy sample.refusingClient
           [ ListCompartmentsCall
               {| LCReq_CompartmentId := Some sample.tenancy; LCReq_Page := None |};
             Stdout (compartmentLine 0 sample.prodId "prod" "production");
             ListCompartmentsCall
               {| LCReq_CompartmentId := Some sample.prodId; LCReq_Page := None |};
             Stdout (compartmentLine 1 sample.dbId "db" "databases") ]
           {| LCReq_CompartmentId := Some sample.dbId; LCReq_Page := None |}
           [] (ServiceError "NotAuthorizedOrNotFound") eq_refl eq_refl eq_refl eq_refl).
Defined.

(** ** The earlier revision of compartment resolution *)





(** ** Steps of the commands' trace monad *)

Lemma cbind_ret {E A B} (t : list cmdEvent) (a : A) (k : A -> Cmd E B) :
  cbind (t, Ret a) k = (t ++ fst (k a), snd (k a)).
Proof. unfold cbind. destruct (k a); reflexivity. Qed.

Lemma cbind_ret_nil {E A B} (a : A) (k : A -> Cmd E B) : cbind ([], Ret a) k = k a.
Proof. unfold cbind. destruct (k a); reflexivity. Qed.

Lemma cbind_cret {E A B} (a : A) (k : A -> Cmd E B) : cbind (cret a) k = k a.
Proof. apply cbind_ret_nil. Qed.

Lemma requests_app (t1 t2 : list cmdEvent) :
  requests (t1 ++ t2) = requests t1 ++ requests t2.
Proof. unfold requests. apply filter_app. Qed.

Lemma output_app (t1 t2 : list cmdEvent) : output (t1 ++ t2) = output t1 ++ output t2.
Proof. unfold output. apply flat_map_app. Qed.

Lemma requests_Earlier (t : list event) :
  requests (map Earlier t) = map Earlier (calls t).
Proof.
  unfold requests, calls.
  induction t as [| ev t IH]; [reflexivity |].
  destruct ev; cbn [map filter]; rewrite IH; reflexivity.
Qed.

Lemma output_Earlier (t : list event) : output (map Earlier t) = printed t.
Proof.
  unfold output, printed.
  induction t as [| ev t IH]; [reflexivity |].
  destruct ev; cbn [map flat_map app]; rewrite IH; reflexivity.
Qed.

(** ** [instances list] *)

Lemma listCmd_loop {E} (items : list InstanceDetails) :
  Forall listable items ->
  @cforRange E _ items (fun instance =>
    id <~ cderef (ID_Id instance) ;;
    displayName <~ cderef (ID_DisplayName instance) ;;
    cprint (instanceLine id displayName (ID_LifecycleState instance)))
  = (map (fun line => Earlier (Stdout line)) (flat_map instanceLineOf items), Ret tt).
Proof.
  induction 1 as [| instance rest [Hid Hname] _ IH]; [reflexivity |].
  cbn [cforRange]. rewrite IH. clear IH.
  unfold instanceLineOf at 2. cbn [flat_map].
  destruct (ID_Id instance) as [id |]; [| congruence].
  destruct (ID_DisplayName instance) as [displayName |]; [| congruence].
  reflexivity.
Qed.

(** X19: what [instances list] lists.  With [--tenancy] given, whatever
    [--compartment-id] says, and also with neither flag, the one request of
    the command is the instance listing of the tenancy: the compartment
    input is not resolved.  With [--compartment-id] alone, the requests of
    compartment resolution come first and the listing is that of the
    resolved compartment.  Either way, when every listed instance has its
    identifier and its display name, the output is one line per instance, in
    the order of the answer, and the command ends normally. *)
Theorem listCmd_scope_and_output :
  forall (w : World) (instancesOf : ComputeClient -> InstancesClient)
         (compartmentInput tenancyFlag profileFlag : string)
         (computeClient : ComputeClient),
    NewComputeClientWithConfigurationProvider w (configProviderOf profileFlag)
    = inl computeClient ->
    (forall (tenancyOCID : string) (response : ListInstancesResponse),
        tenancyFlag <> EmptyString \/ compartmentInput = EmptyString ->
        TenancyOCID w (configProviderOf profileFlag) = inl tenancyOCID ->
        ListInstances (instancesOf computeClient)
          {| LInReq_CompartmentId := Some tenancyOCID |} = inl response ->
        Forall listable (LInResp_Items response) ->
        listCmd w instancesOf compartmentInput tenancyFlag profileFlag
        = (ListInstancesCall {| LInReq_CompartmentId := Some tenancyOCID |}
           :: map (fun line => Earlier (Stdout line))
                  (flat_map instanceLineOf (LInResp_Items response)),
           Ret tt))
    /\ (forall (t : list event) (compartmentID : string)
               (response : ListInstancesResponse),
          tenancyFlag = EmptyString ->
          compartmentInput <> EmptyString ->
          resolveCompartmentID w compartmentInput (configProviderOf profileFlag)
          = (t, Ret compartmentID) ->
          ListInstances (instancesOf computeClient)
            {| LInReq_CompartmentId := Some compartmentID |} = inl response ->
          Forall listable (LInResp_Items response) ->
          listCmd w instancesOf compartmentInput tenancyFlag profileFlag
          = (map Earlier t
             ++ ListInstancesCall {| LInReq_CompartmentId := Some compartmentID |}
                :: map (fun line => Earlier (Stdout line))
                       (flat_map instanceLineOf (LInResp_Items response)),
             Ret tt)).
Proof.
  intros w instancesOf compartmentInput tenancyFlag profileFlag computeClient Hcc.
  split.
  - intros tenancyOCID response Hflags Hten Hlist Hitems.
    unfold listCmd.
    assert (Hscope :
      (if negb (String.eqb tenancyFlag EmptyString) then
         corFatal (fun err => ("Error getting tenancy OCID: " ++ Error err)%string)
           (lift (local (TenancyOCID w (configProviderOf profileFlag))))
       else if negb (String.eqb compartmentInput EmptyString) then
         corFatal (fun err => ("Error resolving compartment: " ++ Error err)%string)
           (lift (resolveCompartmentID w compartmentInput
                    (configProviderOf profileFlag)))
       else
         corFatal (fun err => ("Error getting tenancy OCID for default: "
                               ++ Error err)%string)
           (lift (local (TenancyOCID w (configProviderOf profileFlag)))))
      = ([], Ret tenancyOCID)).
    { rewrite Hten.
      destruct (String.eqb tenancyFlag EmptyString) eqn:Htf; cbn [negb];
        [| reflexivity].
      apply String.eqb_eq in Htf. destruct Hflags as [H | ->]; [contradiction |].
      reflexivity. }
    rewrite Hscope, cbind_ret_nil, Hcc. cbn [local lift corFatal ret fst snd map].
    rewrite cbind_ret_nil, Hlist. cbn [ccall corFatal]. rewrite cbind_ret.
    rewrite (listCmd_loop _ Hitems). reflexivity.
  - intros t compartmentID response Htf Hci Hresolve Hlist Hitems.
    unfold listCmd. subst tenancyFlag. apply String.eqb_neq in Hci.
    rewrite Hci, Hresolve. cbn [String.eqb negb lift corFatal fst snd].
    rewrite cbind_ret, Hcc. cbn [local lift corFatal ret fst snd map].
    rewrite cbind_ret_nil, Hlist. cbn [ccall corFatal]. rewrite cbind_ret.
    rewrite (listCmd_loop _ Hitems). reflexivity.
Qed.

Lemma listCmd_scope_and_output_witness :
  listCmd sample.world (fun _ => fleet.instancesClient) "prod" "yes" EmptyString
  = ([ListInstancesCall {| LInReq_CompartmentId := Some sample.tenancy |}], Ret tt)
  /\ output (fst (listCmd sample.world (fun _ => fleet.instancesClient) "prod"
                    EmptyString EmptyString))
     = [ instanceLine "ocid1.instance.oc1..db1" "db" "RUNNING";
         instanceLine "ocid1.instance.oc1..web1" "web" "RUNNING";
         instanceLine "ocid1.instance.oc1..web2" "web" "STOPPED" ].
Proof.
  split.
  - apply (proj1 (listCmd_scope_and_output sample.world (fun _ => fleet.instancesClient)
                    "prod" "yes" EmptyString sample.computeClient eq_refl)
             sample.tenancy {| LInResp_Items := [] |});
      [left; discriminate | reflexivity | reflexivity | constructor].
  - rewrite (proj2 (listCmd_scope_and_output sample.world
                      (fun _ => fleet.instancesClient)
                      "prod" EmptyString EmptyString sample.computeClient eq_refl)
               _ sample.prodId {| LInResp_Items := [fleet.db1; fleet.web1; fleet.web2] |}
               eq_refl ltac:(discriminate) eq_refl eq_refl
               ltac:(repeat constructor; discriminate)).
    reflexivity.
Defined.

(** ** [instances info] *)

(** X20: [instances info] checks its flags before anything else.  With both
    [--id] and [--name], and with neither, its [Run] function prints one
    line and ends with status 1: the tenancy is not read, no client is made
    and no request is sent, so the outcome is the same against every
    service. *)
Theorem infoCmd_flag_validation :
  forall (w : World) (instancesOf : ComputeClient -> InstancesClient)
         (idFlag nameFlag compartmentFlag profileFlag : string),
    (idFlag <> EmptyString -> nameFlag <> EmptyString ->
     infoCmd w instancesOf idFlag nameFlag compartmentFlag profileFlag
     = ([Earlier (Stdout ("Error: Specify either --id or --name, not both." ++ LF)%string)],
        Fail (osExit 1)))
    /\ (idFlag = EmptyString -> nameFlag = EmptyString ->
        infoCmd w instancesOf idFlag nameFlag compartmentFlag profileFlag
        = ([Earlier (Stdout ("Error: Specify either --id or --name." ++ LF)%string)],
           Fail (osExit 1))).
Proof.
  intros w instancesOf idFlag nameFlag compartmentFlag profileFlag. split.
  - intros Hid Hname. apply String.eqb_neq in Hid, Hname.
    unfold infoCmd. rewrite Hid, Hname. reflexivity.
  - intros -> ->. reflexivity.
Qed.

Lemma infoCmd_flag_validation_witness :
  infoCmd sample.world (fun _ => fleet.instancesClient)
    "ocid1.instance.oc1..web1" "web" "prod" EmptyString
  = ([Earlier (Stdout ("Error: Specify either --id or --name, not both." ++ LF)%string)],
     Fail (osExit 1)).
Proof.
  apply (infoCmd_flag_validation sample.world (fun _ => fleet.instancesClient)
           "ocid1.instance.oc1..web1" "web" "prod" EmptyString); discriminate.
Defined.

Ltac present_or_panic field :=
  destruct field;
  [ | split; [reflexivity |];
      split; [right; reflexivity |];
      split; [discriminate | intros H; unfold displayable in H; cbn in H; tauto] ].

Lemma displayInstanceDetails_outcome (instance : InstanceDetails) :
  requests (fst (@displayInstanceDetails exit instance)) = []
  /\ (snd (@displayInstanceDetails exit instance) = Ret tt
      \/ snd (@displayInstanceDetails exit instance) = Panic)
  /\ (snd (@displayInstanceDetails exit instance) = Ret tt <-> displayable instance).
Proof.
  destruct instance as [id displayName state shape imageId compartmentId
                          availabilityDomain faultDomain].
  unfold displayInstanceDetails.
  cbn [ID_Id ID_DisplayName ID_LifecycleState ID_Shape ID_ImageId ID_CompartmentId
       ID_AvailabilityDomain ID_FaultDomain].
  present_or_panic id. present_or_panic displayName. present_or_panic shape.
  present_or_panic imageId. present_or_panic compartmentId.
  present_or_panic availabilityDomain. present_or_panic faultDomain.
  split; [reflexivity |]. split; [left; reflexivity |].
  split; [intros _; unfold displayable; cbn; repeat split; discriminate | reflexivity].
Qed.

(** X21: what [displayInstanceDetails] does with an instance.  It sends no
    request; it ends normally exactly when the seven pointer fields it prints
    are all there, and panics otherwise. *)
Theorem displayInstanceDetails_total_or_panic :
  forall instance : InstanceDetails,
    requests (fst (@displayInstanceDetails exit instance)) = []
    /\ (snd (@displayInstanceDetails exit instance) = Ret tt
        \/ snd (@displayInstanceDetails exit instance) = Panic)
    /\ (snd (@displayInstanceDetails exit instance) = Ret tt <-> displayable instance).
Proof. exact displayInstanceDetails_outcome. Qed.

Lemma requests_display_then {A} (instance : InstanceDetails) (a : A) :
  requests (fst (@displayInstanceDetails exit instance ~;; cret a)) = [].
Proof.
  destruct (displayInstanceDetails_outcome instance) as (Hreq & _ & _).
  destruct (displayInstanceDetails instance) as [t [[] | e | |]]; cbn [fst] in *;
    try exact Hreq.
  rewrite cbind_ret. cbn [fst cret]. rewrite app_nil_r. exact Hreq.
Qed.

(** X22: [instances info --id].  With [--id] alone and the compute client
    made, the one request of the command is the request for that instance:
    [--compartment-id] is not looked at and nothing is listed.  A refusal
    ends the command with status 1 after one printed line; an answer with
    every field there ends it normally. *)
Theorem infoCmd_by_id :
  forall (w : World) (instancesOf : ComputeClient -> InstancesClient)
         (idFlag compartmentFlag profileFlag : string) (computeClient : ComputeClient),
    idFlag <> EmptyString ->
    NewComputeClientWithConfigurationProvider w (configProviderOf profileFlag)
    = inl computeClient ->
    requests (fst (infoCmd w instancesOf idFlag EmptyString compartmentFlag profileFlag))
    = [GetInstanceCall {| GIReq_InstanceId := Some idFlag |}]
    /\ (forall err,
          GetInstance (instancesOf computeClient)
            {| GIReq_InstanceId := Some idFlag |} = inr err ->
          infoCmd w instancesOf idFlag EmptyString compartmentFlag profileFlag
          = ([ GetInstanceCall {| GIReq_InstanceId := Some idFlag |};
               Earlier (Stdout ("Error: Getting instance by ID failed: "
                                ++ Error err ++ LF)%string) ],
             Fail (osExit 1)))
    /\ (forall response,
          GetInstance (instancesOf computeClient)
            {| GIReq_InstanceId := Some idFlag |} = inl response ->
          displayable (GIResp_Instance response) ->
          snd (infoCmd w instancesOf idFlag EmptyString compartmentFlag profileFlag)
          = Ret tt).
Proof.
  intros w instancesOf idFlag compartmentFlag profileFlag computeClient Hid Hcc.
  apply String.eqb_neq in Hid. unfold infoCmd. rewrite Hid, Hcc.
  cbn [String.eqb negb andb local lift corExit ret fst snd map].
  rewrite cbind_ret_nil.
  destruct (GetInstance (instancesOf computeClient)
              {| GIReq_InstanceId := Some idFlag |}) as [response | err];
    cbn [ccall corExit app].
  - rewrite cbind_ret. cbn [fst snd].
    destruct (displayInstanceDetails_outcome (GIResp_Instance response))
      as (Hreq & _ & Hret).
    split; [rewrite requests_app, Hreq; reflexivity |].
    split; [discriminate |].
    intros response' [= <-] Hdisplayable. apply Hret. exact Hdisplayable.
  - split; [reflexivity |]. split; [intros err' [= <-]; reflexivity | discriminate].
Qed.

Lemma infoCmd_by_id_witness :
  requests (fst (infoCmd sample.world (fun _ => fleet.instancesClient)
                   "ocid1.instance.oc1..web2" EmptyString "no such compartment"
                   EmptyString))
  = [GetInstanceCall {| GIReq_InstanceId := Some "ocid1.instance.oc1..web2" |}]
  /\ snd (infoCmd sample.world (fun _ => fleet.instancesClient)
            "ocid1.instance.oc1..web2" EmptyString "no such compartment" EmptyString)
     = Ret tt.
Proof.
  destruct (infoCmd_by_id sample.world (fun _ => fleet.instancesClient)
              "ocid1.instance.oc1..web2" "no such compartment" EmptyString
              sample.computeClient ltac:(discriminate) eq_refl)
    as (Hreq & _ & Hret).
  split; [exact Hreq |].
  apply (Hret {| GIResp_Instance := fleet.web2 |} eq_refl).
  repeat split; discriminate.
Defined.

Lemma cderef_Some {E A} (a : A) : @cderef E A (Some a) = ([], Ret a).
Proof. reflexivity. Qed.

Lemma findInstance_absent (client : InstancesClient) (nameFlag : string)
    (items : list InstanceDetails) :
  Forall (namedOtherwise nameFlag) items ->
  findInstance client nameFlag items = ([], Ret false).
Proof.
  induction 1 as [| instance rest [displayName [Hname Hneq]] _ IH]; [reflexivity |].
  cbn [findInstance]. rewrite Hname, cderef_Some.
  rewrite cbind_ret_nil. apply String.eqb_neq in Hneq. rewrite Hneq. exact IH.
Qed.

Lemma findInstance_skip (client : InstancesClient) (nameFlag : string)
    (pre rest : list InstanceDetails) :
  Forall (namedOtherwise nameFlag) pre ->
  findInstance client nameFlag (pre ++ rest) = findInstance client nameFlag rest.
Proof.
  induction 1 as [| instance pre [displayName [Hname Hneq]] _ IH]; [reflexivity |].
  cbn [app findInstance]. rewrite Hname, cderef_Some.
  rewrite cbind_ret_nil. apply String.eqb_neq in Hneq. rewrite Hneq. exact IH.
Qed.

Lemma findInstance_hit (client : InstancesClient) (nameFlag : string)
    (instance : InstanceDetails) (post : list InstanceDetails) :
  ID_DisplayName instance = Some nameFlag ->
  findInstance client nameFlag (instance :: post)
  = (fullResponse <~
       corExit (fun err => ("Error: Getting full instance details failed: "
                            ++ Error err ++ LF)%string)
         (ccall (GetInstanceCall {| GIReq_InstanceId := ID_Id instance |})
                (GetInstance client {| GIReq_InstanceId := ID_Id instance |})) ;;
     displayInstanceDetails (GIResp_Instance fullResponse) ~;; cret true).
Proof.
  intros Hname. cbn [findInstance].
  rewrite Hname, cderef_Some, cbind_ret_nil, String.eqb_refl.
  reflexivity.
Qed.

Lemma requests_after_find (m : Cmd exit bool) (text : string) :
  requests (fst (found <~ m ;; if negb found then cprint text else cret tt))
  = requests (fst m).
Proof.
  destruct m as [t [[|] | e | |]]; try reflexivity;
    rewrite cbind_ret; cbn [fst negb]; rewrite requests_app; cbn;
    rewrite app_nil_r; reflexivity.
Qed.

Lemma scope_step (w : World) (compartmentFlag : string)
    (configProvider : ConfigurationProvider) (t : list event) (compartmentID : string) :
  (if String.eqb compartmentFlag EmptyString
   then local (TenancyOCID w configProvider)
   else resolveCompartmentID w compartmentFlag configProvider)
  = (t, Ret compartmentID) ->
  (if String.eqb compartmentFlag EmptyString then
     corExit (fun err => ("Error: Getting tenancy OCID failed: " ++ Error err ++ LF)%string)
       (lift (local (TenancyOCID w configProvider)))
   else
     corExit (fun err => ("Error: Resolving compartment ID failed: "
                          ++ Error err ++ LF)%string)
       (lift (resolveCompartmentID w compartmentFlag configProvider)))
  = (map Earlier t, Ret compartmentID).
Proof.
  destruct (String.eqb compartmentFlag EmptyString); intros ->; reflexivity.
Qed.

(** X23: [instances info --name] when no instance has the name.  With the
    compartment settled (the tenancy when [--compartment-id] is empty, the
    resolved compartment otherwise) and its instances listed, if every
    listed instance has a display name other than [--name], the command asks
    for no instance, prints that no instance was found, and ends normally:
    not finding the instance is not an error exit. *)
Theorem infoCmd_by_name_not_found :
  forall (w : World) (instancesOf : ComputeClient -> InstancesClient)
         (nameFlag compartmentFlag profileFlag : string) (t : list event)
         (compartmentID : string) (computeClient : ComputeClient)
         (listResponse : ListInstancesResponse),
    nameFlag <> EmptyString ->
    (if String.eqb compartmentFlag EmptyString
     then local (TenancyOCID w (configProviderOf profileFlag))
     else resolveCompartmentID w compartmentFlag (configProviderOf profileFlag))
    = (t, Ret compartmentID) ->
    NewComputeClientWithConfigurationProvider w (configProviderOf profileFlag)
    = inl computeClient ->
    ListInstances (instancesOf computeClient)
      {| LInReq_CompartmentId := Some compartmentID |} = inl listResponse ->
    Forall (namedOtherwise nameFlag) (LInResp_Items listResponse) ->
    infoCmd w instancesOf EmptyString nameFlag compartmentFlag profileFlag
    = (map Earlier t
       ++ [ ListInstancesCall {| LInReq_CompartmentId := Some compartmentID |};
            Earlier (Stdout ("No instance found with that display name in the compartment."
                             ++ LF)%string) ],
       Ret tt).
Proof.
  intros w instancesOf nameFlag compartmentFlag profileFlag t compartmentID
         computeClient listResponse Hname Hscope Hcc Hlist Habsent.
  apply String.eqb_neq in Hname. unfold infoCmd. rewrite Hname.
  cbn [String.eqb negb andb].
  rewrite (scope_step _ _ _ _ _ Hscope), cbind_ret, Hcc.
  cbn [local lift corExit ret fst snd map]. rewrite cbind_ret_nil, Hlist.
  cbn [ccall corExit]. rewrite cbind_ret.
  rewrite (findInstance_absent _ _ _ Habsent), cbind_ret_nil.
  reflexivity.
Qed.

Lemma infoCmd_by_name_not_found_witness :
  infoCmd sample.world (fun _ => fleet.instancesClient) EmptyString "Web" "prod"
    EmptyString
  = ([ Earlier (ListCompartmentsCall
                  {| LCReq_CompartmentId := Some sample.tenancy; LCReq_Page := None |});
       ListInstancesCall {| LInReq_CompartmentId := Some sample.prodId |};
       Earlier (Stdout ("No instance found with that display name in the compartment."
                        ++ LF)%string) ],
     Ret tt).
Proof.
  apply (infoCmd_by_name_not_found sample.world (fun _ => fleet.instancesClient)
           "Web" "prod" EmptyString
           [ListCompartmentsCall
              {| LCReq_CompartmentId := Some sample.tenancy; LCReq_Page := None |}]
           sample.prodId sample.computeClient
           {| LInResp_Items := [fleet.db1; fleet.web1; fleet.web2] |}
           ltac:(discriminate) eq_refl eq_refl eq_refl).
  repeat constructor; eexists; (split; [reflexivity | discriminate]).
Defined.

(** X24: [instances info --name] when instances have the name.  With the
    compartment settled and its instances listed, if the instances before
    some instance have other display names and that instance has the name
    and an identifier that is not empty (the SDK sends no request for an
    identifier that is nil or empty), the command asks for the details of
    that instance and of no other, however many later instances share the
    name; when the answer has every field, the command ends normally. *)
Theorem infoCmd_by_name_first_match :
  forall (w : World) (instancesOf : ComputeClient -> InstancesClient)
         (nameFlag compartmentFlag profileFlag : string) (t : list event)
         (compartmentID : string) (computeClient : ComputeClient)
         (listResponse : ListInstancesResponse)
         (pre : list InstanceDetails) (instance : InstanceDetails)
         (post : list InstanceDetails) (id : string),
    nameFlag <> EmptyString ->
    (if String.eqb compartmentFlag EmptyString
     then local (TenancyOCID w (configProviderOf profileFlag))
     else resolveCompartmentID w compartmentFlag (configProviderOf profileFlag))
    = (t, Ret compartmentID) ->
    NewComputeClientWithConfigurationProvider w (configProviderOf profileFlag)
    = inl computeClient ->
    ListInstances (instancesOf computeClient)
      {| LInReq_CompartmentId := Some compartmentID |} = inl listResponse ->
    LInResp_Items listResponse = pre ++ instance :: post ->
    Forall (namedOtherwise nameFlag) pre ->
    ID_DisplayName instance = Some nameFlag ->
    ID_Id instance = Some id ->
    id <> EmptyString ->
    requests (fst (infoCmd w instancesOf EmptyString nameFlag compartmentFlag
                     profileFlag))
    = map Earlier (calls t)
      ++ [ ListInstancesCall {| LInReq_CompartmentId := Some compartmentID |};
           GetInstanceCall {| GIReq_InstanceId := Some id |} ]
    /\ (forall fullResponse,
          GetInstance (instancesOf computeClient)
            {| GIReq_InstanceId := Some id |} = inl fullResponse ->
          displayable (GIResp_Instance fullResponse) ->
          snd (infoCmd w instancesOf EmptyString nameFlag compartmentFlag profileFlag)
          = Ret tt).
Proof.
  intros w instancesOf nameFlag compartmentFlag profileFlag t compartmentID
         computeClient listResponse pre instance post id
         Hname Hscope Hcc Hlist Hitems Hpre Hhit Hid _.
  rewrite <- Hid.
  apply String.eqb_neq in Hname. unfold infoCmd. rewrite Hname.
  cbn [String.eqb negb andb].
  rewrite (scope_step _ _ _ _ _ Hscope), cbind_ret, Hcc.
  cbn [local lift corExit ret fst snd map]. rewrite cbind_ret_nil, Hlist.
  cbn [ccall corExit]. rewrite cbind_ret, Hitems.
  rewrite (findInstance_skip _ _ _ _ Hpre), (findInstance_hit _ _ _ _ Hhit).
  cbn [fst snd].
  destruct (GetInstance (instancesOf computeClient)
              {| GIReq_InstanceId := ID_Id instance |}) as [fullResponse | err];
    cbn [ccall corExit app].
  - rewrite cbind_ret. cbn [fst snd]. split.
    + rewrite requests_app, requests_Earlier. f_equal.
      cbn [requests filter]. f_equal.
      change (filter _ ?l) with (requests l).
      rewrite requests_after_find. cbn [fst].
      rewrite requests_app, (requests_display_then _ true). reflexivity.
    + intros fullResponse' [= <-] Hdisplayable.
      apply (displayInstanceDetails_outcome (GIResp_Instance fullResponse))
        in Hdisplayable.
      destruct (displayInstanceDetails (GIResp_Instance fullResponse))
        as [t' r]. cbn [snd] in Hdisplayable. subst r.
      rewrite cbind_ret. cbn [cret fst snd]. rewrite cbind_ret. reflexivity.
  - split; [| discriminate].
    cbn [cbind fst]. rewrite !requests_app, requests_Earlier. reflexivity.
Qed.

Lemma infoCmd_by_name_first_match_witness :
  requests (fst (infoCmd sample.world (fun _ => fleet.instancesClient) EmptyString
                   "web" "prod" EmptyString))
  = [ Earlier (ListCompartmentsCall
                 {| LCReq_CompartmentId := Some sample.tenancy; LCReq_Page := None |});
      ListInstancesCall {| LInReq_CompartmentId := Some sample.prodId |};
      GetInstanceCall {| GIReq_InstanceId := Some "ocid1.instance.oc1..web1" |} ].
Proof.
  apply (infoCmd_by_name_first_match sample.world (fun _ => fleet.instancesClient)
           "web" "prod" EmptyString
           [ListCompartmentsCall
              {| LCReq_CompartmentId := Some sample.tenancy; LCReq_Page := None |}]
           sample.prodId sample.computeClient
           {| LInResp_Items := [fleet.db1; fleet.web1; fleet.web2] |}
           [fleet.db1] fleet.web1 [fleet.web2] "ocid1.instance.oc1..web1"
           ltac:(discriminate) eq_refl eq_refl eq_refl eq_refl).
  - repeat constructor. eexists. split; [reflexivity | discriminate].
  - reflexivity.
  - reflexivity.
  - discriminate.
Defined.

Lemma details_app (t1 t2 : list cmdEvent) :
  details (t1 ++ t2) = details t1 ++ details t2.
Proof. unfold details. apply flat_map_app. Qed.

Lemma details_Earlier (t : list event) : details (map Earlier t) = [].
Proof. induction t as [| ev t IH]; [reflexivity | exact IH]. Qed.

Lemma details_cbind {E A B} (m : Cmd E A) (k : A -> Cmd E B) :
  details (fst (cbind m k))
  = details (fst m) ++ match snd m with
                       | Ret a => details (fst (k a))
                       | _ => []
                       end.
Proof.
  destruct m as [t [a | e | |]]; unfold cbind; cbn [fst snd];
    try (rewrite app_nil_r; reflexivity).
  destruct (k a) as [t' r]. cbn [fst]. apply details_app.
Qed.

Lemma details_no_request (t : list cmdEvent) : requests t = [] -> details t = [].
Proof.
  unfold requests, details. induction t as [| ev t IH]; [reflexivity |].
  destruct ev as [[] | | |]; cbn [filter flat_map app]; try discriminate; exact IH.
Qed.

Lemma details_corExit_lift {A} (text : error -> string) (m : M error A) :
  details (fst (corExit text (lift m))) = [].
Proof.
  destruct m as [t [a | err | |]]; cbn [lift corExit fst snd];
    try apply details_Earlier.
  rewrite details_app, details_Earlier. reflexivity.
Qed.

Lemma details_after_find (m : Cmd exit bool) (text : string) :
  details (fst (found <~ m ;; if negb found then cprint text else cret tt))
  = details (fst m).
Proof.
  rewrite details_cbind.
  destruct m as [t [[|] | e | |]]; cbn [fst snd negb]; rewrite app_nil_r; reflexivity.
Qed.

Lemma corExit_lift_ret {A} (text : error -> string) (m : M error A) (a : A) :
  snd (corExit text (lift m)) = Ret a -> exists t, m = (t, Ret a).
Proof.
  destruct m as [t [a' | err | |]]; cbn [lift corExit fst snd]; try discriminate.
  intros [= ->]. exists t. reflexivity.
Qed.

Lemma findInstance_details (client : InstancesClient) (nameFlag : string)
    (items : list InstanceDetails) :
  details (fst (findInstance client nameFlag items)) = []
  \/ exists pre instance post,
       items = pre ++ instance :: post
       /\ Forall (namedOtherwise nameFlag) pre
       /\ ID_DisplayName instance = Some nameFlag
       /\ details (fst (findInstance client nameFlag items))
          = [{| GIReq_InstanceId := ID_Id instance |}].
Proof.
  induction items as [| instanceSummary rest IH]; [left; reflexivity |].
  cbn [findInstance].
  destruct (ID_DisplayName instanceSummary) as [displayName |] eqn:Hname;
    [| left; reflexivity].
  rewrite cderef_Some, cbind_ret_nil.
  destruct (String.eqb displayName nameFlag) eqn:Heq.
  - apply String.eqb_eq in Heq. subst displayName.
    right. exists [], instanceSummary, rest.
    split; [reflexivity |]. split; [constructor |]. split; [exact Hname |].
    rewrite details_cbind.
    destruct (GetInstance client {| GIReq_InstanceId := ID_Id instanceSummary |})
      as [fullResponse | err]; cbn [ccall corExit fst snd app]; [| reflexivity].
    rewrite details_cbind.
    rewrite (details_no_request _
               (proj1 (displayInstanceDetails_outcome (GIResp_Instance fullResponse)))).
    destruct (snd (displayInstanceDetails (GIResp_Instance fullResponse)));
      reflexivity.
  - destruct IH as [IH | (pre & instance & post & Hitems & Hpre & Hn & IH)];
      [left; exact IH |].
    right. exists (instanceSummary :: pre), instance, post.
    split; [rewrite Hitems; reflexivity |].
    split; [| split; assumption].
    constructor; [| exact Hpre].
    exists displayName. split; [exact Hname |]. apply String.eqb_neq. exact Heq.
Qed.

(** X26: [instances info] calls [GetInstance] once at most, in every run.  A
    run that calls it was given [--id] alone and passes that identifier, or
    was given [--name] alone and passes the identifier of the first instance
    whose display name is [--name], character for character, in the listing
    of the settled compartment: the tenancy when [--compartment-id] is
    empty, the compartment it resolves to otherwise. *)
Theorem infoCmd_one_detail_request_at_most :
  forall (w : World) (instancesOf : ComputeClient -> InstancesClient)
         (idFlag nameFlag compartmentFlag profileFlag : string),
    details (fst (infoCmd w instancesOf idFlag nameFlag compartmentFlag profileFlag))
    = []
    \/ (idFlag <> EmptyString /\ nameFlag = EmptyString
        /\ details (fst (infoCmd w instancesOf idFlag nameFlag compartmentFlag
                           profileFlag))
           = [{| GIReq_InstanceId := Some idFlag |}])
    \/ (idFlag = EmptyString /\ nameFlag <> EmptyString
        /\ exists (t : list event) (compartmentID : string)
                  (computeClient : ComputeClient)
                  (listResponse : ListInstancesResponse)
                  (pre : list InstanceDetails) (instance : InstanceDetails)
                  (post : list InstanceDetails),
             (if String.eqb compartmentFlag EmptyString
              then local (TenancyOCID w (configProviderOf profileFlag))
              else resolveCompartmentID w compartmentFlag
                     (configProviderOf profileFlag))
             = (t, Ret compartmentID)
             /\ NewComputeClientWithConfigurationProvider w
                  (configProviderOf profileFlag)
                = inl computeClient
             /\ ListInstances (instancesOf computeClient)
                  {| LInReq_CompartmentId := Some compartmentID |} = inl listResponse
             /\ LInResp_Items listResponse = pre ++ instance :: post
             /\ Forall (namedOtherwise nameFlag) pre
             /\ ID_DisplayName instance = Some nameFlag
             /\ details (fst (infoCmd w instancesOf idFlag nameFlag compartmentFlag
                                profileFlag))
                = [{| GIReq_InstanceId := ID_Id instance |}]).
Proof.
  intros w instancesOf idFlag nameFlag compartmentFlag profileFlag.
  unfold infoCmd.
  destruct (String.eqb idFlag EmptyString) eqn:Hid;
    destruct (String.eqb nameFlag EmptyString) eqn:Hname; cbn [negb andb].
  - left. reflexivity.
  - apply String.eqb_eq in Hid. apply String.eqb_neq in Hname.
    rewrite details_cbind.
    match goal with
    | |- context [snd ?scope] =>
        assert (Hscope : details (fst scope) = [])
          by (destruct (String.eqb compartmentFlag EmptyString);
              apply details_corExit_lift);
        rewrite Hscope; destruct (snd scope) as [compartmentID | | |] eqn:Hsettled
    end; cbn [app]; try (left; reflexivity).
    assert (Hcompartment :
              exists t,
                (if String.eqb compartmentFlag EmptyString
                 then local (TenancyOCID w (configProviderOf profileFlag))
                 else resolveCompartmentID w compartmentFlag
                        (configProviderOf profileFlag))
                = (t, Ret compartmentID)).
    { destruct (String.eqb compartmentFlag EmptyString);
        apply corExit_lift_ret in Hsettled; exact Hsettled. }
    destruct Hcompartment as [t Hcompartment].
    rewrite details_cbind, details_corExit_lift. cbn [app].
    destruct (NewComputeClientWithConfigurationProvider w (configProviderOf profileFlag))
      as [computeClient | err] eqn:Hcc; cbn [local lift corExit ret fail fst snd map];
      [| left; reflexivity].
    rewrite details_cbind.
    destruct (ListInstances (instancesOf computeClient)
                {| LInReq_CompartmentId := Some compartmentID |})
      as [listResponse | err] eqn:Hlist; cbn [ccall corExit fst snd];
      [| left; reflexivity].
    change (details [ListInstancesCall {| LInReq_CompartmentId := Some compartmentID |}])
      with (@nil GetInstanceRequest).
    cbn [app]. rewrite details_after_find.
    destruct (findInstance_details (instancesOf computeClient) nameFlag
                (LInResp_Items listResponse))
      as [Hnone | (pre & instance & post & Hitems & Hpre & Hn & Hone)];
      [left; exact Hnone |].
    right. right. split; [exact Hid |]. split; [exact Hname |].
    exists t, compartmentID, computeClient, listResponse, pre, instance, post.
    split; [exact Hcompartment |]. split; [reflexivity |].
    repeat (split; [assumption |]). exact Hone.
  - apply String.eqb_neq in Hid. apply String.eqb_eq in Hname.
    rewrite details_cbind, details_corExit_lift. cbn [app].
    destruct (NewComputeClientWithConfigurationProvider w (configProviderOf profileFlag))
      as [computeClient | err]; cbn [local lift corExit ret fail fst snd map];
      [| left; reflexivity].
    right. left. split; [exact Hid |]. split; [exact Hname |].
    rewrite details_cbind.
    destruct (GetInstance (instancesOf computeClient)
                {| GIReq_InstanceId := Some idFlag |}) as [response | err];
      cbn [ccall corExit fst snd app]; [| reflexivity].
    rewrite (details_no_request _
               (proj1 (displayInstanceDetails_outcome (GIResp_Instance response)))).
    reflexivity.
  - left. reflexivity.
Qed.

(** ** [instances list-images] *)

Lemma requests_cbind_none {E A B} (m : Cmd E A) (k : A -> Cmd E B) :
  requests (fst m) = [] ->
  (forall a, requests (fst (k a)) = []) ->
  requests (fst (cbind m k)) = [].
Proof.
  destruct m as [t [a | e | |]]; cbn [fst]; intros Hm Hk; try exact Hm.
  rewrite cbind_ret. cbn [fst]. rewrite requests_app, Hm, Hk. reflexivity.
Qed.

Lemma cbind_cprint {E B} (text : string) (k : unit -> Cmd E B) :
  cbind (cprint text) k = (Earlier (Stdout text) :: fst (k tt), snd (k tt)).
Proof. unfold cprint, lift, print. cbn [fst snd map]. rewrite cbind_ret. reflexivity. Qed.

Lemma requests_cprint {E} (text : string) : requests (fst (@cprint E text)) = [].
Proof. reflexivity. Qed.

Lemma requests_cderef {E A} (p : option A) : requests (fst (@cderef E A p)) = [].
Proof. destruct p; reflexivity. Qed.

Lemma requests_printImage (image : ImageEntry) :
  requests (fst (@printImage exit image)) = [].
Proof.
  unfold printImage.
  repeat (apply requests_cbind_none;
          [first [apply requests_cderef | apply requests_cprint
                 | destruct (IE_BaseImageId image); reflexivity]
          | intros ?]).
  apply requests_cprint.
Qed.

Lemma requests_cforRange {A} (items : list A) (body : A -> Cmd exit unit) :
  (forall x, requests (fst (body x)) = []) ->
  requests (fst (cforRange items body)) = [].
Proof.
  intros Hbody. induction items as [| x rest IH]; [reflexivity |].
  cbn [cforRange]. apply requests_cbind_none; [apply Hbody | intros _; exact IH].
Qed.

Lemma requests_listing (client : ImagesClient) (request : ImageListing) :
  requests
    (fst (cprint ("Fetching images..." ++ LF)%string ~;;
          response <~ corFatal (fun err => ("Error listing images: " ++ Error err)%string)
              (ccall (ListImagesByCall request) (ListImagesBy client request)) ;;
          if (List.length (ILResp_Items response) =? 0)%nat then
            cprint ("No images found matching the criteria." ++ LF)%string
          else
            cprint ("Found " ++ decimal (List.length (ILResp_Items response))
                    ++ " images:" ++ LF)%string ~;;
            cprint (dashes ++ LF)%string ~;;
            cforRange (ILResp_Items response) printImage))
  = [ListImagesByCall request].
Proof.
  rewrite cbind_cprint. cbn [fst requests filter].
  change (filter _ ?l) with (requests l).
  destruct (ListImagesBy client request) as [response | err];
    cbn [ccall corFatal]; [| reflexivity].
  rewrite cbind_ret. cbn [fst]. rewrite requests_app.
  cbn [requests filter app]. f_equal. change (filter _ ?l) with (requests l).
  destruct (List.length (ILResp_Items response) =? 0)%nat; [reflexivity |].
  apply requests_cbind_none; [apply requests_cprint | intros _].
  apply requests_cbind_none; [apply requests_cprint | intros _].
  apply requests_cforRange. apply requests_printImage.
Qed.

(** X25: what [instances list-images] asks for.  The compute client is made
    and the tenancy is read before the flags are looked at, so an unreadable
    tenancy ends the command even when [--compartment-id] needs no tenancy.
    With [--platform], whatever [--compartment-id] says, and also with
    neither, the one request is the image listing of the tenancy; with
    [--compartment-id] alone the requests of compartment resolution come
    first and the listing is that of the resolved compartment.  The listing
    always carries the limit, asks for the newest first, and carries the
    operating system exactly when [--os] is not empty. *)
Theorem listImagesCmd_requests :
  forall (w : World) (imagesOf : ComputeClient -> ImagesClient)
         (profileFlag compartmentInput : string) (platformFlag : bool)
         (osFilter : string) (limitFlag : BinNums.Z) (computeClient : ComputeClient),
    NewComputeClientWithConfigurationProvider w (configProviderOf profileFlag)
    = inl computeClient ->
    (forall err,
        TenancyOCID w (configProviderOf profileFlag) = inr err ->
        listImagesCmd w imagesOf profileFlag compartmentInput platformFlag osFilter
          limitFlag
        = ([], Fail (logFatal ("Error getting tenancy OCID: " ++ Error err)%string)))
    /\ (forall tenancyOCID,
          TenancyOCID w (configProviderOf profileFlag) = inl tenancyOCID ->
          platformFlag = true \/ compartmentInput = EmptyString ->
          requests (fst (listImagesCmd w imagesOf profileFlag compartmentInput
                           platformFlag osFilter limitFlag))
          = [ListImagesByCall
               {| IL_CompartmentId := Some tenancyOCID;
                  IL_Limit := Some limitFlag;
                  IL_SortBy := "TIMECREATED";
                  IL_SortOrder := "DESC";
                  IL_OperatingSystem :=
                    if negb (String.eqb osFilter EmptyString) then Some osFilter
                    else None |}])
    /\ (forall tenancyOCID t compartmentID,
          TenancyOCID w (configProviderOf profileFlag) = inl tenancyOCID ->
          platformFlag = false ->
          compartmentInput <> EmptyString ->
          resolveCompartmentID w compartmentInput (configProviderOf profileFlag)
          = (t, Ret compartmentID) ->
          requests (fst (listImagesCmd w imagesOf profileFlag compartmentInput
                           platformFlag osFilter limitFlag))
          = map Earlier (calls t)
            ++ [ListImagesByCall
                  {| IL_CompartmentId := Some compartmentID;
                     IL_Limit := Some limitFlag;
                     IL_SortBy := "TIMECREATED";
                     IL_SortOrder := "DESC";
                     IL_OperatingSystem :=
                       if negb (String.eqb osFilter EmptyString) then Some osFilter
                       else None |}]).
Proof.
  intros w imagesOf profileFlag compartmentInput platformFlag osFilter limitFlag
         computeClient Hcc.
  unfold listImagesCmd. rewrite Hcc.
  cbn [local lift corFatal ret fst snd map]. rewrite cbind_ret_nil.
  split; [| split].
  - intros err Hten. rewrite Hten. reflexivity.
  - intros tenancyOCID Hten Hflags. rewrite Hten.
    cbn [local lift corFatal ret fst snd map]. rewrite cbind_ret_nil.
    assert (Hscope : forall text1 text2 m,
      (if platformFlag then @cprint exit text1 ~;; cret tenancyOCID
       else if negb (String.eqb compartmentInput EmptyString) then m
       else cprint text2 ~;; cret tenancyOCID)
      = ([Earlier (Stdout (if platformFlag then text1 else text2))], Ret tenancyOCID)).
    { intros text1 text2 m. destruct platformFlag; [reflexivity |].
      destruct Hflags as [H | ->]; [discriminate H | reflexivity]. }
    rewrite Hscope, cbind_ret. cbn [fst]. rewrite requests_app.
    cbn [requests filter app]. change (filter _ ?l) with (requests l).
    apply requests_listing.
  - intros tenancyOCID t compartmentID Hten -> Hci Hresolve. rewrite Hten.
    cbn [local lift corFatal ret fst snd map]. rewrite cbind_ret_nil.
    apply String.eqb_neq in Hci. rewrite Hci, Hresolve.
    cbn [negb lift corFatal fst snd]. rewrite cbind_ret.
    rewrite cbind_cprint. cbn [cret fst snd]. rewrite cbind_ret. cbn [fst].
    rewrite !requests_app, requests_Earlier.
    change (requests [Earlier (Stdout _)]) with (@nil cmdEvent).
    rewrite app_nil_r. f_equal.
    apply requests_listing.
Qed.

Lemma listImagesCmd_requests_witness :
  requests (fst (listImagesCmd sample.world (fun _ => fleet.imagesClient) EmptyString
                   "prod" true "Canonical Ubuntu" (BinNums.Zpos BinNums.xH)))
  = [ListImagesByCall
       {| IL_CompartmentId := Some sample.tenancy;
          IL_Limit := Some (BinNums.Zpos BinNums.xH);
          IL_SortBy := "TIMECREATED";
          IL_SortOrder := "DESC";
          IL_OperatingSystem := Some "Canonical Ubuntu" |}].
Proof.
  apply (proj1 (proj2 (listImagesCmd_requests sample.world
                         (fun _ => fleet.imagesClient) EmptyString "prod" true
                         "Canonical Ubuntu" (BinNums.Zpos BinNums.xH)
                         sample.computeClient eq_refl))
           sample.tenancy eq_refl).
  left. reflexivity.
Defined.
